(** * icptiger-back: the quota-aware job-orchestration core

    A shallow embedding of the TypeScript services that schedule, gate and run
    the outreach jobs:

    - [LinkedInSettingsService]  (linkedin/settings.service.ts)  quotas and
      pending jobs;
    - [Browser.PuppeteerService] (browser/puppeteer.service.ts, whose text
      follows api/scheduler/scheduler.controller.ts in this tree)  the
      browser launcher;
    - [SessionService]           (browser/session.service.ts)    one browser
      session per user;
    - [LinkedInAutomationService] (linkedin/automation.service.ts) [runWithLogin];
    - [FollowRequestProcessor]   (jobs/processors/follow-request.processor.ts);
    - [QueueService], [WorkerService] (jobs/queue.service.ts, worker.service.ts);
    - [SchedulerService]         (scheduler/scheduler.service.ts).

    Conventions of the embedding.

    - A JavaScript [number] that counts something is a [Z]; a [Date] is the
      number of milliseconds since the epoch, a [Z] as well.
    - Every [async] method is a computation in the monad [M]: a function from
      the state of the world to an outcome (a value or a thrown error) and the
      state afterwards.  A throw keeps the state reached so far, as in
      JavaScript.
    - The world holds the Supabase tables, the Chrome handles Puppeteer hands
      out, the one [PuppeteerService] object, the session map, the armed
      timers, the BullMQ queue, the clock, what LinkedIn will show and the
      [faults] the environment has in store.
    - A call that leaves the process (a query, an insert, an update or a
      delete on a table, [queue.add], a call to Chrome) is an [external]
      call: it takes its outcome from [faults] ([None]: it is answered,
      [Some e]: it fails with [e]); with no fault in store it is answered.
      A Supabase call never throws: it hands back its [error].
    - A read through [.single()] is such a call; answered, it hands back the
      row when exactly one row matches and an [error] otherwise.
    - Time passes where the code waits ([this.delay]); a call to Chrome or
      to the store takes no time of its own.
    - [Logger] output goes to the console and is not part of the state. *)

From stdpp Require Import gmap strings list sorting pretty.
From Stdlib Require Import ZArith Lia Ascii.

Local Open Scope Z_scope.
Set Warnings "-register-all".

(** ** Values shared by the services *)

(** A thrown JavaScript [Error]. *)
Module Error.
Record t := mk { name : string; message : string; stack : string }.
End Error.

(** A [Record<string, any>] as the code builds it: the [context] of an
    activity record. *)
Inductive Json :=
| JNum (z : Z)
| JStr (s : string)
| JObj (fields : list (string * Json)).

Module ActionType.
Inductive t := connections | messages | visits | inmails.

#[global] Instance eq_dec : EqDecision t.
Proof. solve_decision. Defined.
End ActionType.

(** [JobData['jobType']] of queue.service.ts. *)
Module JobType.
Inductive t :=
| followRequest | followResponse | sendMessages
| processPendingJobs | processSingleCampaign.

#[global] Instance eq_dec : EqDecision t.
Proof. solve_decision. Defined.

(** The text of the literal, where the code interpolates or stores it. *)
Definition to_string (k : t) : string :=
  match k with
  | followRequest => "followRequest"
  | followResponse => "followResponse"
  | sendMessages => "sendMessages"
  | processPendingJobs => "processPendingJobs"
  | processSingleCampaign => "processSingleCampaign"
  end.
End JobType.

Module LogLevel.
Inductive t := info | warn | error.
End LogLevel.

(** ** The Supabase tables *)

Module DailyUsage.
Record t := mk {
  connections : Z;
  messages : Z;
  visits : Z;
  inmails : Z;
  (** the UTC calendar day, numbered from the epoch; the code keeps the
      same day as the text [YYYY-MM-DD] *)
  date : Z
}.
End DailyUsage.

Module LinkedInSettings.
Record t := mk {
  max_connections_per_day : Z;
  max_message_per_day : Z;
  total_visits_per_day : Z;
  max_inmails_per_day : Z
}.
End LinkedInSettings.

Module QuotaInfo.
Record t := mk {
  remainingConnections : Z;
  remainingMessages : Z;
  remainingVisits : Z;
  remainingInmails : Z
}.
End QuotaInfo.

Module PendingJob.
Record t := mk {
  id : string;
  user_id : string;
  campaign_id : string;
  job_type : JobType.t;
  action_type : ActionType.t;
  requested_count : Z;
  created_at : Z;
  retry_count : Z;
  max_retries : Z
}.
End PendingJob.

(** [ActivityLogData] of database/supabase.service.ts. *)
Module ActivityLogData.
Record t := mk {
  user_id : string;
  campaign_id : string;
  job_type : string;
  log_level : LogLevel.t;
  message : string;
  context : option Json
}.
End ActivityLogData.

Module CampaignStatus.
Inductive t := queued | active | paused | completed.

#[global] Instance eq_dec : EqDecision t.
Proof. solve_decision. Defined.
End CampaignStatus.

(** [campaign_type] as follow-request.processor.ts reads it off the row: one
    of the five types of the interface [Campaign], which are those its
    [switch] knows, or some [other] string, for the [default:] arm. *)
Module CampaignType.
Inductive t := search | reactions | comments | event | csv | other (name : string).

#[global] Instance eq_dec : EqDecision t.
Proof. solve_decision. Defined.
End CampaignType.

Module Campaign.
Record t := mk {
  id : string;
  user_id : string;
  linkedin_url : string;
  status : option CampaignStatus.t;
  total_profiles : Z;
  processed_profiles : Z;
  campaign_type : option CampaignType.t;
  connection_note : option string
}.

Definition with_processed_profiles (n : Z) (c : t) : t :=
  mk (id c) (user_id c) (linkedin_url c) (status c) (total_profiles c) n
     (campaign_type c) (connection_note c).
End Campaign.

Module LinkedInAccount.
Record t := mk { id : string; user_id : string; email : string }.
End LinkedInAccount.

Module ConnectionStatus.
Inductive t := queued | pending | sent | accepted | rejected.

#[global] Instance eq_dec : EqDecision t.
Proof. solve_decision. Defined.
End ConnectionStatus.

Module LinkedInConnection.
Record t := mk {
  id : string;
  campaign_id : string;
  profile_url : string;
  display_name : string;
  first_name : string;
  last_name : string;
  headline : string;
  current_company : string;
  status : ConnectionStatus.t;
  requested_at : Z
}.

(** [.update({ status: 'sent', requested_at: ... })] *)
Definition with_sent (now : Z) (c : t) : t :=
  mk (id c) (campaign_id c) (profile_url c) (display_name c) (first_name c)
     (last_name c) (headline c) (current_company c) ConnectionStatus.sent now.
End LinkedInConnection.

Module Db.
Record t := mk {
  (** the rows of [linkedin_settings], each with its [user_id]: nothing in
      the code says that a user has one row at most *)
  linkedin_settings : list (string * LinkedInSettings.t);
  (** [daily_usage] by [user_id] and [date]; this table, [profiles],
      [linkedin_campaigns] and [linkedin_accounts] are taken to hold one row
      at most for a key *)
  daily_usage : gmap (string * Z) DailyUsage.t;
  pending_jobs : list PendingJob.t;
  (** the rows inserted so far: the store names the next row after it *)
  row_seq : nat;
  activity_logs : list ActivityLogData.t;
  (** [profiles.created_at] by user *)
  profiles : gmap string Z;
  (** by [id] *)
  linkedin_campaigns : gmap string Campaign.t;
  (** by [user_id] *)
  linkedin_accounts : gmap string LinkedInAccount.t;
  linkedin_connections : list LinkedInConnection.t
}.

Definition empty : t := mk [] ∅ [] 0 [] ∅ ∅ ∅ [].

Definition set_linkedin_settings (f : list (string * LinkedInSettings.t) → list (string * LinkedInSettings.t)) (d : t) : t :=
  mk (f (linkedin_settings d)) (daily_usage d) (pending_jobs d) (row_seq d)
     (activity_logs d) (profiles d) (linkedin_campaigns d)
     (linkedin_accounts d) (linkedin_connections d).

Definition set_pending_jobs (f : list PendingJob.t → list PendingJob.t) (d : t) : t :=
  mk (linkedin_settings d) (daily_usage d) (f (pending_jobs d)) (row_seq d)
     (activity_logs d) (profiles d) (linkedin_campaigns d)
     (linkedin_accounts d) (linkedin_connections d).

Definition set_row_seq (f : nat → nat) (d : t) : t :=
  mk (linkedin_settings d) (daily_usage d) (pending_jobs d) (f (row_seq d))
     (activity_logs d) (profiles d) (linkedin_campaigns d)
     (linkedin_accounts d) (linkedin_connections d).

Definition set_activity_logs (f : list ActivityLogData.t → list ActivityLogData.t) (d : t) : t :=
  mk (linkedin_settings d) (daily_usage d) (pending_jobs d) (row_seq d)
     (f (activity_logs d)) (profiles d) (linkedin_campaigns d)
     (linkedin_accounts d) (linkedin_connections d).

Definition set_linkedin_campaigns (f : gmap string Campaign.t → gmap string Campaign.t) (d : t) : t :=
  mk (linkedin_settings d) (daily_usage d) (pending_jobs d) (row_seq d)
     (activity_logs d) (profiles d) (f (linkedin_campaigns d))
     (linkedin_accounts d) (linkedin_connections d).

Definition set_linkedin_connections (f : list LinkedInConnection.t → list LinkedInConnection.t) (d : t) : t :=
  mk (linkedin_settings d) (daily_usage d) (pending_jobs d) (row_seq d)
     (activity_logs d) (profiles d) (linkedin_campaigns d)
     (linkedin_accounts d) (f (linkedin_connections d)).
End Db.

(** ** Chrome, as Puppeteer shows it *)

(** A [Browser] or a [Page] object is a handle: its position in the list of
    all the browsers, or pages, launched so far. *)
Module PageState.
Record t := mk { browser : nat; closed : bool; url : string }.

Definition close (p : t) : t := mk (browser p) true (url p).
Definition navigate (to : string) (p : t) : t := mk (browser p) (closed p) to.
End PageState.

Module BrowserSessionInfo.
Record t := mk {
  browser : nat;
  page : nat;
  isLoggedIn : bool;
  createdAt : Z;
  lastActivity : Z;
  userId : string;
  sessionId : string
}.

(** [session.lastActivity = new Date()] *)
Definition touch (now : Z) (s : t) : t :=
  mk (browser s) (page s) (isLoggedIn s) (createdAt s) now (userId s)
     (sessionId s).
End BrowserSessionInfo.

(** ** The BullMQ queue *)

(** The fields of [JobData.data] that the code writes or reads. *)
Module Payload.
Record t := mk {
  importLimit : option Z;
  maxDurationMs : option Z;
  pendingJobId : option string;
  actionType : option ActionType.t;
  requestedCount : option Z
}.
End Payload.

Module JobData.
Record t := mk {
  userId : string;
  campaignId : string;
  jobType : JobType.t;
  data : option Payload.t
}.
End JobData.

Module JobState.
Inductive t := waiting | active | completed | failed.

#[global] Instance eq_dec : EqDecision t.
Proof. solve_decision. Defined.
End JobState.

Module Job.
Record t := mk {
  id : string;
  name : JobType.t;
  data : JobData.t;
  state : JobState.t;
  attemptsMade : Z
}.

Definition with_state (st : JobState.t) (j : t) : t :=
  mk (id j) (name j) (data j) st (attemptsMade j).

Definition with_attemptsMade (n : Z) (j : t) : t :=
  mk (id j) (name j) (data j) (state j) n.
End Job.

(** ** What LinkedIn shows *)

(** What the code reads of a person off a list of the page. *)
Module Person.
Record t := mk { url : string; name : string; headline : string; company : string }.

(** [{ ...person, url }] *)
Definition with_url (url : string) (p : t) : t := mk url (name p) (headline p) (company p).
End Person.

(** The lists of people the page shows, as the code gets to see them: the
    content of the page is LinkedIn's, and so is what the selectors of the
    code find in it. *)
Module LinkedIn.

(** [page.$('button[aria-label="Next"]')] and the button's [disabled]. *)
Inductive NextButton := absent | disabled | enabled.

(** An item of a list: the person [$$eval] reads off it, and what the
    lookups [processPersonConnection] makes for that person find:
    [li:has(a[href^=...])], [li[data-chameleon-result-urn*=...]], and in the
    item found the buttons [Follow] and [Invite]. *)
Record Card := mkCard {
  person : Person.t;
  byLink : bool;
  byUrn : bool;
  followBtn : bool;
  connectBtn : bool
}.

(** What one [$$eval] over the items of the list sees, and the state of the
    button [Next] under that list. *)
Record View := mkView { cards : list Card; nextBtn : NextButton }.

(** An empty list, and no button. *)
Definition nothing : View := mkView [] absent.

End LinkedIn.

(** ** The configuration *)

Module BrowserConfig.
(** [configService.get('browser')]; [launchBrowser] reads every field
    defensively, with [??] and [?.]. *)
Record t := mk {
  executablePath : option string;
  headless : option bool;
  width : option Z;
  height : option Z
}.
End BrowserConfig.

(** ** The world *)

Module World.
Record t := mk {
  (** [Date.now()] *)
  clock : Z;
  (** the outcomes of the external calls still to come *)
  faults : list (option Error.t);
  db : Db.t;
  browsers : list bool;              (* is the browser still connected *)
  pages : list PageState.t;
  (** [SessionService.sessions] *)
  sessions : gmap string BrowserSessionInfo.t;
  (** the armed [setTimeout]s of [SessionService]: when each fires, and
      the user whose session it will inspect *)
  timers : list (Z * string);
  (** the jobs of the queue [linkedin-automation], oldest first *)
  queue : list Job.t;
  queue_seq : nat;
  (** [configService.get('browser')] *)
  browserConfig : option BrowserConfig.t;
  (** [PuppeteerService.browser], the field of the one object Nest
      injects *)
  puppeteerBrowser : option nat;
  (** the lists LinkedIn will show, one for each time the code reads the
      items of a list; when they are used up the lists are empty *)
  linkedin : list LinkedIn.View
}.

Definition empty : t := mk 0 [] Db.empty [] [] ∅ [] [] 0 None None [].

Definition set_clock (f : Z → Z) (w : t) : t :=
  mk (f (clock w)) (faults w) (db w) (browsers w) (pages w) (sessions w)
     (timers w) (queue w) (queue_seq w) (browserConfig w) (puppeteerBrowser w)
     (linkedin w).
Definition set_faults (f : list (option Error.t) → list (option Error.t)) (w : t) : t :=
  mk (clock w) (f (faults w)) (db w) (browsers w) (pages w) (sessions w)
     (timers w) (queue w) (queue_seq w) (browserConfig w) (puppeteerBrowser w)
     (linkedin w).
Definition set_db (f : Db.t → Db.t) (w : t) : t :=
  mk (clock w) (faults w) (f (db w)) (browsers w) (pages w) (sessions w)
     (timers w) (queue w) (queue_seq w) (browserConfig w) (puppeteerBrowser w)
     (linkedin w).
Definition set_browsers (f : list bool → list bool) (w : t) : t :=
  mk (clock w) (faults w) (db w) (f (browsers w)) (pages w) (sessions w)
     (timers w) (queue w) (queue_seq w) (browserConfig w) (puppeteerBrowser w)
     (linkedin w).
Definition set_pages (f : list PageState.t → list PageState.t) (w : t) : t :=
  mk (clock w) (faults w) (db w) (browsers w) (f (pages w)) (sessions w)
     (timers w) (queue w) (queue_seq w) (browserConfig w) (puppeteerBrowser w)
     (linkedin w).
Definition set_sessions (f : gmap string BrowserSessionInfo.t → gmap string BrowserSessionInfo.t) (w : t) : t :=
  mk (clock w) (faults w) (db w) (browsers w) (pages w) (f (sessions w))
     (timers w) (queue w) (queue_seq w) (browserConfig w) (puppeteerBrowser w)
     (linkedin w).
Definition set_timers (f : list (Z * string) → list (Z * string)) (w : t) : t :=
  mk (clock w) (faults w) (db w) (browsers w) (pages w) (sessions w)
     (f (timers w)) (queue w) (queue_seq w) (browserConfig w)
     (puppeteerBrowser w) (linkedin w).
Definition set_queue (f : list Job.t → list Job.t) (w : t) : t :=
  mk (clock w) (faults w) (db w) (browsers w) (pages w) (sessions w)
     (timers w) (f (queue w)) (queue_seq w) (browserConfig w)
     (puppeteerBrowser w) (linkedin w).
Definition set_queue_seq (f : nat → nat) (w : t) : t :=
  mk (clock w) (faults w) (db w) (browsers w) (pages w) (sessions w)
     (timers w) (queue w) (f (queue_seq w)) (browserConfig w)
     (puppeteerBrowser w) (linkedin w).
Definition set_browserConfig (f : option BrowserConfig.t → option BrowserConfig.t) (w : t) : t :=
  mk (clock w) (faults w) (db w) (browsers w) (pages w) (sessions w)
     (timers w) (queue w) (queue_seq w) (f (browserConfig w))
     (puppeteerBrowser w) (linkedin w).
Definition set_puppeteerBrowser (f : option nat → option nat) (w : t) : t :=
  mk (clock w) (faults w) (db w) (browsers w) (pages w) (sessions w)
     (timers w) (queue w) (queue_seq w) (browserConfig w)
     (f (puppeteerBrowser w)) (linkedin w).
Definition set_linkedin (f : list LinkedIn.View → list LinkedIn.View) (w : t) : t :=
  mk (clock w) (faults w) (db w) (browsers w) (pages w) (sessions w)
     (timers w) (queue w) (queue_seq w) (browserConfig w) (puppeteerBrowser w)
     (f (linkedin w)).
End World.

(** ** The monad of [async] methods *)

Inductive Outcome (A : Type) :=
| Return (a : A)
| Throw (e : Error.t).
Arguments Return {A} a.
Arguments Throw {A} e.

Definition M (A : Type) : Type := World.t → Outcome A * World.t.

#[global] Instance M_ret : MRet M := λ A a w, (Return a, w).

#[global] Instance M_bind : MBind M := λ A B k m w,
  match m w with
  | (Return a, w') => k a w'
  | (Throw e, w') => (Throw e, w')
  end.

(** [throw e] *)
Definition throw {A} (e : Error.t) : M A := λ w, (Throw e, w).

(** [try { body } catch (error) { handler }] *)
Definition try_catch {A} (body : M A) (handler : Error.t → M A) : M A := λ w,
  match body w with
  | (Return a, w') => (Return a, w')
  | (Throw e, w') => handler e w'
  end.

Definition read {A} (f : World.t → A) : M A := λ w, (Return (f w), w).
Definition modify (f : World.t → World.t) : M unit := λ w, (Return (), f w).

(** An external call (to Postgres, Redis or Chrome): the environment decides
    whether it succeeds. *)
Definition external : M (option Error.t) := λ w,
  match World.faults w with
  | [] => (Return None, w)
  | o :: rest => (Return o, World.set_faults (λ _, rest) w)
  end.

(** An external call whose failure is a throw. *)
Definition external_or_throw : M unit :=
  o ← external;
  match o with
  | None => mret ()
  | Some e => throw e
  end.

(** [new Date().toISOString().split('T')[0]]: the UTC day of an instant. *)
Definition utc_day (ms : Z) : Z := ms `div` 86400000.

(** ** The Supabase client *)

(** The terminators of a query: the call settles with [{ data, error }] and
    does not throw. *)
Module Postgrest.

(** The [error] of [.single()] when the rows that match are not one. *)
Definition notOneRow : Error.t :=
  Error.mk "PostgrestError" "JSON object requested, multiple (or no) rows returned" "".

(** [.single()] on the rows that match *)
Definition single {A} (rows : Db.t → list A) : M (option A * option Error.t) :=
  error ← external;
  match error with
  | Some error => mret (None, Some error)
  | None =>
      rows ← read (λ w, rows (World.db w));
      match rows with
      | [row] => mret (Some row, None)
      | _ => mret (None, Some notOneRow)
      end
  end.

(** [.maybeSingle()]: no row is no error. *)
Definition maybeSingle {A} (rows : Db.t → list A) : M (option A * option Error.t) :=
  error ← external;
  match error with
  | Some error => mret (None, Some error)
  | None =>
      rows ← read (λ w, rows (World.db w));
      match rows with
      | [] => mret (None, None)
      | [row] => mret (Some row, None)
      | _ => mret (None, Some notOneRow)
      end
  end.

End Postgrest.

(** ** SupabaseService (database/supabase.service.ts) *)

Module SupabaseService.
(** Appends to [activity_logs]; a failed insert is logged to the console and
    swallowed, so the method never throws. *)
Definition logActivity (activityData : ActivityLogData.t) : M unit :=
  error ← external;
  match error with
  | Some _ => mret ()
  | None => modify (World.set_db (Db.set_activity_logs (λ l, l ++ [activityData])))
  end.

(** [if (error) throw error; return data]: the table is keyed by [id]. *)
Definition getCampaign (campaignId : string) : M (option Campaign.t) :=
  '(data, error) ← Postgrest.single
     (λ d, option_list (Db.linkedin_campaigns d !! campaignId));
  match error with
  | Some error => throw error
  | None => mret data
  end.

(** The same on [linkedin_accounts], by [user_id]. *)
Definition getLinkedInAccount (userId : string) : M (option LinkedInAccount.t) :=
  '(data, error) ← Postgrest.single
     (λ d, option_list (Db.linkedin_accounts d !! userId));
  match error with
  | Some error => throw error
  | None => mret data
  end.
End SupabaseService.

(** ** LinkedInSettingsService (linkedin/settings.service.ts) *)

Module LinkedInSettingsService.

Definition defaultSettings : LinkedInSettings.t :=
  {| LinkedInSettings.max_connections_per_day := 30;
     LinkedInSettings.max_message_per_day := 50;
     LinkedInSettings.total_visits_per_day := 100;
     LinkedInSettings.max_inmails_per_day := 0 |}.

(** [.eq('user_id', userId)] on [linkedin_settings] *)
Definition settingsOf (userId : string) (d : Db.t) : list LinkedInSettings.t :=
  (filter (λ row, row.1 = userId) (Db.linkedin_settings d)).*2.

(** [if (error || !settings)]: when the read fails or does not find one
    row, the defaults are inserted and returned; a failed insert is logged
    and the defaults are returned all the same. *)
Definition loadLinkedInSettings (userId : string) : M LinkedInSettings.t :=
  '(settings, error) ← Postgrest.single (settingsOf userId);
  match error, settings with
  | None, Some settings => mret settings
  | _, _ =>
      insertError ← external;
      match insertError with
      | Some _ => mret defaultSettings
      | None =>
          modify (World.set_db (Db.set_linkedin_settings
            (λ rows, rows ++ [(userId, defaultSettings)])));;
          mret defaultSettings
      end
  end.

(** [if (error || !usage)]: when the read fails or does not find one row,
    the usage is zero. *)
Definition getDailyUsage (userId : string) (date : option Z) : M DailyUsage.t :=
  now ← read World.clock;
  let targetDate := default (utc_day now) date in
  '(usage, error) ← Postgrest.single
     (λ d, option_list (Db.daily_usage d !! (userId, targetDate)));
  match error, usage with
  | None, Some usage => mret usage
  | _, _ =>
      mret {| DailyUsage.connections := 0; DailyUsage.messages := 0;
              DailyUsage.visits := 0; DailyUsage.inmails := 0;
              DailyUsage.date := targetDate |}
  end.

Definition getRemainingQuotas (userId : string) : M QuotaInfo.t :=
  settings ← loadLinkedInSettings userId;
  usage ← getDailyUsage userId None;
  mret {|
    QuotaInfo.remainingConnections :=
      Z.max 0 (LinkedInSettings.max_connections_per_day settings - DailyUsage.connections usage);
    QuotaInfo.remainingMessages :=
      Z.max 0 (LinkedInSettings.max_message_per_day settings - DailyUsage.messages usage);
    QuotaInfo.remainingVisits :=
      Z.max 0 (LinkedInSettings.total_visits_per_day settings - DailyUsage.visits usage);
    QuotaInfo.remainingInmails :=
      Z.max 0 (LinkedInSettings.max_inmails_per_day settings - DailyUsage.inmails usage)
  |}.

(** [requestedCount: number = 1]: an omitted argument is [None].  The
    [default:] arm of the [switch] has no counterpart: [actionType] has the
    four values of its type. *)
Definition hasRemainingQuota (userId : string) (actionType : ActionType.t)
    (requestedCount : option Z) : M bool :=
  let requestedCount := default 1 requestedCount in
  quotas ← getRemainingQuotas userId;
  match actionType with
  | ActionType.connections => mret (QuotaInfo.remainingConnections quotas >=? requestedCount)
  | ActionType.messages => mret (QuotaInfo.remainingMessages quotas >=? requestedCount)
  | ActionType.visits => mret (QuotaInfo.remainingVisits quotas >=? requestedCount)
  | ActionType.inmails => mret (QuotaInfo.remainingInmails quotas >=? requestedCount)
  end.

Definition getMaxActionsForRun (userId : string) (actionType : ActionType.t)
    (requestedCount : Z) : M Z :=
  quotas ← getRemainingQuotas userId;
  let availableQuota :=
    match actionType with
    | ActionType.connections => QuotaInfo.remainingConnections quotas
    | ActionType.messages => QuotaInfo.remainingMessages quotas
    | ActionType.visits => QuotaInfo.remainingVisits quotas
    | ActionType.inmails => QuotaInfo.remainingInmails quotas
    end in
  mret (Z.min requestedCount availableQuota).

(** Its reads and their effects, without the console output. *)
Definition logUsageAndLimits (userId : string) : M unit :=
  _ ← loadLinkedInSettings userId;
  _ ← getDailyUsage userId None;
  _ ← getRemainingQuotas userId;
  mret ().

(** The store names the new row. *)
Definition createPendingJob (userId campaignId : string) (jobType : JobType.t)
    (actionType : ActionType.t) (requestedCount : Z) : M unit :=
  error ← external;
  match error with
  | Some _ => throw (Error.mk "Error" "Failed to create pending job" "")
  | None =>
      now ← read World.clock;
      seq ← read (λ w, Db.row_seq (World.db w));
      modify (World.set_db (λ d,
        Db.set_row_seq S (Db.set_pending_jobs (λ rows, rows ++ [
          {| PendingJob.id := pretty seq;
             PendingJob.user_id := userId;
             PendingJob.campaign_id := campaignId;
             PendingJob.job_type := jobType;
             PendingJob.action_type := actionType;
             PendingJob.requested_count := requestedCount;
             PendingJob.retry_count := 0;
             PendingJob.max_retries := 3;
             PendingJob.created_at := now |}]) d)))
  end.

(** [.order('created_at', { ascending: true })] *)
Definition created_before (a b : PendingJob.t) : Prop :=
  PendingJob.created_at a ≤ PendingJob.created_at b.

#[global] Instance created_before_dec a b : Decision (created_before a b).
Proof. unfold created_before. apply _. Defined.

(** [.lte('retry_count', 3)] *)
Definition processable (j : PendingJob.t) : Prop := PendingJob.retry_count j ≤ 3.

#[global] Instance processable_dec j : Decision (processable j).
Proof. unfold processable. apply _. Defined.

Definition getProcessablePendingJobs : M (list PendingJob.t) :=
  error ← external;
  match error with
  | Some _ => mret []
  | None =>
      rows ← read (λ w, Db.pending_jobs (World.db w));
      mret (merge_sort created_before (filter processable rows))
  end.

Definition completePendingJob (jobId : string) : M unit :=
  error ← external;
  match error with
  | Some _ => mret ()
  | None =>
      modify (World.set_db (Db.set_pending_jobs
        (filter (λ j, PendingJob.id j ≠ jobId))))
  end.

Definition cleanupOldPendingJobs : M unit :=
  now ← read World.clock;
  let threeDaysAgo := now - 3 * 24 * 60 * 60 * 1000 in
  error ← external;
  match error with
  | Some _ => mret ()
  | None =>
      modify (World.set_db (Db.set_pending_jobs
        (filter (λ j, ¬ PendingJob.created_at j < threeDaysAgo))))
  end.

(** The limits in force for a user, and what the user has used today: what
    [loadLinkedInSettings] and [getDailyUsage] hand back in a given world
    when the store answers their reads. *)
Definition limits (w : World.t) (userId : string) : LinkedInSettings.t :=
  match settingsOf userId (World.db w) with
  | [settings] => settings
  | _ => defaultSettings
  end.

Definition usageToday (w : World.t) (userId : string) : DailyUsage.t :=
  default (DailyUsage.mk 0 0 0 0 (utc_day (World.clock w)))
    (Db.daily_usage (World.db w) !! (userId, utc_day (World.clock w))).

Definition limit_of (k : ActionType.t) (s : LinkedInSettings.t) : Z :=
  match k with
  | ActionType.connections => LinkedInSettings.max_connections_per_day s
  | ActionType.messages => LinkedInSettings.max_message_per_day s
  | ActionType.visits => LinkedInSettings.total_visits_per_day s
  | ActionType.inmails => LinkedInSettings.max_inmails_per_day s
  end.

Definition used_of (k : ActionType.t) (u : DailyUsage.t) : Z :=
  match k with
  | ActionType.connections => DailyUsage.connections u
  | ActionType.messages => DailyUsage.messages u
  | ActionType.visits => DailyUsage.visits u
  | ActionType.inmails => DailyUsage.inmails u
  end.

Definition remaining_of (k : ActionType.t) (q : QuotaInfo.t) : Z :=
  match k with
  | ActionType.connections => QuotaInfo.remainingConnections q
  | ActionType.messages => QuotaInfo.remainingMessages q
  | ActionType.visits => QuotaInfo.remainingVisits q
  | ActionType.inmails => QuotaInfo.remainingInmails q
  end.

(** The remaining quota of a resource: the limit less today's usage,
    clamped at zero. *)
Definition remaining (w : World.t) (userId : string) (k : ActionType.t) : Z :=
  Z.max 0 (limit_of k (limits w userId) - used_of k (usageToday w userId)).

End LinkedInSettingsService.

(** ** Puppeteer *)

(** The calls the services make on a [Browser] or a [Page]. *)
Module Puppeteer.

(** [page.goto(url, ...)]: the page lands on the address asked for. *)
Definition goto (page : nat) (url : string) : M unit :=
  external_or_throw;;
  modify (World.set_pages (alter (PageState.navigate url) page)).

(** The image formats of [ScreenshotOptions.type]. *)
Inductive ImageType := png | jpeg | webp.

(** The error of [page.screenshot] for a [quality] with a format that has
    none.  Puppeteer words it after its version; this is the wording of the
    current one. *)
Definition pngQualityError : Error.t :=
  Error.mk "Error" "png screenshots do not support 'quality'." "".

(** [page.screenshot({ type, quality, ... })]: Puppeteer checks the options
    before it asks Chrome for the image, and refuses a [quality] for a
    [png], which is also the format when none is given. *)
Definition screenshot (page : nat) (type : option ImageType) (quality : option Z) : M unit :=
  match quality, type with
  | Some _, (None | Some png) => throw pngQualityError
  | _, _ => external_or_throw
  end.

(** [browser.close()]: the browser is gone, and its pages with it. *)
Definition close (browser : nat) : M unit :=
  external_or_throw;;
  modify (World.set_browsers <[browser := false]>);;
  modify (World.set_pages (fmap (λ p,
    if decide (PageState.browser p = browser) then PageState.close p else p))).

(** [page.isClosed()] *)
Definition isClosed (page : nat) : M bool :=
  read (λ w, from_option PageState.closed true (World.pages w !! page)).

(** [page.url()] *)
Definition url (page : nat) : M string :=
  read (λ w, from_option PageState.url "" (World.pages w !! page)).

(** Any other awaited call on a page or on an element of a page
    ([waitForSelector], [$], [$$eval], [evaluate], [click], [type]): Chrome
    does it, or the call throws. *)
Definition command : M unit := external_or_throw.

End Puppeteer.

(** ** PuppeteerService (browser/puppeteer.service.ts) *)

Module Browser.
Module PuppeteerService.

(** The object: what [configService.get('browser')] answers, and
    [this.browser]. *)
Record t := mk {
  config : option BrowserConfig.t;
  browser : option nat
}.

Record LaunchOptions := mkLaunchOptions {
  headless : bool;
  executablePath : option string;
  viewportWidth : Z;
  viewportHeight : Z
}.

Definition browserOptions (config : BrowserConfig.t) : LaunchOptions :=
  {| headless := default true (BrowserConfig.headless config);
     executablePath := BrowserConfig.executablePath config;
     viewportWidth := default 1920 (BrowserConfig.width config);
     viewportHeight := default 1080 (BrowserConfig.height config) |}.

(** [puppeteer.launch(browserOptions)] *)
Definition launch (options : LaunchOptions) : M nat :=
  external_or_throw;;
  browser ← read (λ w, length (World.browsers w));
  modify (World.set_browsers (λ l, l ++ [true]));;
  mret browser.

(** [browser.newPage()] *)
Definition newPage (browser : nat) : M nat :=
  external_or_throw;;
  page ← read (λ w, length (World.pages w));
  modify (World.set_pages (λ l, l ++ [PageState.mk browser false "about:blank"]));;
  mret page.

(** [page.setUserAgent(...)] *)
Definition setUserAgent (page : nat) (userAgent : string) : M unit := external_or_throw.

(** Returns the browser and the object with [this.browser] set to it. *)
Definition launchBrowser (self : t) : M (nat * t) :=
  try_catch
    (match config self with
     | None => throw (Error.mk "Error" "Browser configuration not found" "")
     | Some config =>
         launched ← launch (browserOptions config);
         mret (launched, mk (Some config) (Some launched))
     end)
    (λ error, throw error).

(** [browser || this.browser]: a [Browser] object is truthy. *)
Definition createPage (self : t) (browser : option nat) : M nat :=
  try_catch
    (let targetBrowser :=
       match browser with
       | Some browser => Some browser
       | None => PuppeteerService.browser self
       end in
     match targetBrowser with
     | None => throw (Error.mk "Error" "No browser instance available" "")
     | Some targetBrowser =>
         page ← newPage targetBrowser;
         setUserAgent page
           "Mozilla/5.0 (Macintosh; Intel Mac OS X 10_15_7) AppleWebKit/537.36 (KHTML, like Gecko) Chrome/120.0.0.0 Safari/537.36";;
         mret page
     end)
    (λ error, throw error).

(** Returns the object as the call leaves it. *)
Definition closeBrowser (self : t) : M t :=
  try_catch
    (match PuppeteerService.browser self with
     | Some browser =>
         Puppeteer.close browser;;
         mret (mk (config self) None)
     | None => mret self
     end)
    (λ _, mret self).

Definition getBrowser (self : t) : option nat := PuppeteerService.browser self.

End PuppeteerService.
End Browser.

(** ** SessionService (browser/session.service.ts) *)

Module SessionService.

(** [20 * 60 * 1000] *)
Definition timeoutMs : Z := 20 * 60 * 1000.

(** [this.puppeteerService]: the object Nest injects, one for the whole
    application. *)
Definition puppeteerService : M Browser.PuppeteerService.t :=
  read (λ w, Browser.PuppeteerService.mk (World.browserConfig w) (World.puppeteerBrowser w)).

(** [this.puppeteerService.launchBrowser()], the object keeping what the
    call assigns to its field. *)
Definition launchBrowser : M nat :=
  self ← puppeteerService;
  '(browser, self) ← Browser.PuppeteerService.launchBrowser self;
  modify (World.set_puppeteerBrowser (λ _, Browser.PuppeteerService.browser self));;
  mret browser.

(** [this.puppeteerService.createPage(browser)] *)
Definition createPage (browser : nat) : M nat :=
  self ← puppeteerService;
  Browser.PuppeteerService.createPage self (Some browser).

(** Lines 30-36 of [createSession]: the awaited calls that bring up Chrome,
    before the session object exists. *)
Definition openLoginPage : M (nat * nat) :=
  browser ← launchBrowser;
  page ← createPage browser;
  Puppeteer.goto page "https://www.linkedin.com/login";;
  mret (browser, page).

(** Lines 38-62 of [createSession]: the session object is built and stored,
    then the first screenshot is asked for, of type [png] with a [quality],
    and after it the cleanup timer is armed. *)
Definition registerSession (userId : string) (browser page : nat) : M BrowserSessionInfo.t :=
  now ← read World.clock;
  let sessionId := userId +:+ "_" +:+ pretty now in
  let sessionInfo :=
    {| BrowserSessionInfo.browser := browser;
       BrowserSessionInfo.page := page;
       BrowserSessionInfo.isLoggedIn := false;
       BrowserSessionInfo.createdAt := now;
       BrowserSessionInfo.lastActivity := now;
       BrowserSessionInfo.userId := userId;
       BrowserSessionInfo.sessionId := sessionId |} in
  modify (World.set_sessions <[userId := sessionInfo]>);;
  Puppeteer.screenshot page (Some Puppeteer.png) (Some 100);;
  now ← read World.clock;
  modify (World.set_timers (λ l, l ++ [(now + 20 * 60 * 1000, userId)]));;
  mret sessionInfo.

Definition createSession (userId : string) : M BrowserSessionInfo.t :=
  try_catch
    ('(browser, page) ← openLoginPage;
     registerSession userId browser page)
    (λ error, throw error).

(** The session object is shared with the map: the caller gets it with the
    new [lastActivity]. *)
Definition getSession (userId : string) : M (option BrowserSessionInfo.t) :=
  session ← read (λ w, World.sessions w !! userId);
  match session with
  | Some session =>
      now ← read World.clock;
      let session := BrowserSessionInfo.touch now session in
      modify (World.set_sessions <[userId := session]>);;
      mret (Some session)
  | None => mret None
  end.

Definition getOrCreateSession (userId : string) : M BrowserSessionInfo.t :=
  session ← getSession userId;
  match session with
  | None => createSession userId
  | Some session => mret session
  end.

Definition updateSessionActivity (userId : string) : M unit :=
  session ← read (λ w, World.sessions w !! userId);
  match session with
  | Some session =>
      now ← read World.clock;
      modify (World.set_sessions <[userId := BrowserSessionInfo.touch now session]>)
  | None => mret ()
  end.

(** [true] stands for the [Buffer], [false] for [null]. *)
Definition captureScreenshot (userId : string) : M bool :=
  session ← read (λ w, World.sessions w !! userId);
  match session with
  | None => mret false
  | Some session =>
      try_catch
        (updateSessionActivity userId;;
         Puppeteer.screenshot (BrowserSessionInfo.page session)
           (Some Puppeteer.png) (Some 100);;
         mret true)
        (λ _, mret false)
  end.

(** [handleMouseEvent] and [handleKeyboardEvent]: [known] tells whether
    [event.type] is one of the two the [switch] handles. *)
Definition handleInputEvent (userId : string) (known : bool) : M unit :=
  session ← read (λ w, World.sessions w !! userId);
  match session with
  | None => mret ()
  | Some session =>
      try_catch
        (updateSessionActivity userId;;
         if known then external_or_throw else mret ())
        (λ _, mret ())
  end.

Definition closeSession (userId : string) : M unit :=
  session ← read (λ w, World.sessions w !! userId);
  match session with
  | Some session =>
      try_catch
        (Puppeteer.close (BrowserSessionInfo.browser session);;
         modify (World.set_sessions (delete userId)))
        (λ _, mret ())
  | None => mret ()
  end.

Definition cleanupSession (userId : string) : M unit :=
  session ← read (λ w, World.sessions w !! userId);
  match session with
  | None => mret ()
  | Some session =>
      now ← read World.clock;
      let isExpired :=
        bool_decide (now - BrowserSessionInfo.lastActivity session > timeoutMs) in
      if isExpired then closeSession userId
      else modify (World.set_timers (λ l, l ++ [(now + timeoutMs, userId)]))
  end.

End SessionService.

(** ** LinkedInAutomationService (linkedin/automation.service.ts) *)

Module LinkedInAutomationService.

(** The argument of [runFn]. *)
Record RunArgs := mkRunArgs {
  browser : nat;
  page : nat;
  campaign : Campaign.t;
  accountData : LinkedInAccount.t
}.

(** The three activity records of [runWithLogin]. *)
Definition startedRecord (campaign : Campaign.t) (currentUrl : string) : ActivityLogData.t :=
  {| ActivityLogData.user_id := Campaign.user_id campaign;
     ActivityLogData.campaign_id := Campaign.id campaign;
     ActivityLogData.job_type := "automation";
     ActivityLogData.log_level := LogLevel.info;
     ActivityLogData.message := "LinkedIn automation session started";
     ActivityLogData.context := Some (JObj [("url", JStr currentUrl)]) |}.

Definition completedRecord (campaign : Campaign.t) : ActivityLogData.t :=
  {| ActivityLogData.user_id := Campaign.user_id campaign;
     ActivityLogData.campaign_id := Campaign.id campaign;
     ActivityLogData.job_type := "automation";
     ActivityLogData.log_level := LogLevel.info;
     ActivityLogData.message := "LinkedIn automation completed successfully";
     ActivityLogData.context := None |}.

Definition failedRecord (campaign : Campaign.t) (error : Error.t) : ActivityLogData.t :=
  {| ActivityLogData.user_id := Campaign.user_id campaign;
     ActivityLogData.campaign_id := Campaign.id campaign;
     ActivityLogData.job_type := "automation";
     ActivityLogData.log_level := LogLevel.error;
     ActivityLogData.message := "LinkedIn automation failed: " +:+ Error.message error;
     ActivityLogData.context :=
       Some (JObj [("error", JObj [("name", JStr (Error.name error));
                                   ("message", JStr (Error.message error));
                                   ("stack", JStr (Error.stack error))])]) |}.

(** Lines 37-52: the session of the user, reused or made, and made again
    when its page is closed.  A [Browser] and a [Page] object are truthy, so
    the health check is [page.isClosed()]. *)
Definition acquireSession (userId : string) : M BrowserSessionInfo.t :=
  session ← SessionService.getSession userId;
  session ← match session with
            | None => SessionService.createSession userId
            | Some session =>
                SessionService.updateSessionActivity userId;;
                mret session
            end;
  closed ← Puppeteer.isClosed (BrowserSessionInfo.page session);
  if closed : bool then
    SessionService.closeSession userId;;
    SessionService.createSession userId
  else mret session.

(** [isLoggedIn] only chooses a console message and is left out. *)
Definition runWithLogin {T} (campaign : Campaign.t) (accountData : LinkedInAccount.t)
    (runFn : RunArgs → M T) : M T :=
  let userId := Campaign.user_id campaign in
  try_catch
    (session ← acquireSession userId;
     currentUrl ← Puppeteer.url (BrowserSessionInfo.page session);
     SupabaseService.logActivity (startedRecord campaign currentUrl);;
     result ← runFn {| browser := BrowserSessionInfo.browser session;
                       page := BrowserSessionInfo.page session;
                       campaign := campaign;
                       accountData := accountData |};
     SupabaseService.logActivity (completedRecord campaign);;
     mret result)
    (λ error,
       SupabaseService.logActivity (failedRecord campaign error);;
       throw error).

Definition hasActiveSession (userId : string) : M bool :=
  session ← SessionService.getSession userId;
  mret (bool_decide (session ≠ None)).

Definition getSessionInfo (userId : string) : M (option BrowserSessionInfo.t) :=
  SessionService.getSession userId.

Definition closeSession (userId : string) : M unit :=
  SessionService.closeSession userId.

(** [url.includes(part)] *)
Definition includes (url part : string) : bool :=
  match String.index 0 part url with
  | Some _ => true
  | None => false
  end.

(** Tells whether the address is one LinkedIn shows after a login; the
    session is read, and so touched, and is not written otherwise. *)
Definition handlePageNavigation (userId url : string) : M bool :=
  session ← SessionService.getSession userId;
  match session with
  | None => mret false
  | Some _ =>
      if includes url "/feed" || includes url "/mynetwork" || includes url "/jobs"
      then mret true
      else mret false
  end.

End LinkedInAutomationService.

(** ** BaseProcessor (jobs/processors/base.processor.ts) *)

Module BaseProcessor.

(** The [catch] logs and rethrows. *)
Definition getCampaign (campaignId : string) : M Campaign.t :=
  try_catch
    (campaign ← SupabaseService.getCampaign campaignId;
     match campaign with
     | None => throw (Error.mk "Error" ("Campaign " +:+ campaignId +:+ " not found") "")
     | Some campaign => mret campaign
     end)
    (λ error, throw error).

Definition getLinkedInAccount (userId : string) : M LinkedInAccount.t :=
  try_catch
    (account ← SupabaseService.getLinkedInAccount userId;
     match account with
     | None =>
         throw (Error.mk "Error" ("LinkedIn account not found for user " +:+ userId) "")
     | Some account => mret account
     end)
    (λ error, throw error).

(** [if (profile.error || !profile.data) return false], then
    [daysSinceCreation <= 7], the days being milliseconds over
    [1000 * 60 * 60 * 24]; the [catch] answers [false]. *)
Definition checkTrialStatus (userId : string) : M bool :=
  try_catch
    ('(data, error) ← Postgrest.single (λ d, option_list (Db.profiles d !! userId));
     match error, data with
     | None, Some createdAt =>
         now ← read World.clock;
         mret (bool_decide (now - createdAt ≤ 7 * (1000 * 60 * 60 * 24)))
     | _, _ => mret false
     end)
    (λ _, mret false).

Definition isCampaignActive (campaign : Campaign.t) : bool :=
  bool_decide (Campaign.status campaign = Some CampaignStatus.active).

Definition logActivity (userId campaignId jobType : string) (logLevel : LogLevel.t)
    (message : string) (context : option Json) : M unit :=
  try_catch
    (SupabaseService.logActivity
       {| ActivityLogData.user_id := userId;
          ActivityLogData.campaign_id := campaignId;
          ActivityLogData.job_type := jobType;
          ActivityLogData.log_level := logLevel;
          ActivityLogData.message := message;
          ActivityLogData.context := context |})
    (λ _, mret ()).

(** [this.delay(ms)]: the time passes. *)
Definition delay (ms : Z) : M unit := modify (World.set_clock (λ now, now + ms)).

Definition handleJobError (job : Job.t) (error : Error.t) : M unit :=
  let data := Job.data job in
  logActivity (JobData.userId data) (JobData.campaignId data)
    (JobType.to_string (JobData.jobType data)) LogLevel.error
    ("Job failed: " +:+ Error.message error)
    (Some (JObj [("error", JStr (Error.stack error)); ("jobId", JStr (Job.id job))])).

End BaseProcessor.

(** [for (const x of xs) { await body(x) }] *)
Definition for_each {A} (xs : list A) (body : A → M unit) : M unit :=
  foldr (λ x rest, body x;; rest) (mret ()) xs.

(** [value || fallback] on a number that may be missing: [undefined] and [0]
    are falsy. *)
Definition or_else (value : option Z) (fallback : Z) : Z :=
  match value with
  | Some n => if decide (n = 0) then fallback else n
  | None => fallback
  end.

(** [Array.from(new Set(xs))]: the values in the order they first occur. *)
Fixpoint from_set `{EqDecision A} (xs : list A) : list A :=
  match xs with
  | [] => []
  | x :: xs => x :: filter (λ y, y ≠ x) (from_set xs)
  end.

(** ** JavaScript strings *)

(** The methods of [String] the processor uses.  A string is the sequence
    of its bytes; the white space is that of ASCII. *)
Module Js.

Fixpoint trimStart (s : string) : string :=
  match s with
  | String c rest => if Ascii.is_space c then trimStart rest else s
  | EmptyString => EmptyString
  end.

(** [s.trim()] *)
Definition trim (s : string) : string :=
  String.rev (trimStart (String.rev (trimStart s))).

Fixpoint dropSlashes (s : string) : string :=
  match s with
  | String "/"%char rest => dropSlashes rest
  | _ => s
  end.

(** [s.replace(/\/+$/g, '')] *)
Definition stripTrailingSlashes (s : string) : string :=
  String.rev (dropSlashes (String.rev s)).

(** [s.endsWith('/') ? s.slice(0, -1) : s] *)
Definition chopSlash (s : string) : string :=
  match String.rev s with
  | String "/"%char rest => String.rev rest
  | _ => s
  end.

(** [!s.split('/').pop()]: nothing follows the last slash. *)
Definition lastSegmentEmpty (s : string) : bool :=
  match String.rev s with
  | EmptyString => true
  | String "/"%char _ => true
  | _ => false
  end.

(** [s.split(sep)[0]], for a separator that is not empty *)
Definition before (sep s : string) : string :=
  match String.index 0 sep s with
  | Some i => String.substring 0 i s
  | None => s
  end.

(** [s.split(' ').slice(1).join(' ')] *)
Definition afterFirstSpace (s : string) : string :=
  match String.index 0 " " s with
  | Some i => String.substring (S i) (String.length s) s
  | None => ""
  end.

(** [s.trim().split(/\s+/).slice(0, 2).join(' ')] *)
Definition firstTwoWords (s : string) : string :=
  String.concat " " (take 2 (String.words s)).

Definition isDigit (c : ascii) : bool := bool_decide (is_Some (Ascii.is_nat c)).

Fixpoint digits (s : string) : string :=
  match s with
  | String c rest => if isDigit c then String c (digits rest) else EmptyString
  | EmptyString => EmptyString
  end.

Fixpoint stripPrefix (prefix s : string) : option string :=
  match prefix, s with
  | EmptyString, _ => Some s
  | String a prefix, String b s => if decide (a = b) then stripPrefix prefix s else None
  | String _ _, EmptyString => None
  end.

(** [s.match(/marker(\d+)/)?.[1]]: the digits of the first place where the
    marker is followed by one. *)
Fixpoint digitsAfter (marker s : string) : option string :=
  match s with
  | EmptyString => None
  | String _ rest =>
      match stripPrefix marker s with
      | Some tail =>
          if decide (digits tail = EmptyString) then digitsAfter marker rest
          else Some (digits tail)
      | None => digitsAfter marker rest
      end
  end.

(** The characters [encodeURIComponent] leaves as they are. *)
Definition unreserved (c : ascii) : bool :=
  let n := Ascii.N_of_ascii c in
  ((65 <=? n) && (n <=? 90) || (97 <=? n) && (n <=? 122) || (48 <=? n) && (n <=? 57)
   || bool_decide (c ∈ ["-"; "_"; "."; "!"; "~"; "*"; "'"; "("; ")"]%char))%N.

Definition hexDigit (n : N) : ascii :=
  match n with
  | 0 => "0" | 1 => "1" | 2 => "2" | 3 => "3" | 4 => "4" | 5 => "5" | 6 => "6"
  | 7 => "7" | 8 => "8" | 9 => "9" | 10 => "A" | 11 => "B" | 12 => "C"
  | 13 => "D" | 14 => "E" | _ => "F"
  end%N%char.

Fixpoint encodeURIComponent (s : string) : string :=
  match s with
  | EmptyString => EmptyString
  | String c rest =>
      if unreserved c then String c (encodeURIComponent rest)
      else
        let n := Ascii.N_of_ascii c in
        String "%"%char (String (hexDigit (n / 16)%N) (String (hexDigit (n mod 16)%N)
          (encodeURIComponent rest)))
  end.

(** The double quote *)
Definition quote : string := String "034"%char EmptyString.

End Js.

(** ** FollowRequestProcessor (jobs/processors/follow-request.processor.ts) *)

Module FollowRequestProcessor.

(** [page.$$eval(selector, ...)] over the items of a list: Chrome runs the
    script on what LinkedIn shows at that time. *)
Definition listItems (page : nat) : M LinkedIn.View :=
  Puppeteer.command;;
  views ← read World.linkedin;
  modify (World.set_linkedin (drop 1));;
  mret (default LinkedIn.nothing (head views)).

Definition extractPeopleFromSearchResults (page : nat) : M LinkedIn.View := listItems page.

Definition extractReactorsFromPage (page : nat) : M LinkedIn.View := listItems page.

Definition extractCommentersFromPage (page : nat) : M LinkedIn.View :=
  extractReactorsFromPage page.

(** The result of the update is not looked at. *)
Definition updateCampaignProcessedCount (campaignId : string) (count : Z) : M unit :=
  error ← external;
  match error with
  | Some _ => mret ()
  | None =>
      modify (World.set_db (Db.set_linkedin_campaigns
        (alter (Campaign.with_processed_profiles count) campaignId)))
  end.

(** The row [processPersonConnection] inserts; the store names it. *)
Definition connectionRow (campaign : Campaign.t) (person : Person.t) (id : string)
    (now : Z) : LinkedInConnection.t :=
  {| LinkedInConnection.id := id;
     LinkedInConnection.campaign_id := Campaign.id campaign;
     LinkedInConnection.profile_url := Person.url person;
     LinkedInConnection.headline := Person.headline person;
     LinkedInConnection.current_company := Person.company person;
     LinkedInConnection.requested_at := now;
     LinkedInConnection.display_name := Person.name person;
     LinkedInConnection.first_name := Js.before " " (Person.name person);
     LinkedInConnection.last_name := Js.afterFirstSpace (Person.name person);
     LinkedInConnection.status := ConnectionStatus.queued |}.

(** The result of the insert is not looked at. *)
Definition insertConnection (campaign : Campaign.t) (person : Person.t) : M unit :=
  now ← read World.clock;
  error ← external;
  match error with
  | Some _ => mret ()
  | None =>
      seq ← read (λ w, Db.row_seq (World.db w));
      modify (World.set_db (λ d,
        Db.set_row_seq S (Db.set_linkedin_connections
          (λ rows, rows ++ [connectionRow campaign person (pretty seq) now]) d)))
  end.

(** [.eq('profile_url', person.url).eq('campaign_id', campaign.id)] *)
Definition connectionsOf (campaign : Campaign.t) (person : Person.t) (d : Db.t)
    : list LinkedInConnection.t :=
  filter (λ row, LinkedInConnection.profile_url row = Person.url person
                 ∧ LinkedInConnection.campaign_id row = Campaign.id campaign)
    (Db.linkedin_connections d).

(** The branch of the [Invite] button: the click, then the dialog, with the
    note of the campaign when it has one.  What is typed into the dialog,
    [personalizeMessage(...)], goes to Chrome and is not part of the state. *)
Definition sendInvitation (campaign : Campaign.t) (connectionName : string) : M string :=
  let withoutNote :=
    "Your invitation without note has been sent to " +:+ connectionName +:+ "." in
  Puppeteer.command;;
  BaseProcessor.delay 5000;;
  actionMessage ←
    (if bool_decide (Campaign.connection_note campaign ≠ None
                     ∧ Campaign.connection_note campaign ≠ Some "")
     then
       try_catch
         (Puppeteer.command;;
          Puppeteer.command;;
          BaseProcessor.delay 5000;;
          Puppeteer.command;;
          Puppeteer.command;;
          Puppeteer.command;;
          mret ("Your invitation with note has been sent to " +:+ connectionName +:+ "."))
         (λ _, Puppeteer.command;; mret withoutNote)
     else
       Puppeteer.command;;
       mret withoutNote);
  BaseProcessor.delay 5000;;
  mret actionMessage.

(** [card] is the item of the list the lookups for [person] are made in. *)
Definition processPersonConnection (page : nat) (card : LinkedIn.Card)
    (person : Person.t) (campaign : Campaign.t) : M bool :=
  try_catch
    ('(existing, _) ← Postgrest.maybeSingle (connectionsOf campaign person);
     match existing with
     | Some _ => mret false
     | None =>
         let baseUrl := Person.url person in
         if Js.lastSegmentEmpty baseUrl then mret false
         else
           byLink ← (Puppeteer.command;; mret (LinkedIn.byLink card));
           liHandle ← (if byLink : bool then mret true
                       else Puppeteer.command;; mret (LinkedIn.byUrn card));
           if negb liHandle then mret false
           else
             Puppeteer.command;;
             Puppeteer.command;;
             let connectionName := Js.firstTwoWords (Person.name person) in
             actionMessage ←
               (if LinkedIn.followBtn card then
                  Puppeteer.command;;
                  BaseProcessor.delay 5000;;
                  mret (Some ("You have followed " +:+ connectionName +:+ "."))
                else if LinkedIn.connectBtn card then
                  actionMessage ← sendInvitation campaign connectionName;
                  mret (Some actionMessage)
                else mret None);
             match actionMessage with
             | None => mret false
             | Some actionMessage =>
                 insertConnection campaign person;;
                 BaseProcessor.logActivity (Campaign.user_id campaign) (Campaign.id campaign)
                   "followRequest" LogLevel.info actionMessage
                   (Some (JObj [("profile", JStr baseUrl)]));;
                 BaseProcessor.delay 5000;;
                 mret true
             end
     end)
    (λ error,
       BaseProcessor.logActivity (Campaign.user_id campaign) (Campaign.id campaign)
         "followRequest" LogLevel.error "Error processing profile of the contact"
         (Some (JObj [("error", JStr (Error.message error));
                      ("profile", JStr (Person.url person))]));;
       mret false).

(** The address of a search for people by name. *)
Definition searchUrl (keywords : string) : string :=
  "https://www.linkedin.com/search/results/people/?keywords="
  +:+ Js.encodeURIComponent keywords +:+ "&origin=SWITCH_SEARCH_VERTICAL".

Definition processPersonConnectionViaSearch (page : nat) (person : Person.t)
    (campaign : Campaign.t) : M bool :=
  try_catch
    (let targetUrl := Js.stripTrailingSlashes (Person.url person) in
     Puppeteer.goto page targetUrl;;
     BaseProcessor.delay 2000;;
     url ← Puppeteer.url page;
     let cleanUrl := Js.stripTrailingSlashes url in
     Puppeteer.goto page (searchUrl (Js.trim (Js.before "View" (Person.name person))));;
     BaseProcessor.delay 5000;;
     Puppeteer.command;;
     results ← listItems page;
     match list_find (λ card, Js.stripTrailingSlashes (Person.url (LinkedIn.person card))
                              = cleanUrl) (LinkedIn.cards results) with
     | None => mret false
     | Some (_, found) =>
         processPersonConnection page found
           (Person.with_url (Js.stripTrailingSlashes (Person.url (LinkedIn.person found)))
              person)
           campaign
     end)
    (λ _, mret false).

(** [.update({ status: 'sent', ... }).eq('id', id)]; the result is not
    looked at. *)
Definition markSent (id : string) : M unit :=
  now ← read World.clock;
  error ← external;
  match error with
  | Some _ => mret ()
  | None =>
      modify (World.set_db (Db.set_linkedin_connections (fmap (λ row,
        if decide (LinkedInConnection.id row = id)
        then LinkedInConnection.with_sent now row else row))))
  end.

Definition processCsvProfile (page : nat) (profile : LinkedInConnection.t)
    (campaign : Campaign.t) : M bool :=
  try_catch
    (let sanitizedUrl := Js.chopSlash (LinkedInConnection.profile_url profile) in
     Puppeteer.goto page (searchUrl (LinkedInConnection.display_name profile));;
     BaseProcessor.delay 5000;;
     Puppeteer.command;;
     people ← extractPeopleFromSearchResults page;
     match list_find (λ card, Person.url (LinkedIn.person card) = sanitizedUrl)
             (LinkedIn.cards people) with
     | None => mret false
     | Some (_, found) =>
         success ← processPersonConnection page found (LinkedIn.person found) campaign;
         (if success : bool then markSent (LinkedInConnection.id profile) else mret ());;
         mret success
     end)
    (λ _, mret false).

(** [view] is the list the page shows, with its button [Next]. *)
Definition goToNextPage (page : nat) (view : LinkedIn.View) : M bool :=
  try_catch
    (Puppeteer.command;;
     BaseProcessor.delay 2000;;
     Puppeteer.command;;
     match LinkedIn.nextBtn view with
     | LinkedIn.absent => mret false
     | LinkedIn.disabled => Puppeteer.command;; mret false
     | LinkedIn.enabled =>
         Puppeteer.command;;
         Puppeteer.command;;
         BaseProcessor.delay 1000;;
         mret true
     end)
    (λ _, mret false).

(** [for (const person of people) { if (followed >= importLimit || over)
    break; ... }], where [over] is the test on the time of the loop at hand;
    it returns the new [followed]. *)
Fixpoint connectEach (connect : LinkedIn.Card → M bool) (over : Z → bool)
    (campaign : Campaign.t) (importLimit : Z) (people : list LinkedIn.Card)
    (followed : Z) : M Z :=
  match people with
  | [] => mret followed
  | person :: people =>
      now ← read World.clock;
      if bool_decide (followed >= importLimit) || over now then mret followed
      else
        processed ← connect person;
        followed ← (if processed : bool then
                      updateCampaignProcessedCount (Campaign.id campaign) (followed + 1);;
                      mret (followed + 1)
                    else mret followed);
        connectEach connect over campaign importLimit people followed
  end.

(** The turns a [while] loop can take that goes on only while less than
    [maxDurationMs] has passed and waits [step] or more in every turn. *)
Definition turns (step maxDurationMs : Z) : nat := S (Z.to_nat (maxDurationMs `div` step)).

(** The [while] loop of [processSearchCampaign] and of
    [processEventCampaign], for [turns] turns at most: a turn that goes on has
    waited three seconds in [goToNextPage]. *)
Fixpoint pagesLoop (turns : nat) (page : nat) (campaign : Campaign.t)
    (importLimit maxDurationMs startTime followed : Z) : M Z :=
  match turns with
  | O => mret followed
  | S turns =>
      now ← read World.clock;
      if bool_decide (followed < Campaign.total_profiles campaign
                      ∧ followed < importLimit
                      ∧ now - startTime < maxDurationMs)
      then
        people ← extractPeopleFromSearchResults page;
        followed ← connectEach
          (λ card, processPersonConnection page card (LinkedIn.person card) campaign)
          (λ now, bool_decide (now - startTime > maxDurationMs))
          campaign importLimit (LinkedIn.cards people) followed;
        hasNext ← goToNextPage page people;
        if hasNext : bool
        then pagesLoop turns page campaign importLimit maxDurationMs startTime followed
        else mret followed
      else mret followed
  end.

Definition processSearchCampaign (page : nat) (campaign : Campaign.t)
    (followed importLimit maxDurationMs startTime : Z) : M Z :=
  Puppeteer.goto page (Campaign.linkedin_url campaign);;
  BaseProcessor.delay 5000;;
  Puppeteer.command;;
  pagesLoop (turns 3000 maxDurationMs) page campaign importLimit maxDurationMs
    startTime followed.

(** The [while] loop of [processReactionsCampaign] and of
    [processCommentsCampaign], for [turns] turns at most: every turn waits
    two seconds. *)
Fixpoint scrollLoop (turns : nat) (page : nat) (campaign : Campaign.t)
    (importLimit maxDurationMs startTime followed : Z) : M Z :=
  match turns with
  | O => mret followed
  | S turns =>
      now ← read World.clock;
      if bool_decide (followed < importLimit ∧ now - startTime < maxDurationMs)
      then
        Puppeteer.command;;
        BaseProcessor.delay 2000;;
        people ← extractReactorsFromPage page;
        followed ← connectEach
          (λ card, processPersonConnectionViaSearch page (LinkedIn.person card) campaign)
          (λ now, bool_decide (now - startTime >= maxDurationMs))
          campaign importLimit (LinkedIn.cards people) followed;
        scrollLoop turns page campaign importLimit maxDurationMs startTime followed
      else mret followed
  end.

(** [resultType] is [REACTIONS] or [COMMENTS]. *)
Definition processPostCampaign (resultType : string) (page : nat) (campaign : Campaign.t)
    (followed importLimit maxDurationMs startTime : Z) : M Z :=
  match Js.digitsAfter "activity-" (Campaign.linkedin_url campaign) with
  | None => throw (Error.mk "Error" "Post ID not found in campaign LinkedIn URL" "")
  | Some postId =>
      Puppeteer.goto page
        ("https://www.linkedin.com/analytics/post/urn:li:activity:" +:+ postId
         +:+ "/?resultType=" +:+ resultType);;
      BaseProcessor.delay 5000;;
      Puppeteer.command;;
      scrollLoop (turns 2000 maxDurationMs) page campaign importLimit maxDurationMs
        startTime followed
  end.

Definition processReactionsCampaign : nat → Campaign.t → Z → Z → Z → Z → M Z :=
  processPostCampaign "REACTIONS".

Definition processCommentsCampaign : nat → Campaign.t → Z → Z → Z → Z → M Z :=
  processPostCampaign "COMMENTS".

Definition processEventCampaign (page : nat) (campaign : Campaign.t)
    (followed importLimit maxDurationMs startTime : Z) : M Z :=
  match Js.digitsAfter "/events/" (Campaign.linkedin_url campaign) with
  | None => throw (Error.mk "Error" "Event ID not found in campaign LinkedIn URL" "")
  | Some eventId =>
      let encodedEventId :=
        Js.encodeURIComponent ("[" +:+ Js.quote +:+ eventId +:+ Js.quote +:+ "]") in
      Puppeteer.goto page
        ("https://www.linkedin.com/search/results/people/?eventAttending="
         +:+ encodedEventId +:+ "&origin=EVENT_PAGE_CANNED_SEARCH&sid=dx8");;
      BaseProcessor.delay 5000;;
      Puppeteer.command;;
      pagesLoop (turns 3000 maxDurationMs) page campaign importLimit maxDurationMs
        startTime followed
  end.

(** [.order('requested_at', { ascending: true })] *)
Definition requested_before (a b : LinkedInConnection.t) : Prop :=
  LinkedInConnection.requested_at a ≤ LinkedInConnection.requested_at b.

#[global] Instance requested_before_dec a b : Decision (requested_before a b).
Proof. unfold requested_before. apply _. Defined.

(** The rows of the campaign that are [queued] or [pending], oldest first,
    [importLimit] of them at most. *)
Definition queuedProfiles (campaign : Campaign.t) (importLimit : Z) (d : Db.t)
    : list LinkedInConnection.t :=
  take (Z.to_nat importLimit)
    (merge_sort requested_before
       (filter (λ row, LinkedInConnection.campaign_id row = Campaign.id campaign
                       ∧ (LinkedInConnection.status row = ConnectionStatus.queued
                          ∨ LinkedInConnection.status row = ConnectionStatus.pending))
          (Db.linkedin_connections d))).

(** [for (const profile of queuedProfiles) { if (over) break; ... }] *)
Fixpoint csvEach (page : nat) (campaign : Campaign.t) (maxDurationMs startTime : Z)
    (profiles : list LinkedInConnection.t) (followed : Z) : M Z :=
  match profiles with
  | [] => mret followed
  | profile :: profiles =>
      now ← read World.clock;
      if bool_decide (now - startTime > maxDurationMs) then mret followed
      else
        processed ← processCsvProfile page profile campaign;
        followed ← (if processed : bool then
                      updateCampaignProcessedCount (Campaign.id campaign) (followed + 1);;
                      mret (followed + 1)
                    else mret followed);
        csvEach page campaign maxDurationMs startTime profiles followed
  end.

Definition processCsvCampaign (page : nat) (campaign : Campaign.t)
    (followed importLimit maxDurationMs startTime : Z) : M Z :=
  error ← external;
  match error with
  | Some _ => mret followed
  | None =>
      queuedProfiles ← read (λ w, queuedProfiles campaign importLimit (World.db w));
      csvEach page campaign maxDurationMs startTime queuedProfiles followed
  end.

(** [.select('*', { count: 'exact', head: true })]: the count, or [null]
    when the read fails. *)
Definition countConnections (campaignId : string) : M (option Z) :=
  error ← external;
  match error with
  | Some _ => mret None
  | None =>
      read (λ w, Some (Z.of_nat (length
        (filter (λ row, LinkedInConnection.campaign_id row = campaignId)
           (Db.linkedin_connections (World.db w))))))
  end.

Definition sendFollowRequests (page : nat) (campaign : Campaign.t)
    (importLimit maxDurationMs : Z) : M unit :=
  startTime ← read World.clock;
  followedCount ← countConnections (Campaign.id campaign);
  let followed := or_else followedCount 0 in
  if bool_decide (Campaign.linkedin_url campaign = ""
                  ∧ Campaign.campaign_type campaign ≠ Some CampaignType.csv)
  then mret ()
  else
    let campaignType := default CampaignType.search (Campaign.campaign_type campaign) in
    _ ← match campaignType with
        | CampaignType.search =>
            processSearchCampaign page campaign followed importLimit maxDurationMs startTime
        | CampaignType.reactions =>
            processReactionsCampaign page campaign followed importLimit maxDurationMs startTime
        | CampaignType.comments =>
            processCommentsCampaign page campaign followed importLimit maxDurationMs startTime
        | CampaignType.event =>
            processEventCampaign page campaign followed importLimit maxDurationMs startTime
        | CampaignType.csv =>
            processCsvCampaign page campaign followed importLimit maxDurationMs startTime
        | CampaignType.other name =>
            throw (Error.mk "Error" ("Unsupported campaign type: " +:+ name) "")
        end;
    mret ().

Definition process (job : Job.t) : M unit :=
  let userId := JobData.userId (Job.data job) in
  let campaignId := JobData.campaignId (Job.data job) in
  let data := JobData.data (Job.data job) in
  try_catch
    (isInTrial ← BaseProcessor.checkTrialStatus userId;
     if negb isInTrial then mret ()
     else
       campaign ← BaseProcessor.getCampaign campaignId;
       if negb (BaseProcessor.isCampaignActive campaign) then mret ()
       else
         accountData ← BaseProcessor.getLinkedInAccount userId;
         LinkedInSettingsService.logUsageAndLimits userId;;
         let importLimit := or_else (data ≫= Payload.importLimit) 10 in
         let maxDurationMs := or_else (data ≫= Payload.maxDurationMs) (3 * 60 * 1000) in
         maxConnectionsForRun ←
           LinkedInSettingsService.getMaxActionsForRun userId ActionType.connections importLimit;
         quotas ← LinkedInSettingsService.getRemainingQuotas userId;
         if bool_decide (maxConnectionsForRun ≤ 0) then
           LinkedInSettingsService.createPendingJob userId campaignId
             JobType.followRequest ActionType.connections importLimit;;
           BaseProcessor.logActivity userId campaignId "followRequest" LogLevel.info
             "Daily connection limit reached. Job queued for next day."
             (Some (JObj [("requested_connections", JNum importLimit)]))
         else
           LinkedInAutomationService.runWithLogin campaign accountData
             (λ args, sendFollowRequests (LinkedInAutomationService.page args)
                        campaign maxConnectionsForRun maxDurationMs))
    (λ error, BaseProcessor.handleJobError job error;; throw error).

End FollowRequestProcessor.

(** ** BullMQ *)

Module BullMQ.

(** [attempts: 3] of the queue's [defaultJobOptions]. *)
Definition attempts : Z := 3.

(** [queue.add(name, data)]: the job joins the queue in state [waiting]
    under a fresh id, or the call throws when Redis cannot be reached. *)
Definition add (name : JobType.t) (data : JobData.t) : M Job.t :=
  external_or_throw;;
  seq ← read World.queue_seq;
  let job := {| Job.id := pretty (S seq); Job.name := name; Job.data := data;
                Job.state := JobState.waiting; Job.attemptsMade := 0 |} in
  modify (World.set_queue (λ q, q ++ [job]));;
  modify (World.set_queue_seq S);;
  mret job.

(** One turn of a [Worker] of the queue: it takes the oldest waiting job of
    the queue, whatever the job's name, marks it active and awaits the
    processor function it was built with.  When the function returns, the job
    is completed; when it throws, the attempt is counted and the job waits
    again, or has failed once its attempts are used up.  The turn returns the
    id of the job it took. *)
Definition runNext (processor : Job.t → M unit) : M (option string) :=
  q ← read World.queue;
  match list_find (λ job, Job.state job = JobState.waiting) q with
  | None => mret None
  | Some (i, job) =>
      let job := Job.with_state JobState.active job in
      modify (World.set_queue <[i := job]>);;
      thrown ← try_catch (processor job;; mret None) (λ error, mret (Some error));
      let settled :=
        match thrown with
        | None => Job.with_state JobState.completed job
        | Some _ =>
            let attemptsMade := Job.attemptsMade job + 1 in
            Job.with_attemptsMade attemptsMade
              (Job.with_state
                 (if bool_decide (attemptsMade < attempts)
                  then JobState.waiting else JobState.failed) job)
        end in
      modify (World.set_queue <[i := settled]>);;
      mret (Some (Job.id job))
  end.

End BullMQ.

(** ** QueueService (jobs/queue.service.ts) *)

Module QueueService.

Definition addJob (jobType : JobType.t) (userId campaignId : string)
    (data : option Payload.t) : M Job.t :=
  let jobData := {| JobData.userId := userId; JobData.campaignId := campaignId;
                    JobData.jobType := jobType; JobData.data := data |} in
  BullMQ.add jobType jobData.

Definition addFollowRequestJob (userId campaignId : string) (data : option Payload.t) : M Job.t :=
  addJob JobType.followRequest userId campaignId data.

Definition addFollowResponseJob (userId campaignId : string) (data : option Payload.t) : M Job.t :=
  addJob JobType.followResponse userId campaignId data.

End QueueService.

(** ** WorkerService (jobs/worker.service.ts) *)

Module WorkerService.

(** The processors the constructor is given. *)
Record Processors := mkProcessors {
  followRequestProcessor : Job.t → M unit;
  followResponseProcessor : Job.t → M unit
}.

(** The processor function of the "Follow Request Worker". *)
Definition followRequestWorker (deps : Processors) (job : Job.t) : M unit :=
  if decide (JobData.jobType (Job.data job) = JobType.followRequest)
  then followRequestProcessor deps job
  else mret ().

(** The processor function of the "Follow Response Worker". *)
Definition followResponseWorker (deps : Processors) (job : Job.t) : M unit :=
  if decide (JobData.jobType (Job.data job) = JobType.followResponse)
  then followResponseProcessor deps job
  else mret ().

End WorkerService.

(** ** SchedulerService (scheduler/scheduler.service.ts) *)

Module SchedulerService.

(** The payload of the job made for a pending job. *)
Definition pendingPayload (pendingJob : PendingJob.t) : Payload.t :=
  {| Payload.importLimit := None;
     Payload.maxDurationMs := None;
     Payload.pendingJobId := Some (PendingJob.id pendingJob);
     Payload.actionType := Some (PendingJob.action_type pendingJob);
     Payload.requestedCount := Some (PendingJob.requested_count pendingJob) |}.

Definition processPendingJobs : M unit :=
  try_catch
    (pendingJobs ← LinkedInSettingsService.getProcessablePendingJobs;
     if bool_decide (pendingJobs = []) then mret ()
     else
       for_each pendingJobs (λ pendingJob,
         try_catch
           (_ ← QueueService.addJob JobType.processPendingJobs
                  (PendingJob.user_id pendingJob) "system"
                  (Some (pendingPayload pendingJob));
            mret ())
           (λ _, mret ())))
    (λ _, mret ()).

Definition cleanupOldPendingJobs : M unit :=
  try_catch LinkedInSettingsService.cleanupOldPendingJobs (λ _, mret ()).

(** [.from('linkedin_campaigns').select(...).eq('status', 'active')], without
    an [.order(...)]: the rows come in the order of the store, here that of
    the table; a failed read gives no rows. *)
Definition activeRows (d : Db.t) : list Campaign.t :=
  filter (λ campaign, Campaign.status campaign = Some CampaignStatus.active)
    (map_to_list (Db.linkedin_campaigns d)).*2.

Definition getActiveCampaigns : M (list Campaign.t) :=
  error ← external;
  match error with
  | Some _ => mret []
  | None => read (λ w, activeRows (World.db w))
  end.

(** The same rows, reduced to their distinct [user_id]s. *)
Definition getActiveUsers : M (list string) :=
  error ← external;
  match error with
  | Some _ => mret []
  | None =>
      users ← read (λ w, activeRows (World.db w));
      mret (from_set (Campaign.user_id <$> users))
  end.

(** [{ importLimit: 10, maxDurationMs: 3 * 60 * 1000 }] *)
Definition followRequestPayload : Payload.t :=
  {| Payload.importLimit := Some 10;
     Payload.maxDurationMs := Some (3 * 60 * 1000);
     Payload.pendingJobId := None;
     Payload.actionType := None;
     Payload.requestedCount := None |}.

Definition processFollowRequests : M unit :=
  try_catch
    (campaigns ← getActiveCampaigns;
     if bool_decide (campaigns = []) then mret ()
     else
       for_each campaigns (λ campaign,
         try_catch
           (_ ← QueueService.addFollowRequestJob (Campaign.user_id campaign)
                  (Campaign.id campaign) (Some followRequestPayload);
            mret ())
           (λ _, mret ())))
    (λ _, mret ()).

Definition processFollowResponses : M unit :=
  try_catch
    (activeUsers ← getActiveUsers;
     if bool_decide (activeUsers = []) then mret ()
     else
       for_each activeUsers (λ user_id,
         try_catch
           (_ ← QueueService.addFollowResponseJob user_id "system" None;
            mret ())
           (λ _, mret ())))
    (λ _, mret ()).

End SchedulerService.

(** ** JobsController (api/jobs/jobs.controller.ts) *)

(** What a handler throws is what Nest answers the request with. *)
Module HttpException.
Record t := mk {
  status : Z;
  message : string;
  error : option string
}.
End HttpException.

Module JobsController.

Record CreateJobDto := mkCreateJobDto {
  userId : string;
  campaignId : string;
  jobType : JobType.t;
  data : option Payload.t
}.

(** The answer of [createJob]. *)
Record JobCreated := mkJobCreated {
  jobId : string;
  message : string;
  createdData : string * string * JobType.t
}.

(** [queue.getJob(jobId)] of [QueueService.getJob]. *)
Definition getJobOfQueue (jobId : string) : M (option Job.t) :=
  external_or_throw;;
  read (λ w, snd <$> list_find (λ job, Job.id job = jobId) (World.queue w)).

(** A thrown [HttpException] is the left summand. *)
Definition createJob (createJobDto : CreateJobDto) : M (HttpException.t + JobCreated) :=
  try_catch
    (job ← QueueService.addJob (jobType createJobDto) (userId createJobDto)
             (campaignId createJobDto) (data createJobDto);
     mret (inr {| jobId := Job.id job;
                  message := JobType.to_string (jobType createJobDto)
                             +:+ " job created successfully";
                  createdData := (userId createJobDto, campaignId createJobDto,
                                  jobType createJobDto) |}))
    (λ error,
       mret (inl (HttpException.mk 500 "Failed to create job" (Some (Error.message error))))).

Record FollowRequestBody := mkFollowRequestBody {
  bodyUserId : string;
  bodyCampaignId : string;
  importLimit : option Z
}.

Record FollowRequestCreated := mkFollowRequestCreated {
  followRequestJobId : string;
  followRequestMessage : string;
  followRequestData : string * string * Z
}.

(** [const { userId, campaignId, importLimit = 10 } = body] *)
Definition createFollowRequestJob (body : FollowRequestBody)
    : M (HttpException.t + FollowRequestCreated) :=
  try_catch
    (let importLimit := default 10 (importLimit body) in
     job ← QueueService.addFollowRequestJob (bodyUserId body) (bodyCampaignId body)
             (Some {| Payload.importLimit := Some importLimit;
                      Payload.maxDurationMs := None;
                      Payload.pendingJobId := None;
                      Payload.actionType := None;
                      Payload.requestedCount := None |});
     mret (inr {| followRequestJobId := Job.id job;
                  followRequestMessage := "Follow request job created successfully";
                  followRequestData := (bodyUserId body, bodyCampaignId body, importLimit) |}))
    (λ error,
       mret (inl (HttpException.mk 500 "Failed to create follow request job"
                    (Some (Error.message error))))).

(** The job found, or the 404 thrown inside the [try] and thrown on by the
    [catch], or the 500 made of any other error. *)
Definition getJob (jobId : string) : M (HttpException.t + Job.t) :=
  try_catch
    (job ← getJobOfQueue jobId;
     match job with
     | None => mret (inl (HttpException.mk 404 "Job not found" None))
     | Some job => mret (inr job)
     end)
    (λ error,
       mret (inl (HttpException.mk 500 "Failed to get job" (Some (Error.message error))))).

End JobsController.

(** ** SchedulerController (api/scheduler/scheduler.controller.ts) *)

Module SchedulerController.

(** The answer of a trigger: its message and [new Date().toISOString()]. *)
Record Triggered := mkTriggered {
  message : string;
  timestamp : Z
}.

Definition triggerFollowRequests : M (HttpException.t + Triggered) :=
  try_catch
    (SchedulerService.processFollowRequests;;
     now ← read World.clock;
     mret (inr {| message := "Follow requests processing triggered successfully";
                  timestamp := now |}))
    (λ error,
       mret (inl (HttpException.mk 500 "Failed to trigger follow requests processing"
                    (Some (Error.message error))))).

Definition triggerFollowResponses : M (HttpException.t + Triggered) :=
  try_catch
    (SchedulerService.processFollowResponses;;
     now ← read World.clock;
     mret (inr {| message := "Follow responses processing triggered successfully";
                  timestamp := now |}))
    (λ error,
       mret (inl (HttpException.mk 500 "Failed to trigger follow responses processing"
                    (Some (Error.message error))))).

Definition triggerPendingJobs : M (HttpException.t + Triggered) :=
  try_catch
    (SchedulerService.processPendingJobs;;
     now ← read World.clock;
     mret (inr {| message := "Pending jobs processing triggered successfully";
                  timestamp := now |}))
    (λ error,
       mret (inl (HttpException.mk 500 "Failed to trigger pending jobs processing"
                    (Some (Error.message error))))).

End SchedulerController.

(** ** SimpleWebsocketGateway (websocket/simple-websocket.gateway.ts) *)

Module Socket.
(** [client.id] and [client.handshake.query.user_id]. *)
Record t := mk {
  id : string;
  user_id : option string
}.

#[global] Instance eq_dec : EqDecision t.
Proof. solve_decision. Defined.
End Socket.

Module SimpleWebsocketGateway.

(** What the gateway does to a client. *)
Inductive Effect :=
| Disconnect (client : string)
| Join (client room : string)
| Emit (client event : string).

(** The gateway: [userSockets], and what it has done to its clients, the
    latest first. *)
Record t := mk {
  userSockets : gmap string Socket.t;
  effects : list Effect
}.

Definition empty : t := mk ∅ [].

(** [!userId]: [undefined] and the empty string are falsy. *)
Definition userIdOf (client : Socket.t) : option string :=
  match Socket.user_id client with
  | Some userId => if decide (userId = "") then None else Some userId
  | None => None
  end.

Definition handleConnection (client : Socket.t) (self : t) : t :=
  match userIdOf client with
  | None => mk (userSockets self) (Disconnect (Socket.id client) :: effects self)
  | Some userId =>
      mk (<[userId := client]> (userSockets self))
         (Emit (Socket.id client) "connected"
          :: Join (Socket.id client) ("user_" +:+ userId) :: effects self)
  end.

Definition handleDisconnect (client : Socket.t) (self : t) : t :=
  match userIdOf client with
  | Some userId => mk (delete userId (userSockets self)) (effects self)
  | None => self
  end.

Definition getConnectedUsersCount (self : t) : nat := size (userSockets self).

End SimpleWebsocketGateway.

(** * Vocabulary of the properties *)

(** The faults in store are all successes. *)
Definition calm (w : World.t) : Prop := ∀ o, o ∈ World.faults w → o = None.

(** A computation keeps a property of the world when the property holds
    after it, whatever its outcome, if it held before. *)
Definition keeps {A} (P : World.t → Prop) (m : M A) : Prop :=
  ∀ w, P w → P (m w).2.

(** A computation started where [P] holds ends with an outcome and in a
    world that satisfy [Q]. *)
Definition ensures {A} (P : World.t → Prop) (m : M A)
    (Q : Outcome A → World.t → Prop) : Prop :=
  ∀ w, P w → Q (m w).1 (m w).2.

(** The rows of [linkedin_connections], counted. *)
Definition connectionRows (w : World.t) : Z :=
  Z.of_nat (length (Db.linkedin_connections (World.db w))).


(** The budget of a run: the rows there are and the invitations the limit
    still allows come to [budget] at most. *)
Definition within (budget importLimit followed : Z) (v : World.t) : Prop :=
  connectionRows v + Z.max 0 (importLimit - followed) ≤ budget.

Definition within_after (budget importLimit : Z) (o : Outcome Z) (v : World.t) : Prop :=
  match o with
  | Return followed => within budget importLimit followed v
  | Throw _ => connectionRows v ≤ budget
  end.

(** [w'] is [w] but for rows added to the settings table and for external
    calls answered: the limits in force are the same, and the faults still in
    store are among those of [w]. *)
Definition settles (w w' : World.t) : Prop :=
  ∃ g h, w' = World.set_faults g (World.set_db (Db.set_linkedin_settings h) w)
         ∧ (∀ u, LinkedInSettingsService.limits w' u = LinkedInSettingsService.limits w u)
         ∧ World.faults w' `suffix_of` World.faults w.

(** What [getRemainingQuotas] computes from the limits and the usage it was
    handed. *)
Definition quotasOf (settings : LinkedInSettings.t) (usage : DailyUsage.t) : QuotaInfo.t :=
  {| QuotaInfo.remainingConnections :=
       Z.max 0 (LinkedInSettings.max_connections_per_day settings - DailyUsage.connections usage);
     QuotaInfo.remainingMessages :=
       Z.max 0 (LinkedInSettings.max_message_per_day settings - DailyUsage.messages usage);
     QuotaInfo.remainingVisits :=
       Z.max 0 (LinkedInSettings.total_visits_per_day settings - DailyUsage.visits usage);
     QuotaInfo.remainingInmails :=
       Z.max 0 (LinkedInSettings.max_inmails_per_day settings - DailyUsage.inmails usage) |}.

(** The job passes the checks that precede the quota gate of
    [FollowRequestProcessor.process]: the user is in the trial, the campaign
    exists and is active, the account exists. *)
Definition reaches_gate (w : World.t) (job : Job.t) (campaign : Campaign.t) : Prop :=
  (∃ createdAt, Db.profiles (World.db w) !! JobData.userId (Job.data job) = Some createdAt
                ∧ World.clock w - createdAt ≤ 7 * (1000 * 60 * 60 * 24))
  ∧ Db.linkedin_campaigns (World.db w) !! JobData.campaignId (Job.data job) = Some campaign
  ∧ Campaign.status campaign = Some CampaignStatus.active
  ∧ is_Some (Db.linkedin_accounts (World.db w) !! JobData.userId (Job.data job)).

(** The amount a follow-request job asks for: [data?.importLimit || 10]. *)
Definition requestedConnections (job : Job.t) : Z :=
  or_else (JobData.data (Job.data job) ≫= Payload.importLimit) 10.

(** The row [createPendingJob] inserts for a follow-request job in world [w]. *)
Definition deferredRow (w : World.t) (job : Job.t) : PendingJob.t :=
  {| PendingJob.id := pretty (Db.row_seq (World.db w));
     PendingJob.user_id := JobData.userId (Job.data job);
     PendingJob.campaign_id := JobData.campaignId (Job.data job);
     PendingJob.job_type := JobType.followRequest;
     PendingJob.action_type := ActionType.connections;
     PendingJob.requested_count := requestedConnections job;
     PendingJob.retry_count := 0;
     PendingJob.max_retries := 3;
     PendingJob.created_at := World.clock w |}.

(** The activity record [process] writes when it defers a job. *)
Definition deferredRecord (job : Job.t) : ActivityLogData.t :=
  {| ActivityLogData.user_id := JobData.userId (Job.data job);
     ActivityLogData.campaign_id := JobData.campaignId (Job.data job);
     ActivityLogData.job_type := "followRequest";
     ActivityLogData.log_level := LogLevel.info;
     ActivityLogData.message := "Daily connection limit reached. Job queued for next day.";
     ActivityLogData.context :=
       Some (JObj [("requested_connections", JNum (requestedConnections job))]) |}.

(** What [FollowRequestProcessor.process] does once the gate has answered. *)
Definition afterGate (job : Job.t)
    (campaign : Campaign.t) (accountData : LinkedInAccount.t) (granted : Z) : M unit :=
  let userId := JobData.userId (Job.data job) in
  let campaignId := JobData.campaignId (Job.data job) in
  let data := JobData.data (Job.data job) in
  if bool_decide (granted ≤ 0) then
    LinkedInSettingsService.createPendingJob userId campaignId
      JobType.followRequest ActionType.connections (requestedConnections job);;
    BaseProcessor.logActivity userId campaignId "followRequest" LogLevel.info
      "Daily connection limit reached. Job queued for next day."
      (Some (JObj [("requested_connections", JNum (requestedConnections job))]))
  else
    LinkedInAutomationService.runWithLogin campaign accountData
      (λ args, FollowRequestProcessor.sendFollowRequests
                 (LinkedInAutomationService.page args) campaign granted
                 (or_else (data ≫= Payload.maxDurationMs) (3 * 60 * 1000))).


(** ** Reconciliation *)

(** The pending jobs the hourly pass selects in world [w]: the rows with
    [retry_count <= 3], oldest first. *)
Definition selectedPendingJobs (w : World.t) : list PendingJob.t :=
  merge_sort LinkedInSettingsService.created_before
    (filter LinkedInSettingsService.processable (Db.pending_jobs (World.db w))).

(** The data of the job the pass makes for a pending job. *)
Definition reconciliationData (pendingJob : PendingJob.t) : JobData.t :=
  {| JobData.userId := PendingJob.user_id pendingJob;
     JobData.campaignId := "system";
     JobData.jobType := JobType.processPendingJobs;
     JobData.data := Some (SchedulerService.pendingPayload pendingJob) |}.

(** Job [job] is the real job made for pending job [pendingJob]: it waits in
    the queue under the kind [processPendingJobs] and carries the id, the
    resource kind and the requested amount of the pending job. *)
Definition promotes (pendingJob : PendingJob.t) (job : Job.t) : Prop :=
  Job.name job = JobType.processPendingJobs
  ∧ Job.state job = JobState.waiting
  ∧ Job.data job = reconciliationData pendingJob.

(** ** Sessions *)

(** The world once an activity record has been emitted in [w]: once
    [SupabaseService.logActivity] has been called with it. *)
Definition emitted (record : ActivityLogData.t) (w : World.t) : World.t :=
  (SupabaseService.logActivity record w).2.

(** The environment lets [ms] milliseconds pass. *)
Definition advance (ms : Z) (w : World.t) : World.t :=
  World.set_clock (λ t, t + ms) w.



(** The session work writes nothing to the store and leaves the clock and
    the queue alone. *)
Definition beside_sessions (w0 w : World.t) : Prop :=
  World.db w = World.db w0 ∧ World.clock w = World.clock w0
  ∧ World.queue w = World.queue w0 ∧ World.queue_seq w = World.queue_seq w0.



(** What can happen to the session map: a call of a method of
    [SessionService] (from a job, from the websocket gateway, or from a timer
    for [cleanupSession]; [cleanupAllSessions] is a run of [closeSession]
    calls), either half of [createSession] with other events in between,
    the session part of [runWithLogin], or a move of the environment: time
    passes, the outcomes of the calls to come change, a page is closed under
    the service. *)
Inductive SessionEvent :=
| CreateSession (userId : string)
| OpenLoginPage
| RegisterSession (userId : string) (browser page : nat)
| GetSession (userId : string)
| GetOrCreateSession (userId : string)
| UpdateSessionActivity (userId : string)
| CaptureScreenshot (userId : string)
| HandleInputEvent (userId : string) (known : bool)
| CloseSession (userId : string)
| CleanupSession (userId : string)
| AcquireSession (userId : string)
| TimePasses (ms : Z)
| FaultsLoom (faults : list (option Error.t))
| PageCloses (page : nat).

Definition happen (event : SessionEvent) (w : World.t) : World.t :=
  match event with
  | CreateSession userId => (SessionService.createSession userId w).2
  | OpenLoginPage => (SessionService.openLoginPage w).2
  | RegisterSession userId browser page =>
      (SessionService.registerSession userId browser page w).2
  | GetSession userId => (SessionService.getSession userId w).2
  | GetOrCreateSession userId => (SessionService.getOrCreateSession userId w).2
  | UpdateSessionActivity userId => (SessionService.updateSessionActivity userId w).2
  | CaptureScreenshot userId => (SessionService.captureScreenshot userId w).2
  | HandleInputEvent userId known => (SessionService.handleInputEvent userId known w).2
  | CloseSession userId => (SessionService.closeSession userId w).2
  | CleanupSession userId => (SessionService.cleanupSession userId w).2
  | AcquireSession userId => (LinkedInAutomationService.acquireSession userId w).2
  | TimePasses ms => advance ms w
  | FaultsLoom faults => World.set_faults (λ _, faults) w
  | PageCloses page => World.set_pages (alter PageState.close page) w
  end.

Definition history (events : list SessionEvent) (w : World.t) : World.t :=
  foldl (λ w event, happen event w) w events.

(** ** Requests that overlap *)

(** An [async] call seen with its suspension points: it is done, or it runs
    to its next [await] and is then the rest of the call. *)
Inductive Task (A : Type) :=
| Done (a : A)
| Await (segment : M (Task A)).
Arguments Done {A} a.
Arguments Await {A} segment.


(** Runs a task to its end, nothing else running in between. *)
Fixpoint complete {A} (task : Task A) (w : World.t) : Outcome A * World.t :=
  match task with
  | Done a => (Return a, w)
  | Await segment =>
      match segment w with
      | (Return rest, w') => complete rest w'
      | (Throw e, w') => (Throw e, w')
      end
  end.

(** [getOrCreateSession] with its two [await]s: the one on [getSession], the
    one on [createSession]. *)
Definition getOrCreateSessionTask (userId : string) : Task BrowserSessionInfo.t :=
  Await (session ← SessionService.getSession userId;
         mret (match session with
               | None => Await (session ← SessionService.createSession userId;
                                mret (Done session))
               | Some session => Done session
               end)).

(** The outcome of a call as a value: what a caller sees who catches. *)
Definition settled {A} (m : M A) : M (Outcome A) := λ w,
  let '(outcome, w') := m w in (Return outcome, w').


(** ** Worlds and jobs to run the code on *)

Module Example.

Definition profile_created : Z := 1700000000000.
(** Two days into the trial. *)
Definition now : Z := 1700172800000.

Definition campaign : Campaign.t :=
  {| Campaign.id := "campaign-1"; Campaign.user_id := "user-1";
     Campaign.linkedin_url := "https://www.linkedin.com/search/results/people/?keywords=rocq";
     Campaign.status := Some CampaignStatus.active;
     Campaign.total_profiles := 100; Campaign.processed_profiles := 0;
     Campaign.campaign_type := Some CampaignType.search;
     Campaign.connection_note := None |}.

Definition account : LinkedInAccount.t :=
  {| LinkedInAccount.id := "account-1"; LinkedInAccount.user_id := "user-1";
     LinkedInAccount.email := "user-1@example.org" |}.

(** A store where user-1 may make 30 connections a day and has made [used]
    of them today. *)
Definition db (used : Z) : Db.t :=
  {| Db.linkedin_settings := [("user-1", LinkedInSettings.mk 30 50 100 0)];
     Db.daily_usage := {[ ("user-1", utc_day now) := DailyUsage.mk used 0 0 0 (utc_day now) ]};
     Db.pending_jobs := [];
     Db.row_seq := 0;
     Db.activity_logs := [];
     Db.profiles := {[ "user-1" := profile_created ]};
     Db.linkedin_campaigns := {[ "campaign-1" := campaign ]};
     Db.linkedin_accounts := {[ "user-1" := account ]};
     Db.linkedin_connections := [] |}.

(** A browser without a window, at the place and of the size Puppeteer
    chooses. *)
Definition browserConfig : BrowserConfig.t :=
  {| BrowserConfig.executablePath := None; BrowserConfig.headless := Some true;
     BrowserConfig.width := None; BrowserConfig.height := None |}.

(** A person of a list, with the button [Invite] in the item found by its
    link. *)
Definition invitable (url name : string) : LinkedIn.Card :=
  {| LinkedIn.person := Person.mk url name "" "";
     LinkedIn.byLink := true; LinkedIn.byUrn := false;
     LinkedIn.followBtn := false; LinkedIn.connectBtn := true |}.

(** The search of the campaign finds three people, on one page. *)
Definition threePeople : list LinkedIn.View :=
  [ {| LinkedIn.cards :=
         [ invitable "https://www.linkedin.com/in/ada" "Ada Lovelace";
           invitable "https://www.linkedin.com/in/alan" "Alan Turing";
           invitable "https://www.linkedin.com/in/grace" "Grace Hopper" ];
       LinkedIn.nextBtn := LinkedIn.absent |} ].

Definition world (used : Z) : World.t :=
  {| World.clock := now; World.faults := []; World.db := db used;
     World.browsers := []; World.pages := []; World.sessions := ∅;
     World.timers := []; World.queue := []; World.queue_seq := 0;
     World.browserConfig := Some browserConfig; World.puppeteerBrowser := None;
     World.linkedin := threePeople |}.

(** A follow-request job for user-1 that asks for ten connections. *)
Definition job : Job.t :=
  {| Job.id := "1"; Job.name := JobType.followRequest;
     Job.data := {| JobData.userId := "user-1"; JobData.campaignId := "campaign-1";
                    JobData.jobType := JobType.followRequest;
                    JobData.data := Some (Payload.mk (Some 10) (Some 180000) None None None) |};
     Job.state := JobState.active; Job.attemptsMade := 0 |}.

(** A pending job of user-1 that has been retried [retries] times. *)
Definition pendingJob (retries : Z) : PendingJob.t :=
  {| PendingJob.id := "0"; PendingJob.user_id := "user-1";
     PendingJob.campaign_id := "campaign-1";
     PendingJob.job_type := JobType.followRequest;
     PendingJob.action_type := ActionType.connections;
     PendingJob.requested_count := 10;
     PendingJob.created_at := now - 3600000;
     PendingJob.retry_count := retries;
     PendingJob.max_retries := 3 |}.

(** The world of [world 30] with that pending job on the books. *)
Definition world_with_pending (retries : Z) : World.t :=
  World.set_db (Db.set_row_seq (λ _, 1%nat))
    (World.set_db (Db.set_pending_jobs (λ _, [pendingJob retries])) (world 30)).

(** A follow-request job that waits in the queue. *)
Definition waitingJob : Job.t := Job.with_state JobState.waiting job.

(** The session user-1 opened a minute ago. *)
Definition session : BrowserSessionInfo.t :=
  {| BrowserSessionInfo.browser := 0;
     BrowserSessionInfo.page := 0;
     BrowserSessionInfo.isLoggedIn := false;
     BrowserSessionInfo.createdAt := now - 60000;
     BrowserSessionInfo.lastActivity := now - 60000;
     BrowserSessionInfo.userId := "user-1";
     BrowserSessionInfo.sessionId := "user-1_1700172740000" |}.

(** The world of [world used] with that session open on the feed; no timer
    watches it. *)
Definition world_in_session (used : Z) : World.t :=
  {| World.clock := now; World.faults := []; World.db := db used;
     World.browsers := [true];
     World.pages := [PageState.mk 0 false "https://www.linkedin.com/feed/"];
     World.sessions := {[ "user-1" := session ]};
     World.timers := [];
     World.queue := []; World.queue_seq := 0;
     World.browserConfig := Some browserConfig; World.puppeteerBrowser := Some 0%nat;
     World.linkedin := threePeople |}.

(** The store cannot be reached. *)
Definition fetchFailed : Error.t := Error.mk "TypeError" "fetch failed" "".


(** [page.goto] gives up on the login page after its 60 seconds. *)
Definition navigationTimeout : Error.t :=
  Error.mk "TimeoutError" "Navigation timeout of 60000 ms exceeded" "".

(** The world of [world used] when the browser starts, the page opens and
    takes its user agent, and the navigation to the login page times out. *)
Definition world_offline (used : Z) : World.t :=
  World.set_faults (λ _, [None; None; None; Some navigationTimeout]) (world used).

End Example.

(** * Properties *)


(** ** Further vocabulary *)

(** The activity record [BaseProcessor.handleJobError] writes for a job that
    failed with [error]. *)
Definition jobFailedRecord (job : Job.t) (error : Error.t) : ActivityLogData.t :=
  {| ActivityLogData.user_id := JobData.userId (Job.data job);
     ActivityLogData.campaign_id := JobData.campaignId (Job.data job);
     ActivityLogData.job_type := JobType.to_string (JobData.jobType (Job.data job));
     ActivityLogData.log_level := LogLevel.error;
     ActivityLogData.message := "Job failed: " +:+ Error.message error;
     ActivityLogData.context :=
       Some (JObj [("error", JStr (Error.stack error)); ("jobId", JStr (Job.id job))]) |}.

(** The next [n] external calls are answered. *)
Definition answered (n : nat) (w : World.t) : Prop :=
  ∀ o, o ∈ take n (World.faults w) → o = None.

(** [3 * 24 * 60 * 60 * 1000]: the age, in milliseconds, past which a pending
    job is purged. *)
Definition purgeAgeMs : Z := 3 * 24 * 60 * 60 * 1000.

(** The items of a loop whose own call of the queue is answered, when the
    calls of the loop draw their outcomes from [faults] in turn: each item
    costs one call, and a call that fails costs its item alone. *)
Fixpoint accepted {A} (items : list A) (faults : list (option Error.t)) : list A :=
  match items with
  | [] => []
  | x :: xs =>
      match faults with
      | [] => x :: xs
      | None :: faults => x :: accepted xs faults
      | Some _ :: faults => accepted xs faults
      end
  end.

(** The data of the job the quarter-hourly pass makes for a campaign. *)
Definition followRequestData (campaign : Campaign.t) : JobData.t :=
  {| JobData.userId := Campaign.user_id campaign;
     JobData.campaignId := Campaign.id campaign;
     JobData.jobType := JobType.followRequest;
     JobData.data := Some SchedulerService.followRequestPayload |}.

(** The data of the job the follow-response pass makes for a user. *)
Definition followResponseData (user_id : string) : JobData.t :=
  {| JobData.userId := user_id;
     JobData.campaignId := "system";
     JobData.jobType := JobType.followResponse;
     JobData.data := None |}.

(** A job as [queue.add] leaves it. *)
Definition fresh (name : JobType.t) (job : Job.t) : Prop :=
  Job.name job = name ∧ Job.state job = JobState.waiting ∧ Job.attemptsMade job = 0.

(** No session of the map is marked as logged in. *)
Definition all_logged_out (w : World.t) : Prop :=
  ∀ k s, World.sessions w !! k = Some s → BrowserSessionInfo.isLoggedIn s = false.

(** The world after a turn of a worker on the job at place [i] of the queue
    that ended with the job completed and nothing else done. *)
Definition completedAt (i : nat) (job : Job.t) (w : World.t) : World.t :=
  World.set_queue <[i := Job.with_state JobState.completed job]>
    (World.set_queue <[i := Job.with_state JobState.active job]> w).


(** ** The monad *)

Lemma bind_unfold {A B} (m : M A) (k : A → M B) (w : World.t) :
  (m ≫= k) w =
  match m w with
  | (Return a, w') => k a w'
  | (Throw e, w') => (Throw e, w')
  end.
Proof. reflexivity. Qed.

Lemma bind_return {A B} (m : M A) (k : A → M B) w a w' :
  m w = (Return a, w') → (m ≫= k) w = k a w'.
Proof. intros H. by rewrite bind_unfold, H. Qed.

Lemma bind_throw {A B} (m : M A) (k : A → M B) w e w' :
  m w = (Throw e, w') → (m ≫= k) w = (Throw e, w').
Proof. intros H. by rewrite bind_unfold, H. Qed.

(** Runs the computation in the goal as far as its steps are known. *)
Ltac exec :=
  repeat (rewrite ?bind_unfold; unfold read, modify, throw, mret, M_ret; simpl).


Lemma keeps_ret {A} (P : World.t → Prop) (a : A) : keeps P (mret a).
Proof. by intros w. Qed.

Lemma keeps_throw {A} (P : World.t → Prop) e : keeps P (throw (A:=A) e).
Proof. by intros w. Qed.

Lemma keeps_read {A} (P : World.t → Prop) (g : World.t → A) : keeps P (read g).
Proof. by intros w. Qed.

Lemma keeps_modify (P : World.t → Prop) (g : World.t → World.t) :
  (∀ w, P w → P (g w)) → keeps P (modify g).
Proof. intros H w. apply H. Qed.

Lemma keeps_bind {A B} (P : World.t → Prop) (m : M A) (k : A → M B) :
  keeps P m → (∀ a, keeps P (k a)) → keeps P (m ≫= k).
Proof.
  intros Hm Hk w Hw. rewrite bind_unfold. specialize (Hm w Hw).
  destruct (m w) as [[a|e] w']; simpl in *; [|done].
  by apply Hk.
Qed.

Lemma keeps_try_catch {A} (P : World.t → Prop) (m : M A) (h : Error.t → M A) :
  keeps P m → (∀ e, keeps P (h e)) → keeps P (try_catch m h).
Proof.
  intros Hm Hh w Hw. unfold try_catch. specialize (Hm w Hw).
  destruct (m w) as [[a|e] w']; simpl in *; [done|].
  by apply Hh.
Qed.

Lemma keeps_for_each {A} (P : World.t → Prop) (xs : list A) (body : A → M unit) :
  (∀ x, keeps P (body x)) → keeps P (for_each xs body).
Proof.
  intros Hb. induction xs as [|x xs IH]; simpl.
  - apply keeps_ret.
  - apply keeps_bind; [apply Hb | intros _; apply IH].
Qed.

Lemma ensures_ret {A} (P : World.t → Prop) (a : A) (Q : Outcome A → World.t → Prop) :
  (∀ w, P w → Q (Return a) w) → ensures P (mret a) Q.
Proof. intros H w Hw. by apply H. Qed.


Lemma ensures_read {A} (P : World.t → Prop) (g : World.t → A)
    (Q : Outcome A → World.t → Prop) :
  (∀ w, P w → Q (Return (g w)) w) → ensures P (read g) Q.
Proof. intros H w Hw. by apply H. Qed.

Lemma ensures_bind {A B} (P : World.t → Prop) (R : A → World.t → Prop)
    (m : M A) (k : A → M B) (Q : Outcome B → World.t → Prop) :
  ensures P m (λ o v, match o with Return a => R a v | Throw e => Q (Throw e) v end) →
  (∀ a, ensures (R a) (k a) Q) →
  ensures P (m ≫= k) Q.
Proof.
  intros Hm Hk w Hw. rewrite bind_unfold. specialize (Hm w Hw).
  destruct (m w) as [[a|e] w']; simpl in *; [|done].
  by apply Hk.
Qed.

Lemma ensures_try_catch {A} (P : World.t → Prop) (R : Error.t → World.t → Prop)
    (m : M A) (h : Error.t → M A) (Q : Outcome A → World.t → Prop) :
  ensures P m (λ o v, match o with Return a => Q (Return a) v | Throw e => R e v end) →
  (∀ e, ensures (R e) (h e) Q) →
  ensures P (try_catch m h) Q.
Proof.
  intros Hm Hh w Hw. unfold try_catch. specialize (Hm w Hw).
  destruct (m w) as [[a|e] w']; simpl in *; [done|].
  by apply Hh.
Qed.

Lemma ensures_keeps {A} (P : World.t → Prop) (m : M A) (Q : Outcome A → World.t → Prop) :
  keeps P m → (∀ o v, P v → Q o v) → ensures P m Q.
Proof. intros Hm HQ w Hw. apply HQ. by apply Hm. Qed.

Lemma ensures_weaken {A} (P P' : World.t → Prop) (m : M A)
    (Q Q' : Outcome A → World.t → Prop) :
  ensures P m Q → (∀ w, P' w → P w) → (∀ o v, Q o v → Q' o v) → ensures P' m Q'.
Proof. intros Hm HP HQ w Hw. apply HQ, Hm, HP, Hw. Qed.

(** A step that keeps [P], followed by the rest. *)
Lemma ensures_bind_keeps {A B} (P : World.t → Prop) (m : M A) (k : A → M B)
    (Q : Outcome B → World.t → Prop) :
  keeps P m → (∀ e v, P v → Q (Throw e) v) → (∀ a, ensures P (k a) Q) →
  ensures P (m ≫= k) Q.
Proof.
  intros Hm HQ Hk. apply (ensures_bind P (λ _, P)); [|done].
  apply ensures_keeps; [done|]. intros [a|e] v Hv; [done|by apply HQ].
Qed.

Lemma keeps_ensures {A} (P : World.t → Prop) (m : M A) :
  ensures P m (λ _, P) → keeps P m.
Proof. intros H w Hw. by apply H. Qed.

(** A property that does not look at the faults in store is kept by an
    external call. *)
Lemma keeps_external (P : World.t → Prop) :
  (∀ g w, P w → P (World.set_faults g w)) → keeps P external.
Proof.
  intros HP w Hw. unfold external. destruct (World.faults w); simpl; [done|by apply HP].
Qed.

Lemma keeps_external_or_throw (P : World.t → Prop) :
  (∀ g w, P w → P (World.set_faults g w)) → keeps P external_or_throw.
Proof.
  intros HP. apply keeps_bind; [by apply keeps_external|].
  intros [e|]; [apply keeps_throw | apply keeps_ret].
Qed.

(** ** External calls *)

(** An external call takes the first of the faults in store. *)
Lemma external_run w :
  external w = (Return (head (World.faults w) ≫= id), World.set_faults (drop 1) w).
Proof.
  unfold external. by destruct w as [? [|o rest] ? ? ? ? ? ? ? ? ? ?].
Qed.

Lemma calm_head w : calm w → head (World.faults w) ≫= id = None.
Proof.
  intros Hc. destruct (World.faults w) as [|o rest] eqn:Hf; simpl; [done|].
  apply Hc. rewrite Hf. left.
Qed.

Lemma calm_drop n w : calm w → calm (World.set_faults (drop n) w).
Proof. intros Hc o Ho. apply Hc. simpl in Ho. eapply elem_of_sublist; [exact Ho|apply sublist_drop]. Qed.

Lemma calm_same_faults w w' : World.faults w' = World.faults w → calm w → calm w'.
Proof. intros Hf Hc o. rewrite Hf. apply Hc. Qed.

Lemma external_calm_run w :
  calm w → external w = (Return None, World.set_faults (drop 1) w).
Proof. intros Hc. by rewrite external_run, calm_head. Qed.

Lemma external_or_throw_calm_run w :
  calm w → external_or_throw w = (Return (), World.set_faults (drop 1) w).
Proof.
  intros Hc. unfold external_or_throw. by rewrite bind_unfold, external_calm_run.
Qed.

Lemma answered_step n w :
  answered (S n) w →
  head (World.faults w) ≫= id = None ∧ answered n (World.set_faults (drop 1) w).
Proof.
  intros Ha. split.
  - destruct (World.faults w) as [|o rest] eqn:Hf; simpl; [done|].
    apply Ha. rewrite Hf. left.
  - intros o Ho. apply Ha. simpl in Ho.
    destruct (World.faults w) as [|o' rest]; simpl in *.
    + rewrite take_nil in Ho. inversion Ho.
    + by right.
Qed.

Lemma calm_answered n w : calm w → answered n w.
Proof.
  intros Hc o Ho. apply Hc. eapply elem_of_sublist; [exact Ho|apply sublist_take].
Qed.

Lemma set_faults_drop a b w :
  World.set_faults (drop a) (World.set_faults (drop b) w) = World.set_faults (drop (b + a)) w.
Proof. unfold World.set_faults. simpl. by rewrite drop_drop. Qed.

(** A read through [.single()] does not throw; answered, it hands back the
    row when there is one row. *)
Lemma single_run {A} (rows : Db.t → list A) w :
  Postgrest.single rows w =
    (Return (match head (World.faults w) ≫= id with
             | Some error => (None, Some error)
             | None =>
                 match rows (World.db w) with
                 | [row] => (Some row, None)
                 | _ => (None, Some Postgrest.notOneRow)
                 end
             end),
     World.set_faults (drop 1) w).
Proof.
  unfold Postgrest.single. rewrite bind_unfold, external_run.
  destruct (head (World.faults w) ≫= id); [done|]. exec.
  by destruct (rows (World.db w)) as [|row [|]].
Qed.

Lemma maybeSingle_run {A} (rows : Db.t → list A) w :
  Postgrest.maybeSingle rows w =
    (Return (match head (World.faults w) ≫= id with
             | Some error => (None, Some error)
             | None =>
                 match rows (World.db w) with
                 | [] => (None, None)
                 | [row] => (Some row, None)
                 | _ => (None, Some Postgrest.notOneRow)
                 end
             end),
     World.set_faults (drop 1) w).
Proof.
  unfold Postgrest.maybeSingle. rewrite bind_unfold, external_run.
  destruct (head (World.faults w) ≫= id); [done|]. exec.
  by destruct (rows (World.db w)) as [|row [|]].
Qed.

(** ** The quota manager *)

Section quota.
Import LinkedInSettingsService.

Lemma settles_refl w : settles w w.
Proof. exists id, id. by destruct w as [? ? [] ? ? ? ? ? ? ? ? ?]. Qed.

Lemma settles_trans w1 w2 w3 : settles w1 w2 → settles w2 w3 → settles w1 w3.
Proof.
  intros (g1 & h1 & -> & Hl1 & Hs1) (g2 & h2 & -> & Hl2 & Hs2).
  exists (g2 ∘ g1), (h2 ∘ h1). split; [done|]. split.
  - intros u. by rewrite Hl2, Hl1.
  - by etrans.
Qed.

Lemma settles_calm w w' : settles w w' → calm w → calm w'.
Proof.
  intros (_ & _ & _ & _ & [pre Hs]) Hc o Ho. apply Hc. rewrite Hs.
  apply elem_of_app. by right.
Qed.

Lemma settles_usageToday w w' u : settles w w' → usageToday w' u = usageToday w u.
Proof. by intros (g & h & -> & _). Qed.

Lemma settles_remaining w w' u k : settles w w' → remaining w' u k = remaining w u k.
Proof.
  intros H. unfold remaining. rewrite (settles_usageToday w w') by done.
  destruct H as (_ & _ & _ & -> & _). done.
Qed.

(** Answering a call settles the world. *)
Lemma settles_drop n w : settles w (World.set_faults (drop n) w).
Proof.
  exists (drop n), id. split; [by destruct w as [? ? [] ? ? ? ? ? ? ? ? ?]|].
  split; [done|]. simpl. apply suffix_drop.
Qed.

Lemma external_calm w : calm w → ∃ w', external w = (Return None, w') ∧ settles w w'.
Proof.
  intros Hc. eexists. split; [by apply external_calm_run|apply settles_drop].
Qed.

(** A row of defaults added for a user who does not have one row leaves the
    limits of every user as they are. *)
Lemma limits_materialised userId w u :
  (∀ settings, settingsOf userId (World.db w) ≠ [settings]) →
  limits (World.set_db (Db.set_linkedin_settings
            (λ rows, rows ++ [(userId, defaultSettings)])) w) u = limits w u.
Proof.
  intros Hnot. unfold limits, settingsOf. simpl.
  rewrite filter_app, fmap_app.
  destruct (decide (userId = u)) as [<-|Hne].
  - rewrite filter_cons_True, filter_nil by done. simpl.
    specialize (λ settings, Hnot settings). unfold settingsOf in Hnot.
    destruct ((filter (λ row, row.1 = userId) (Db.linkedin_settings (World.db w))).*2)
      as [|s1 [|s2 rest]]; simpl; [done| |done].
    by destruct (Hnot s1).
  - rewrite filter_cons_False, filter_nil by (simpl; congruence).
    by rewrite app_nil_r.
Qed.

(** [loadLinkedInSettings] never throws. *)
Lemma loadLinkedInSettings_returns userId w :
  ∃ settings w', loadLinkedInSettings userId w = (Return settings, w').
Proof.
  unfold loadLinkedInSettings. rewrite bind_unfold, single_run.
  destruct (head (World.faults w) ≫= id) as [e|].
  - rewrite bind_unfold, external_run.
    destruct (head _ ≫= id); exec; eauto.
  - destruct (settingsOf userId (World.db w)) as [|s [|]]; cbv beta iota;
      try (rewrite bind_unfold, external_run; destruct (head _ ≫= id); exec; eauto).
    exec. eauto.
Qed.

(** When the store answers, [loadLinkedInSettings] returns the limits in
    force and leaves them in force. *)
Lemma loadLinkedInSettings_spec userId w :
  calm w →
  ∃ w', loadLinkedInSettings userId w = (Return (limits w userId), w') ∧ settles w w'.
Proof.
  intros Hc. unfold loadLinkedInSettings. rewrite bind_unfold, single_run, calm_head by done.
  pose proof (calm_drop 1 w Hc) as Hc1.
  assert (Hinsert : (∀ settings, settingsOf userId (World.db w) ≠ [settings]) →
    ∃ w', (insertError ← external;
           match insertError with
           | Some _ => mret defaultSettings
           | None =>
               modify (World.set_db (Db.set_linkedin_settings
                 (λ rows, rows ++ [(userId, defaultSettings)])));;
               mret defaultSettings
           end) (World.set_faults (drop 1) w) = (Return defaultSettings, w')
          ∧ settles w w').
  { intros Hnot. rewrite bind_unfold, external_calm_run by done. exec.
    eexists. split; [reflexivity|].
    exists (drop 1 ∘ drop 1), (λ rows, rows ++ [(userId, defaultSettings)]).
    split; [by destruct w as [? ? [] ? ? ? ? ? ? ? ? ?]|]. split.
    - intros u. rewrite <- (limits_materialised userId w u Hnot). done.
    - simpl. etrans; apply suffix_drop. }
  unfold limits.
  destruct (settingsOf userId (World.db w)) as [|s [|s' rest]] eqn:Hrows; cbv beta iota.
  - apply Hinsert. done.
  - exec. eexists. split; [reflexivity|apply settles_drop].
  - apply Hinsert. done.
Qed.

Lemma loadLinkedInSettings_found userId settings w :
  head (World.faults w) ≫= id = None →
  settingsOf userId (World.db w) = [settings] →
  loadLinkedInSettings userId w = (Return settings, World.set_faults (drop 1) w).
Proof.
  intros Hhead Hrow. unfold loadLinkedInSettings.
  by rewrite bind_unfold, single_run, Hhead, Hrow.
Qed.

Lemma getDailyUsage_answered userId w :
  head (World.faults w) ≫= id = None →
  getDailyUsage userId None w = (Return (usageToday w userId), World.set_faults (drop 1) w).
Proof.
  intros Hhead. unfold getDailyUsage, usageToday. exec. rewrite single_run, Hhead.
  by destruct (Db.daily_usage (World.db w) !! (userId, utc_day (World.clock w))).
Qed.

(** [getDailyUsage] never throws and writes nothing. *)
Lemma getDailyUsage_returns userId date w :
  ∃ usage, getDailyUsage userId date w = (Return usage, World.set_faults (drop 1) w).
Proof.
  unfold getDailyUsage. exec. rewrite single_run.
  destruct (head (World.faults w) ≫= id); [by eauto|].
  destruct (option_list _) as [|u [|]]; by eauto.
Qed.

Lemma getDailyUsage_spec userId w :
  calm w →
  getDailyUsage userId None w = (Return (usageToday w userId), World.set_faults (drop 1) w).
Proof. intros Hc. by apply getDailyUsage_answered, calm_head. Qed.

(** [getRemainingQuotas] never throws: it returns the limits it loaded less
    the usage it read, clamped at zero. *)
Lemma getRemainingQuotas_returns userId w :
  ∃ settings usage w1 w2,
    loadLinkedInSettings userId w = (Return settings, w1)
    ∧ getDailyUsage userId None w1 = (Return usage, w2)
    ∧ getRemainingQuotas userId w = (Return (quotasOf settings usage), w2).
Proof.
  destruct (loadLinkedInSettings_returns userId w) as (settings & w1 & Hload).
  destruct (getDailyUsage_returns userId None w1) as (usage & Husage).
  exists settings, usage, w1, (World.set_faults (drop 1) w1). split; [done|]. split; [done|].
  unfold getRemainingQuotas. by rewrite bind_unfold, Hload, bind_unfold, Husage.
Qed.

Lemma getRemainingQuotas_spec userId w :
  calm w →
  ∃ q w', getRemainingQuotas userId w = (Return q, w')
          ∧ (∀ k, remaining_of k q = remaining w userId k)
          ∧ settles w w'.
Proof.
  intros Hc. destruct (loadLinkedInSettings_spec userId w Hc) as (w' & Hload & Hs).
  unfold getRemainingQuotas. rewrite bind_unfold, Hload, bind_unfold.
  rewrite getDailyUsage_spec by (by eapply settles_calm).
  rewrite (settles_usageToday w w') by done.
  eexists _, _. split; [reflexivity|]. split.
  - by intros [].
  - eapply settles_trans; [done|apply settles_drop].
Qed.

Lemma getMaxActionsForRun_spec userId k n w :
  calm w →
  ∃ w', getMaxActionsForRun userId k n w = (Return (Z.min n (remaining w userId k)), w')
        ∧ settles w w'.
Proof.
  intros Hc. destruct (getRemainingQuotas_spec userId w Hc) as (q & w' & Hq & Hrem & Hs).
  exists w'. split; [|done].
  unfold getMaxActionsForRun. rewrite bind_unfold, Hq. rewrite <- Hrem. by destruct k.
Qed.

(** The two tests of the quota read the same quotas. *)
Lemma hasRemainingQuota_and_getMaxActionsForRun userId k n w :
  ∃ q w', getRemainingQuotas userId w = (Return q, w')
    ∧ hasRemainingQuota userId k (Some n) w = (Return (remaining_of k q >=? n), w')
    ∧ getMaxActionsForRun userId k n w = (Return (Z.min n (remaining_of k q)), w')
    ∧ 0 ≤ remaining_of k q.
Proof.
  destruct (getRemainingQuotas_returns userId w) as (settings & usage & w1 & w2 & _ & _ & Hq).
  exists (quotasOf settings usage), w2. split; [done|].
  unfold hasRemainingQuota, getMaxActionsForRun.
  rewrite !bind_unfold, Hq. destruct k; simpl; (split_and!; [done|done|lia]).
Qed.

Lemma logUsageAndLimits_spec userId w :
  calm w →
  ∃ w', logUsageAndLimits userId w = (Return (), w') ∧ settles w w'.
Proof.
  intros Hc. destruct (loadLinkedInSettings_spec userId w Hc) as (w1 & H1 & Hs1).
  pose proof (settles_calm w w1 Hs1 Hc) as Hc1.
  pose proof (calm_drop 1 w1 Hc1) as Hc2.
  destruct (getRemainingQuotas_spec userId _ Hc2) as (q & w2 & H2 & _ & Hs2).
  exists w2. unfold logUsageAndLimits.
  rewrite bind_unfold, H1, bind_unfold, getDailyUsage_spec, bind_unfold, H2 by done.
  split; [done|]. eapply settles_trans; [done|].
  eapply settles_trans; [apply settles_drop|done].
Qed.

End quota.

Lemma external_or_throw_calm w :
  calm w →
  ∃ rest, external_or_throw w = (Return (), World.set_faults (λ _, rest) w)
          ∧ ∀ o, o ∈ rest → o = None.
Proof.
  intros Hc. unfold external_or_throw, external. rewrite bind_unfold.
  destruct (World.faults w) as [|o rest] eqn:Hf.
  - exists []. split; [|by intros o Ho; inversion Ho].
    destruct w; simpl in *; by subst.
  - assert (o = None) as -> by (apply Hc; rewrite Hf; left).
    exists rest. split; [done|]. intros o Ho. apply Hc. rewrite Hf. by right.
Qed.

Lemma external_calm_eq w :
  calm w →
  ∃ rest, external w = (Return None, World.set_faults (λ _, rest) w)
          ∧ ∀ o, o ∈ rest → o = None.
Proof.
  intros Hc. unfold external.
  destruct (World.faults w) as [|o rest] eqn:Hf.
  - exists []. split; [|by intros o Ho; inversion Ho].
    destruct w; simpl in *; by subst.
  - assert (o = None) as -> by (apply Hc; rewrite Hf; left).
    exists rest. split; [done|]. intros o Ho. apply Hc. rewrite Hf. by right.
Qed.

Lemma logActivity_returns record w : (SupabaseService.logActivity record w).1 = Return ().
Proof.
  unfold SupabaseService.logActivity, external. rewrite bind_unfold.
  by destruct (World.faults w) as [|[e|] rest].
Qed.

Lemma logActivity_emitted record w :
  SupabaseService.logActivity record w = (Return (), emitted record w).
Proof.
  unfold emitted. pose proof (logActivity_returns record w) as H.
  destruct (SupabaseService.logActivity record w) as [o w']. simpl in *. by subst.
Qed.

Lemma try_catch_return {A} (m : M A) (h : Error.t → M A) w a w' :
  m w = (Return a, w') → try_catch m h w = (Return a, w').
Proof. intros H. unfold try_catch. by rewrite H. Qed.

Lemma try_catch_throw {A} (m : M A) (h : Error.t → M A) w e w' :
  m w = (Throw e, w') → try_catch m h w = h e w'.
Proof. intros H. unfold try_catch. by rewrite H. Qed.

(** In a calm world the record is appended to the activity log. *)
Lemma logActivity_calm record w :
  calm w →
  ∃ rest, SupabaseService.logActivity record w =
            (Return (), World.set_db (Db.set_activity_logs (λ l, l ++ [record]))
                          (World.set_faults (λ _, rest) w))
          ∧ ∀ o, o ∈ rest → o = None.
Proof.
  intros Hc. unfold SupabaseService.logActivity, external. rewrite bind_unfold.
  destruct (World.faults w) as [|o rest] eqn:Hf.
  - exists []. split; [|by intros o Ho; inversion Ho].
    destruct w; simpl in *; by subst.
  - assert (o = None) as -> by (apply Hc; rewrite Hf; left).
    exists rest. split; [done|]. intros o Ho. apply Hc. rewrite Hf. by right.
Qed.

(** Answers the next external call of the goal, in a calm world. *)
Ltac calm_call H :=
  rewrite ?bind_unfold;
  lazymatch goal with
  | |- context [external_or_throw ?w] =>
      let rest := fresh "rest" in
      let Hcall := fresh "Hcall" in
      let Hrest := fresh "Hrest" in
      destruct (external_or_throw_calm w H) as (rest & Hcall & Hrest);
      rewrite Hcall; clear Hcall; cbv beta iota
  end.


(** ** The follow-request processor up to its quota gate *)

Section processor.
Import LinkedInSettingsService.

(** The three reads that precede the gate, when the store answers the
    next call. *)
Lemma checkTrialStatus_in_trial userId createdAt w :
  head (World.faults w) ≫= id = None →
  Db.profiles (World.db w) !! userId = Some createdAt →
  World.clock w - createdAt ≤ 7 * (1000 * 60 * 60 * 24) →
  BaseProcessor.checkTrialStatus userId w = (Return true, World.set_faults (drop 1) w).
Proof.
  intros Hhead Hprof Htrial. unfold BaseProcessor.checkTrialStatus, try_catch.
  rewrite bind_unfold, single_run, Hhead, Hprof. exec.
  by rewrite bool_decide_eq_true_2.
Qed.

Lemma getCampaign_found campaignId campaign w :
  head (World.faults w) ≫= id = None →
  Db.linkedin_campaigns (World.db w) !! campaignId = Some campaign →
  BaseProcessor.getCampaign campaignId w = (Return campaign, World.set_faults (drop 1) w).
Proof.
  intros Hhead H. unfold BaseProcessor.getCampaign, SupabaseService.getCampaign, try_catch.
  rewrite !bind_unfold, single_run, Hhead, H. by exec.
Qed.

Lemma getLinkedInAccount_found userId accountData w :
  head (World.faults w) ≫= id = None →
  Db.linkedin_accounts (World.db w) !! userId = Some accountData →
  BaseProcessor.getLinkedInAccount userId w =
    (Return accountData, World.set_faults (drop 1) w).
Proof.
  intros Hhead H.
  unfold BaseProcessor.getLinkedInAccount, SupabaseService.getLinkedInAccount, try_catch.
  rewrite !bind_unfold, single_run, Hhead, H. by exec.
Qed.

(** The checks of a job that reaches the gate, when the store answers. *)
Lemma process_checks job campaign w :
  calm w →
  reaches_gate w job campaign →
  ∃ accountData,
    Db.linkedin_accounts (World.db w) !! JobData.userId (Job.data job) = Some accountData
    ∧ BaseProcessor.checkTrialStatus (JobData.userId (Job.data job)) w =
        (Return true, World.set_faults (drop 1) w)
    ∧ BaseProcessor.getCampaign (JobData.campaignId (Job.data job))
        (World.set_faults (drop 1) w) =
        (Return campaign, World.set_faults (drop 1) (World.set_faults (drop 1) w))
    ∧ BaseProcessor.getLinkedInAccount (JobData.userId (Job.data job))
        (World.set_faults (drop 1) (World.set_faults (drop 1) w)) =
        (Return accountData,
         World.set_faults (drop 1) (World.set_faults (drop 1) (World.set_faults (drop 1) w))).
Proof.
  intros Hc ((createdAt & Hprof & Htrial) & Hcamp & Hactive & [accountData Hacc]).
  exists accountData. split; [done|].
  pose proof (calm_drop 1 w Hc) as Hc1.
  pose proof (calm_drop 1 _ Hc1) as Hc2.
  split_and!.
  - by eapply checkTrialStatus_in_trial; [apply calm_head|..].
  - by apply getCampaign_found; [apply calm_head|].
  - by apply getLinkedInAccount_found; [apply calm_head|].
Qed.

(** A job that reaches the gate is granted [min(requested, remaining)], in a
    world that differs from the first by settled settings alone. *)
Lemma process_reaches_gate job campaign w :
  calm w →
  reaches_gate w job campaign →
  ∃ accountData w1,
    Db.linkedin_accounts (World.db w) !! JobData.userId (Job.data job) = Some accountData
    ∧ settles w w1
    ∧ FollowRequestProcessor.process job w =
      try_catch
        (afterGate job campaign accountData
           (Z.min (requestedConnections job)
                  (remaining w (JobData.userId (Job.data job)) ActionType.connections)))
        (λ error, BaseProcessor.handleJobError job error;; throw error) w1.
Proof.
  intros Hc Hgate.
  destruct (process_checks job campaign w Hc Hgate) as (accountData & Hacc & Htrial & Hcamp & Hget).
  destruct Hgate as (_ & _ & Hactive & _).
  set (userId := JobData.userId (Job.data job)) in *.
  set (w0 := World.set_faults (drop 1) (World.set_faults (drop 1) (World.set_faults (drop 1) w))) in *.
  assert (Hs0 : settles w w0).
  { eapply settles_trans; [apply settles_drop|].
    eapply settles_trans; apply settles_drop. }
  pose proof (settles_calm w w0 Hs0 Hc) as Hc0.
  destruct (logUsageAndLimits_spec userId w0 Hc0) as (wa & Hlog & Hsa).
  pose proof (settles_calm w0 wa Hsa Hc0) as Hca.
  destruct (getMaxActionsForRun_spec userId ActionType.connections
              (requestedConnections job) wa Hca) as (wb & Hmax & Hsb).
  pose proof (settles_calm wa wb Hsb Hca) as Hcb.
  destruct (getRemainingQuotas_spec userId wb Hcb) as (q & wc & Hq & _ & Hsc).
  exists accountData, wc. split; [done|]. split.
  { eapply settles_trans; [exact Hs0|]. eapply settles_trans; [exact Hsa|].
    by eapply settles_trans. }
  unfold FollowRequestProcessor.process, try_catch. fold userId.
  rewrite (bind_return _ _ _ _ _ Htrial).
  cbn [negb].
  rewrite (bind_return _ _ _ _ _ Hcamp).
  unfold BaseProcessor.isCampaignActive. rewrite bool_decide_eq_true_2 by done.
  cbn [negb].
  rewrite (bind_return _ _ _ _ _ Hget).
  rewrite (bind_return _ _ _ _ _ Hlog).
  fold (requestedConnections job).
  rewrite (bind_return _ _ _ _ _ Hmax).
  rewrite (bind_return _ _ _ _ _ Hq).
  rewrite (settles_remaining w0 wa) by done.
  rewrite (settles_remaining w w0) by done.
  reflexivity.
Qed.

End processor.

(** ** Claims on the quota manager *)

Section quota_claims.
Import LinkedInSettingsService.

(** Every field of a record of the world that the settings and the faults
    do not hold is the same in two worlds one of which settles the other. *)
Lemma settles_frame {X} (f : World.t → X) w w' :
  (∀ g h v, f (World.set_faults g (World.set_db (Db.set_linkedin_settings h) v)) = f v) →
  settles w w' → f w' = f w.
Proof. intros Hf (g & h & -> & _). apply Hf. Qed.



(** C10.  For every state, user, resource kind and requested count [n],
    [hasRemainingQuota(userId, kind, n)] is true if and only if
    [getMaxActionsForRun(userId, kind, n)] returns exactly [n]; the two calls
    leave the same world behind. *)
Theorem hasRemainingQuota_iff_not_clamped
    (w : World.t) (userId : string) (k : ActionType.t) (n : Z) :
  ∃ has granted w',
    hasRemainingQuota userId k (Some n) w = (Return has, w')
    ∧ getMaxActionsForRun userId k n w = (Return granted, w')
    ∧ (has = true ↔ granted = n).
Proof.
  destruct (hasRemainingQuota_and_getMaxActionsForRun userId k n w)
    as (q & w' & _ & Hhas & Hmax & _).
  eexists _, _, w'. split; [exact Hhas|]. split; [exact Hmax|].
  rewrite Z.geb_le. lia.
Qed.

Lemma createPendingJob_calm userId campaignId jobType actionType requestedCount w :
  calm w →
  ∃ w1, settles w w1
    ∧ createPendingJob userId campaignId jobType actionType requestedCount w =
      (Return (),
       World.set_db (λ d, Db.set_row_seq S (Db.set_pending_jobs (λ rows, rows ++ [
          {| PendingJob.id := pretty (Db.row_seq (World.db w));
             PendingJob.user_id := userId;
             PendingJob.campaign_id := campaignId;
             PendingJob.job_type := jobType;
             PendingJob.action_type := actionType;
             PendingJob.requested_count := requestedCount;
             PendingJob.retry_count := 0;
             PendingJob.max_retries := 3;
             PendingJob.created_at := World.clock w |}]) d)) w1).
Proof.
  intros Hc. destruct (external_calm w Hc) as (w1 & Hext & Hs).
  exists w1. split; [done|].
  unfold createPendingJob. rewrite (bind_return _ _ _ _ _ Hext). exec.
  rewrite (settles_frame World.clock w w1) by done.
  by rewrite (settles_frame (λ v, Db.row_seq (World.db v)) w w1).
Qed.


End quota_claims.



(** ** The session manager *)

(** Splits a goal [keeps P m] along the structure of [m]; what is left are
    the calls of other methods and the side conditions on the writes. *)
Ltac keeps_split :=
  repeat (intros;
    lazymatch goal with
    | |- keeps _ (mret _) => apply keeps_ret
    | |- keeps _ (throw _) => apply keeps_throw
    | |- keeps _ (read _) => apply keeps_read
    | |- keeps _ (_ ≫= _) => apply keeps_bind
    | |- keeps _ (try_catch _ _) => apply keeps_try_catch
    | |- keeps _ (for_each _ _) => apply keeps_for_each
    | |- keeps _ external => apply keeps_external
    | |- keeps _ external_or_throw => apply keeps_external_or_throw
    | |- keeps _ (modify _) => apply keeps_modify
    | |- keeps _ (match ?x with _ => _ end) => destruct x
    | _ => fail
    end);
  intros.

(** What the methods of [SessionService] keep: any property that does not
    depend on the faults, on Chrome or on the timers, and that stands the
    three writes the service makes to its map. *)
Section session_work.
Import SessionService.

Variable P : World.t → Prop.
Hypothesis P_faults : ∀ g w, P w → P (World.set_faults g w).
Hypothesis P_browsers : ∀ g w, P w → P (World.set_browsers g w).
Hypothesis P_pages : ∀ g w, P w → P (World.set_pages g w).
Hypothesis P_timers : ∀ g w, P w → P (World.set_timers g w).
Hypothesis P_puppeteerBrowser : ∀ g w, P w → P (World.set_puppeteerBrowser g w).
Hypothesis P_store : ∀ userId s w,
  BrowserSessionInfo.userId s = userId → P w → P (World.set_sessions <[userId := s]> w).
Hypothesis P_touch : ∀ userId s now w,
  World.sessions w !! userId = Some s →
  P w → P (World.set_sessions <[userId := BrowserSessionInfo.touch now s]> w).
Hypothesis P_delete : ∀ userId w, P w → P (World.set_sessions (delete userId) w).

Lemma keeps_goto page url : keeps P (Puppeteer.goto page url).
Proof. unfold Puppeteer.goto. keeps_split; auto. Qed.

Lemma keeps_screenshot page type quality :
  keeps P (Puppeteer.screenshot page type quality).
Proof. unfold Puppeteer.screenshot. keeps_split; auto. Qed.

Lemma keeps_close browser : keeps P (Puppeteer.close browser).
Proof. unfold Puppeteer.close. keeps_split; auto. Qed.

Lemma keeps_launchBrowser : keeps P launchBrowser.
Proof.
  unfold launchBrowser, puppeteerService, Browser.PuppeteerService.launchBrowser,
    Browser.PuppeteerService.launch.
  keeps_split; auto.
Qed.

Lemma keeps_createPage browser : keeps P (createPage browser).
Proof.
  unfold createPage, puppeteerService, Browser.PuppeteerService.createPage,
    Browser.PuppeteerService.newPage, Browser.PuppeteerService.setUserAgent.
  keeps_split; auto.
Qed.

Lemma keeps_openLoginPage : keeps P openLoginPage.
Proof.
  unfold openLoginPage. keeps_split.
  - apply keeps_launchBrowser.
  - apply keeps_createPage.
  - apply keeps_goto.
Qed.

Lemma keeps_registerSession userId browser page :
  keeps P (registerSession userId browser page).
Proof.
  unfold registerSession. keeps_split; auto. apply keeps_screenshot.
Qed.

Lemma keeps_createSession userId : keeps P (createSession userId).
Proof.
  unfold createSession. keeps_split.
  - apply keeps_openLoginPage.
  - apply keeps_registerSession.
Qed.

Lemma keeps_getSession userId : keeps P (getSession userId).
Proof.
  intros w Hw. unfold getSession. exec.
  destruct (World.sessions w !! userId) as [s|] eqn:Hs; simpl; auto.
Qed.

Lemma keeps_updateSessionActivity userId : keeps P (updateSessionActivity userId).
Proof.
  intros w Hw. unfold updateSessionActivity. exec.
  destruct (World.sessions w !! userId) as [s|] eqn:Hs; simpl; auto.
Qed.




Lemma keeps_closeSession userId : keeps P (closeSession userId).
Proof.
  unfold closeSession. keeps_split; auto. apply keeps_close.
Qed.


Lemma keeps_acquireSession userId :
  keeps P (LinkedInAutomationService.acquireSession userId).
Proof.
  unfold LinkedInAutomationService.acquireSession, Puppeteer.isClosed. keeps_split.
  - apply keeps_getSession.
  - apply keeps_updateSessionActivity.
  - apply keeps_createSession.
  - apply keeps_closeSession.
  - apply keeps_createSession.
Qed.

End session_work.


Section sessions.
Import SessionService.







Lemma acquireSession_beside_sessions userId w :
  beside_sessions w (LinkedInAutomationService.acquireSession userId w).2.
Proof. by apply (keeps_acquireSession (beside_sessions w)). Qed.


End sessions.

(** ** The run of the follow requests *)

(** What [sendFollowRequests] and the methods under it keep: any property
    that stands an external call answered, time passing, a page moving, a
    list read off the page, and the writes of the run: to the activity log,
    to the connections and to the campaigns. *)
Section run_work.
Import FollowRequestProcessor.

Variable P : World.t → Prop.
Hypothesis P_faults : ∀ g w, P w → P (World.set_faults g w).
Hypothesis P_clock : ∀ ms w, 0 ≤ ms → P w → P (World.set_clock (λ now, now + ms) w).
Hypothesis P_pages : ∀ g w, P w → P (World.set_pages g w).
Hypothesis P_linkedin : ∀ g w, P w → P (World.set_linkedin g w).
Hypothesis P_logs : ∀ g w, P w → P (World.set_db (Db.set_activity_logs g) w).
Hypothesis P_campaigns : ∀ g w, P w → P (World.set_db (Db.set_linkedin_campaigns g) w).
Hypothesis P_connections : ∀ g w, P w → P (World.set_db (Db.set_linkedin_connections g) w).
Hypothesis P_row_seq : ∀ g w, P w → P (World.set_db (Db.set_row_seq g) w).

Lemma run_keeps_delay ms : 0 ≤ ms → keeps P (BaseProcessor.delay ms).
Proof. intros Hms. unfold BaseProcessor.delay. keeps_split. by apply P_clock. Qed.

Lemma run_keeps_command : keeps P Puppeteer.command.
Proof. unfold Puppeteer.command. keeps_split; auto. Qed.

Lemma run_keeps_goto page url : keeps P (Puppeteer.goto page url).
Proof. unfold Puppeteer.goto. keeps_split; auto. Qed.

Lemma run_keeps_logActivity userId campaignId jobType level message context :
  keeps P (BaseProcessor.logActivity userId campaignId jobType level message context).
Proof.
  unfold BaseProcessor.logActivity, SupabaseService.logActivity. keeps_split; auto.
Qed.

Lemma run_keeps_listItems page : keeps P (listItems page).
Proof. unfold listItems. keeps_split; auto. apply run_keeps_command. Qed.

Lemma run_keeps_updateCampaignProcessedCount campaignId count :
  keeps P (updateCampaignProcessedCount campaignId count).
Proof. unfold updateCampaignProcessedCount. keeps_split; auto. Qed.

Lemma run_keeps_insertConnection campaign person :
  keeps P (insertConnection campaign person).
Proof.
  unfold insertConnection. keeps_split; auto.
  match goal with
  | |- P (World.set_db (λ d, Db.set_row_seq ?f (Db.set_linkedin_connections ?g d)) ?v) =>
      change (P (World.set_db (Db.set_row_seq f)
                   (World.set_db (Db.set_linkedin_connections g) v)))
  end.
  auto.
Qed.

Lemma run_keeps_maybeSingle {A} (rows : Db.t → list A) :
  keeps P (Postgrest.maybeSingle rows).
Proof. unfold Postgrest.maybeSingle. keeps_split; auto. Qed.

Lemma run_keeps_sendInvitation campaign connectionName :
  keeps P (sendInvitation campaign connectionName).
Proof.
  unfold sendInvitation.
  keeps_split; try apply run_keeps_command; try (apply run_keeps_delay; lia).
Qed.

Lemma run_keeps_processPersonConnection page card person campaign :
  keeps P (processPersonConnection page card person campaign).
Proof.
  unfold processPersonConnection.
  keeps_split; try apply run_keeps_command; try (apply run_keeps_delay; lia);
    try apply run_keeps_logActivity.
  - apply run_keeps_maybeSingle.
  - apply run_keeps_sendInvitation.
  - apply run_keeps_insertConnection.
Qed.

Lemma run_keeps_processPersonConnectionViaSearch page person campaign :
  keeps P (processPersonConnectionViaSearch page person campaign).
Proof.
  unfold processPersonConnectionViaSearch, Puppeteer.url.
  keeps_split; try apply run_keeps_command; try (apply run_keeps_delay; lia);
    try apply run_keeps_goto.
  - apply run_keeps_listItems.
  - apply run_keeps_processPersonConnection.
Qed.

Lemma run_keeps_markSent id : keeps P (markSent id).
Proof. unfold markSent. keeps_split; auto. Qed.

Lemma run_keeps_processCsvProfile page profile campaign :
  keeps P (processCsvProfile page profile campaign).
Proof.
  unfold processCsvProfile, extractPeopleFromSearchResults.
  keeps_split; try apply run_keeps_command; try (apply run_keeps_delay; lia);
    try apply run_keeps_goto.
  - apply run_keeps_listItems.
  - apply run_keeps_processPersonConnection.
  - apply run_keeps_markSent.
Qed.

Lemma run_keeps_goToNextPage page view : keeps P (goToNextPage page view).
Proof.
  unfold goToNextPage.
  keeps_split; try apply run_keeps_command; try (apply run_keeps_delay; lia).
Qed.

Lemma run_keeps_connectEach connect over campaign importLimit people followed :
  (∀ card, keeps P (connect card)) →
  keeps P (connectEach connect over campaign importLimit people followed).
Proof.
  intros Hconnect. revert followed.
  induction people as [|person people IH]; intros followed; simpl.
  - apply keeps_ret.
  - keeps_split; auto. apply run_keeps_updateCampaignProcessedCount.
Qed.

Lemma run_keeps_pagesLoop turns page campaign importLimit maxDurationMs startTime followed :
  keeps P (pagesLoop turns page campaign importLimit maxDurationMs startTime followed).
Proof.
  revert followed. induction turns as [|turns IH]; intros followed; simpl.
  - apply keeps_ret.
  - unfold extractPeopleFromSearchResults. keeps_split; auto.
    + apply run_keeps_listItems.
    + apply run_keeps_connectEach. intros card. apply run_keeps_processPersonConnection.
    + apply run_keeps_goToNextPage.
Qed.

Lemma run_keeps_scrollLoop turns page campaign importLimit maxDurationMs startTime followed :
  keeps P (scrollLoop turns page campaign importLimit maxDurationMs startTime followed).
Proof.
  revert followed. induction turns as [|turns IH]; intros followed; simpl.
  - apply keeps_ret.
  - unfold extractReactorsFromPage. keeps_split; auto.
    + apply run_keeps_command.
    + apply run_keeps_delay. lia.
    + apply run_keeps_listItems.
    + apply run_keeps_connectEach. intros card.
      apply run_keeps_processPersonConnectionViaSearch.
Qed.

Lemma run_keeps_csvEach page campaign maxDurationMs startTime profiles followed :
  keeps P (csvEach page campaign maxDurationMs startTime profiles followed).
Proof.
  revert followed. induction profiles as [|profile profiles IH]; intros followed; simpl.
  - apply keeps_ret.
  - keeps_split; auto.
    + apply run_keeps_processCsvProfile.
    + apply run_keeps_updateCampaignProcessedCount.
Qed.

Lemma run_keeps_sendFollowRequests page campaign importLimit maxDurationMs :
  keeps P (sendFollowRequests page campaign importLimit maxDurationMs).
Proof.
  unfold sendFollowRequests, countConnections, processSearchCampaign,
    processReactionsCampaign, processCommentsCampaign, processPostCampaign,
    processEventCampaign, processCsvCampaign.
  keeps_split; auto; try apply run_keeps_command; try (apply run_keeps_delay; lia);
    try apply run_keeps_goto; try apply run_keeps_pagesLoop;
    try apply run_keeps_scrollLoop; try apply run_keeps_csvEach.
Qed.

End run_work.

(** ** The run and its limit *)

(** The steps of the run that write no row to [linkedin_connections]. *)
Section rows_kept.
Import FollowRequestProcessor.

Variable P : World.t → Prop.
Hypothesis P_rows : ∀ w w',
  Db.linkedin_connections (World.db w') = Db.linkedin_connections (World.db w) →
  P w → P w'.










End rows_kept.

Section run_bounds.
Import FollowRequestProcessor.












Lemma within_budget budget importLimit o v :
  within_after budget importLimit o v → connectionRows v ≤ budget.
Proof. destruct o; simpl; [|done]. unfold within. lia. Qed.





End run_bounds.

(** ** The turns of the loops *)

(** The loops of the run are written with a number of turns.  The numbers
    [processSearchCampaign], [processEventCampaign] and the two campaigns on
    a post give them are enough: with more turns the loops do the same. *)
Section run_turns.
Import FollowRequestProcessor.

(** Proves that a step of the run does not turn the clock back. *)
Local Ltac onward :=
  intros; simpl; try lia; try done.

Lemma clock_listItems c page : keeps (λ v, c ≤ World.clock v) (listItems page).
Proof. apply run_keeps_listItems; onward. Qed.

Lemma clock_command c : keeps (λ v, c ≤ World.clock v) Puppeteer.command.
Proof. apply run_keeps_command; onward. Qed.

Lemma clock_delay c ms :
  0 ≤ ms →
  ensures (λ v, c ≤ World.clock v) (BaseProcessor.delay ms)
    (λ o v, o = Return () ∧ c + ms ≤ World.clock v).
Proof. intros Hms w Hw. simpl in *. split; [done|lia]. Qed.

Lemma clock_processPersonConnection c page card person campaign :
  keeps (λ v, c ≤ World.clock v) (processPersonConnection page card person campaign).
Proof. apply run_keeps_processPersonConnection; onward. Qed.

Lemma clock_processPersonConnectionViaSearch c page person campaign :
  keeps (λ v, c ≤ World.clock v) (processPersonConnectionViaSearch page person campaign).
Proof. apply run_keeps_processPersonConnectionViaSearch; onward. Qed.

Lemma clock_connectEach c connect over campaign importLimit people followed :
  (∀ card, keeps (λ v, c ≤ World.clock v) (connect card)) →
  keeps (λ v, c ≤ World.clock v)
    (connectEach connect over campaign importLimit people followed).
Proof. intros Hconnect. apply run_keeps_connectEach; onward. Qed.

(** A page turned has taken three seconds. *)
Lemma clock_goToNextPage c page view :
  ensures (λ v, c ≤ World.clock v) (goToNextPage page view)
    (λ o v, o = Return true → c + 3000 ≤ World.clock v).
Proof.
  unfold goToNextPage.
  apply (ensures_try_catch _ (λ _ _, True)).
  2:{ intros e. apply ensures_ret. by intros w _ [=]. }
  apply ensures_bind_keeps; [apply clock_command|done|]. intros _.
  apply (ensures_bind _ (λ _ v, c + 2000 ≤ World.clock v)).
  { eapply ensures_weaken; [apply (clock_delay c 2000); lia|done|].
    by intros [[]|e] v [? ?]. }
  intros _.
  apply ensures_bind_keeps; [apply clock_command|done|]. intros _.
  destruct (LinkedIn.nextBtn view).
  - apply ensures_ret. by intros w _ [=].
  - apply ensures_bind_keeps; [apply clock_command|done|]. intros _.
    apply ensures_ret. by intros w _ [=].
  - apply ensures_bind_keeps; [apply clock_command|done|]. intros _.
    apply ensures_bind_keeps; [apply clock_command|done|]. intros _.
    apply (ensures_bind _ (λ _ v, c + 3000 ≤ World.clock v)).
    { eapply ensures_weaken; [apply (clock_delay (c + 2000) 1000); lia|done|].
      intros [[]|e] v [? ?]; [lia|done]. }
    intros _. apply ensures_ret. by intros w Hw _.
Qed.

(** In two computations that start alike, the rest matters only where the
    start returns. *)
Lemma bind_rest {A B} (m : M A) (k1 k2 : A → M B) w :
  (∀ a w', m w = (Return a, w') → k1 a w' = k2 a w') →
  (m ≫= k1) w = (m ≫= k2) w.
Proof.
  intros H. rewrite !bind_unfold. destruct (m w) as [[a|e] w']; [|done]. by apply H.
Qed.

Lemma pagesLoop_turns n page campaign importLimit maxDurationMs startTime followed w :
  maxDurationMs - (World.clock w - startTime) ≤ 3000 * Z.of_nat n →
  pagesLoop (S n) page campaign importLimit maxDurationMs startTime followed w =
  pagesLoop n page campaign importLimit maxDurationMs startTime followed w.
Proof.
  revert followed w. induction n as [|n IH]; intros followed w Htime.
  - simpl. rewrite bind_unfold. unfold read at 1. cbv beta iota.
    rewrite bool_decide_eq_false_2; [done|]. lia.
  - change (pagesLoop (S (S n)) page campaign importLimit maxDurationMs startTime followed w)
      with ((now ← read World.clock;
             if bool_decide (followed < Campaign.total_profiles campaign
                             ∧ followed < importLimit
                             ∧ now - startTime < maxDurationMs)
             then
               people ← extractPeopleFromSearchResults page;
               followed ← connectEach
                 (λ card, processPersonConnection page card (LinkedIn.person card) campaign)
                 (λ now, bool_decide (now - startTime > maxDurationMs))
                 campaign importLimit (LinkedIn.cards people) followed;
               hasNext ← goToNextPage page people;
               if hasNext : bool
               then pagesLoop (S n) page campaign importLimit maxDurationMs startTime followed
               else mret followed
             else mret followed) w).
    change (pagesLoop (S n) page campaign importLimit maxDurationMs startTime followed w)
      with ((now ← read World.clock;
             if bool_decide (followed < Campaign.total_profiles campaign
                             ∧ followed < importLimit
                             ∧ now - startTime < maxDurationMs)
             then
               people ← extractPeopleFromSearchResults page;
               followed ← connectEach
                 (λ card, processPersonConnection page card (LinkedIn.person card) campaign)
                 (λ now, bool_decide (now - startTime > maxDurationMs))
                 campaign importLimit (LinkedIn.cards people) followed;
               hasNext ← goToNextPage page people;
               if hasNext : bool
               then pagesLoop n page campaign importLimit maxDurationMs startTime followed
               else mret followed
             else mret followed) w).
    apply bind_rest. intros now w0 [= <- <-].
    destruct (bool_decide _); [|done].
    apply bind_rest. intros people w1 Hlist.
    apply bind_rest. intros followed' w2 Heach.
    apply bind_rest. intros hasNext w3 Hnext.
    destruct hasNext; [|done].
    apply IH.
    pose proof (clock_listItems (World.clock w) page w (Z.le_refl _)) as H1.
    unfold extractPeopleFromSearchResults in Hlist. rewrite Hlist in H1. simpl in H1.
    pose proof (clock_connectEach (World.clock w)
      (λ card, processPersonConnection page card (LinkedIn.person card) campaign)
      (λ now, bool_decide (now - startTime > maxDurationMs))
      campaign importLimit (LinkedIn.cards people) followed
      (λ card, clock_processPersonConnection _ _ _ _ _) w1 H1) as H2.
    rewrite Heach in H2. simpl in H2.
    pose proof (clock_goToNextPage (World.clock w) page people w2 H2) as H3.
    rewrite Hnext in H3. simpl in H3. specialize (H3 eq_refl). lia.
Qed.

Lemma scrollLoop_turns n page campaign importLimit maxDurationMs startTime followed w :
  maxDurationMs - (World.clock w - startTime) ≤ 2000 * Z.of_nat n →
  scrollLoop (S n) page campaign importLimit maxDurationMs startTime followed w =
  scrollLoop n page campaign importLimit maxDurationMs startTime followed w.
Proof.
  revert followed w. induction n as [|n IH]; intros followed w Htime.
  - simpl. rewrite bind_unfold. unfold read at 1. cbv beta iota.
    rewrite bool_decide_eq_false_2; [done|]. lia.
  - change (scrollLoop (S (S n)) page campaign importLimit maxDurationMs startTime followed w)
      with ((now ← read World.clock;
             if bool_decide (followed < importLimit ∧ now - startTime < maxDurationMs)
             then
               Puppeteer.command;;
               BaseProcessor.delay 2000;;
               people ← extractReactorsFromPage page;
               followed ← connectEach
                 (λ card, processPersonConnectionViaSearch page (LinkedIn.person card) campaign)
                 (λ now, bool_decide (now - startTime >= maxDurationMs))
                 campaign importLimit (LinkedIn.cards people) followed;
               scrollLoop (S n) page campaign importLimit maxDurationMs startTime followed
             else mret followed) w).
    change (scrollLoop (S n) page campaign importLimit maxDurationMs startTime followed w)
      with ((now ← read World.clock;
             if bool_decide (followed < importLimit ∧ now - startTime < maxDurationMs)
             then
               Puppeteer.command;;
               BaseProcessor.delay 2000;;
               people ← extractReactorsFromPage page;
               followed ← connectEach
                 (λ card, processPersonConnectionViaSearch page (LinkedIn.person card) campaign)
                 (λ now, bool_decide (now - startTime >= maxDurationMs))
                 campaign importLimit (LinkedIn.cards people) followed;
               scrollLoop n page campaign importLimit maxDurationMs startTime followed
             else mret followed) w).
    apply bind_rest. intros now w0 [= <- <-].
    destruct (bool_decide _); [|done].
    apply bind_rest. intros [] w1 Hscroll.
    apply bind_rest. intros [] w2 Hwait.
    apply bind_rest. intros people w3 Hlist.
    apply bind_rest. intros followed' w4 Heach.
    apply IH.
    pose proof (clock_command (World.clock w) w (Z.le_refl _)) as H1.
    rewrite Hscroll in H1. simpl in H1.
    pose proof (clock_delay (World.clock w) 2000 ltac:(lia) w1 H1) as [_ H2].
    rewrite Hwait in H2. simpl in H2.
    pose proof (clock_listItems (World.clock w + 2000) page w2 H2) as H3.
    unfold extractReactorsFromPage in Hlist. rewrite Hlist in H3. simpl in H3.
    pose proof (clock_connectEach (World.clock w + 2000)
      (λ card, processPersonConnectionViaSearch page (LinkedIn.person card) campaign)
      (λ now, bool_decide (now - startTime >= maxDurationMs))
      campaign importLimit (LinkedIn.cards people) followed
      (λ card, clock_processPersonConnectionViaSearch _ _ _ _) w3 H3) as H4.
    rewrite Heach in H4. simpl in H4. lia.
Qed.

(** The turns given are enough when the loop starts at or after
    [startTime]. *)
Lemma turns_enough step maxDurationMs startTime w (extra : nat) :
  0 < step →
  startTime ≤ World.clock w →
  maxDurationMs - (World.clock w - startTime)
    ≤ step * Z.of_nat (turns step maxDurationMs + extra).
Proof.
  intros Hstep Hstart. unfold turns.
  assert (maxDurationMs < step * (maxDurationMs `div` step + 1)).
  { pose proof (Z.mul_div_le maxDurationMs step Hstep).
    pose proof (Z.mod_pos_bound maxDurationMs step Hstep).
    pose proof (Z.div_mod maxDurationMs step). lia. }
  destruct (decide (0 ≤ maxDurationMs `div` step)) as [Hpos|Hneg].
  - rewrite Nat2Z.inj_add, Nat2Z.inj_succ, Z2Nat.id by done. nia.
  - assert (maxDurationMs < 0).
    { destruct (decide (maxDurationMs < 0)); [done|].
      exfalso. apply Hneg. apply Z.div_pos; lia. }
    nia.
Qed.

Lemma pagesLoop_turns_enough (extra : nat) page campaign importLimit maxDurationMs
    startTime followed w :
  startTime ≤ World.clock w →
  pagesLoop (turns 3000 maxDurationMs + extra) page campaign importLimit maxDurationMs
    startTime followed w =
  pagesLoop (turns 3000 maxDurationMs) page campaign importLimit maxDurationMs
    startTime followed w.
Proof.
  intros Hstart. induction extra as [|extra IH].
  - by rewrite Nat.add_0_r.
  - rewrite Nat.add_succ_r, pagesLoop_turns; [done|].
    by apply turns_enough.
Qed.

Lemma scrollLoop_turns_enough (extra : nat) page campaign importLimit maxDurationMs
    startTime followed w :
  startTime ≤ World.clock w →
  scrollLoop (turns 2000 maxDurationMs + extra) page campaign importLimit maxDurationMs
    startTime followed w =
  scrollLoop (turns 2000 maxDurationMs) page campaign importLimit maxDurationMs
    startTime followed w.
Proof.
  intros Hstart. induction extra as [|extra IH].
  - by rewrite Nat.add_0_r.
  - rewrite Nat.add_succ_r, scrollLoop_turns; [done|].
    by apply turns_enough.
Qed.

End run_turns.

(** ** What a follow-request job leaves alone *)

(** What [FollowRequestProcessor.process] keeps: any property that stands
    the external calls answered, the work on the sessions, the run, and the
    rows of settings the quota manager adds; with [P_pending], the pending
    jobs it records as well. *)
Section process_work.
Import LinkedInSettingsService.

Variable P : World.t → Prop.
Hypothesis P_faults : ∀ g w, P w → P (World.set_faults g w).
Hypothesis P_clock : ∀ ms w, 0 ≤ ms → P w → P (World.set_clock (λ now, now + ms) w).
Hypothesis P_browsers : ∀ g w, P w → P (World.set_browsers g w).
Hypothesis P_pages : ∀ g w, P w → P (World.set_pages g w).
Hypothesis P_timers : ∀ g w, P w → P (World.set_timers g w).
Hypothesis P_puppeteerBrowser : ∀ g w, P w → P (World.set_puppeteerBrowser g w).
Hypothesis P_sessions : ∀ g w, P w → P (World.set_sessions g w).
Hypothesis P_linkedin : ∀ g w, P w → P (World.set_linkedin g w).
Hypothesis P_settings : ∀ g w, P w → P (World.set_db (Db.set_linkedin_settings g) w).
Hypothesis P_logs : ∀ g w, P w → P (World.set_db (Db.set_activity_logs g) w).
Hypothesis P_campaigns : ∀ g w, P w → P (World.set_db (Db.set_linkedin_campaigns g) w).
Hypothesis P_connections : ∀ g w, P w → P (World.set_db (Db.set_linkedin_connections g) w).
Hypothesis P_row_seq : ∀ g w, P w → P (World.set_db (Db.set_row_seq g) w).
Hypothesis P_pending : ∀ g w, P w → P (World.set_db (Db.set_pending_jobs g) w).

Lemma work_keeps_single {A} (rows : Db.t → list A) : keeps P (Postgrest.single rows).
Proof. unfold Postgrest.single. keeps_split; auto. Qed.

Lemma work_keeps_checkTrialStatus userId : keeps P (BaseProcessor.checkTrialStatus userId).
Proof.
  unfold BaseProcessor.checkTrialStatus. keeps_split; auto. apply work_keeps_single.
Qed.

Lemma work_keeps_getCampaign campaignId : keeps P (BaseProcessor.getCampaign campaignId).
Proof.
  unfold BaseProcessor.getCampaign, SupabaseService.getCampaign.
  keeps_split; auto. apply work_keeps_single.
Qed.

Lemma work_keeps_getLinkedInAccount userId :
  keeps P (BaseProcessor.getLinkedInAccount userId).
Proof.
  unfold BaseProcessor.getLinkedInAccount, SupabaseService.getLinkedInAccount.
  keeps_split; auto. apply work_keeps_single.
Qed.

Lemma work_keeps_loadLinkedInSettings userId : keeps P (loadLinkedInSettings userId).
Proof.
  unfold loadLinkedInSettings. keeps_split; auto; apply work_keeps_single.
Qed.

Lemma work_keeps_getDailyUsage userId date : keeps P (getDailyUsage userId date).
Proof. unfold getDailyUsage. keeps_split; auto. apply work_keeps_single. Qed.

Lemma work_keeps_getRemainingQuotas userId : keeps P (getRemainingQuotas userId).
Proof.
  unfold getRemainingQuotas. keeps_split.
  - apply work_keeps_loadLinkedInSettings.
  - apply work_keeps_getDailyUsage.
Qed.

Lemma work_keeps_getMaxActionsForRun userId k n : keeps P (getMaxActionsForRun userId k n).
Proof. unfold getMaxActionsForRun. keeps_split. apply work_keeps_getRemainingQuotas. Qed.

Lemma work_keeps_logUsageAndLimits userId : keeps P (logUsageAndLimits userId).
Proof.
  unfold logUsageAndLimits. keeps_split.
  - apply work_keeps_loadLinkedInSettings.
  - apply work_keeps_getDailyUsage.
  - apply work_keeps_getRemainingQuotas.
Qed.

Lemma work_keeps_logActivity userId campaignId jobType level message context :
  keeps P (BaseProcessor.logActivity userId campaignId jobType level message context).
Proof. by apply run_keeps_logActivity. Qed.

Lemma work_keeps_handleJobError job error :
  keeps P (BaseProcessor.handleJobError job error).
Proof. unfold BaseProcessor.handleJobError. apply work_keeps_logActivity. Qed.

Lemma work_keeps_acquireSession userId :
  keeps P (LinkedInAutomationService.acquireSession userId).
Proof. apply keeps_acquireSession; auto. Qed.

(** [runWithLogin] keeps what the action keeps. *)
Lemma work_keeps_runWithLogin {T} campaign accountData
    (runFn : LinkedInAutomationService.RunArgs → M T) :
  (∀ args, keeps P (runFn args)) →
  keeps P (LinkedInAutomationService.runWithLogin campaign accountData runFn).
Proof.
  intros HrunFn.
  unfold LinkedInAutomationService.runWithLogin, Puppeteer.url, SupabaseService.logActivity.
  keeps_split; auto.
  apply work_keeps_acquireSession.
Qed.

Lemma work_keeps_sendFollowRequests page campaign importLimit maxDurationMs :
  keeps P (FollowRequestProcessor.sendFollowRequests page campaign importLimit maxDurationMs).
Proof. by apply run_keeps_sendFollowRequests. Qed.


Lemma work_keeps_createPendingJob userId campaignId jobType actionType requestedCount :
  keeps P (createPendingJob userId campaignId jobType actionType requestedCount).
Proof.
  unfold createPendingJob. keeps_split; auto.
  match goal with
  | |- P (World.set_db (λ d, Db.set_row_seq ?f (Db.set_pending_jobs ?g d)) ?v) =>
      change (P (World.set_db (Db.set_row_seq f) (World.set_db (Db.set_pending_jobs g) v)))
  end.
  auto.
Qed.

Lemma work_keeps_process job : keeps P (FollowRequestProcessor.process job).
Proof.
  unfold FollowRequestProcessor.process. keeps_split.
  - apply work_keeps_checkTrialStatus.
  - apply work_keeps_getCampaign.
  - apply work_keeps_getLinkedInAccount.
  - apply work_keeps_logUsageAndLimits.
  - apply work_keeps_getMaxActionsForRun.
  - apply work_keeps_getRemainingQuotas.
  - apply work_keeps_createPendingJob.
  - apply work_keeps_logActivity.
  - apply work_keeps_runWithLogin. intros args. apply work_keeps_sendFollowRequests.
  - apply work_keeps_handleJobError.
Qed.

End process_work.

(** ** Claims on the session manager and the automation runner *)

Section session_claims.
Import SessionService.

(** C9.  Reading a session writes to it: for a user with a session in the
    map, [getSession] returns the session with [lastActivity] set to the
    current time and stores it so, every other field and every other user's
    session being as before.  The world it leaves is the one an explicit
    [updateSessionActivity] leaves; [hasActiveSession] and [getSessionInfo],
    which only call [getSession], leave it too.  So the read pushes expiry
    back: [cleanupSession] finds the session expired only once more than the
    timeout has passed since the read. *)
Theorem getSession_resets_inactivity_clock
    (w : World.t) (userId : string) (session : BrowserSessionInfo.t) :
  World.sessions w !! userId = Some session →
  ∃ touched w',
    getSession userId w = (Return (Some touched), w')
    ∧ w' = World.set_sessions <[userId := touched]> w
    ∧ BrowserSessionInfo.lastActivity touched = World.clock w
    ∧ BrowserSessionInfo.browser touched = BrowserSessionInfo.browser session
    ∧ BrowserSessionInfo.page touched = BrowserSessionInfo.page session
    ∧ BrowserSessionInfo.isLoggedIn touched = BrowserSessionInfo.isLoggedIn session
    ∧ BrowserSessionInfo.createdAt touched = BrowserSessionInfo.createdAt session
    ∧ BrowserSessionInfo.userId touched = BrowserSessionInfo.userId session
    ∧ BrowserSessionInfo.sessionId touched = BrowserSessionInfo.sessionId session
    ∧ (∀ other, other ≠ userId → World.sessions w' !! other = World.sessions w !! other)
    ∧ updateSessionActivity userId w = (Return (), w')
    ∧ LinkedInAutomationService.hasActiveSession userId w = (Return true, w')
    ∧ LinkedInAutomationService.getSessionInfo userId w = (Return (Some touched), w')
    ∧ (∀ idle, idle ≤ timeoutMs →
         World.sessions (cleanupSession userId (advance idle w')).2 !! userId = Some touched)
    ∧ (∀ idle, timeoutMs < idle → calm w' →
         World.sessions (cleanupSession userId (advance idle w')).2 !! userId = None).
Proof.
  intros Hs.
  exists (BrowserSessionInfo.touch (World.clock w) session),
         (World.set_sessions <[userId := BrowserSessionInfo.touch (World.clock w) session]> w).
  split_and!; try done.
  - unfold getSession. exec. by rewrite Hs.
  - intros other Hne. simpl. by rewrite lookup_insert_ne.
  - unfold updateSessionActivity. exec. by rewrite Hs.
  - unfold LinkedInAutomationService.hasActiveSession, getSession. exec. by rewrite Hs.
  - unfold LinkedInAutomationService.getSessionInfo, getSession. exec. by rewrite Hs.
  - intros idle Hidle. unfold cleanupSession. exec.
    rewrite lookup_insert_eq. exec.
    rewrite bool_decide_eq_false_2 by lia. simpl.
    by rewrite lookup_insert_eq.
  - intros idle Hidle Hcalm. unfold cleanupSession. exec.
    rewrite lookup_insert_eq. exec.
    rewrite bool_decide_eq_true_2 by lia.
    unfold closeSession, try_catch, Puppeteer.close. exec.
    rewrite lookup_insert_eq.
    calm_call Hcalm. exec. by rewrite lookup_delete_eq.
Qed.

(** The session of the example, read a minute after it was opened. *)
Lemma getSession_resets_inactivity_clock_witness :
  World.sessions (Example.world_in_session 0) !! "user-1" = Some Example.session
  ∧ ∃ touched w',
      getSession "user-1" (Example.world_in_session 0) = (Return (Some touched), w')
      ∧ BrowserSessionInfo.lastActivity touched = Example.now
      ∧ BrowserSessionInfo.sessionId touched = "user-1_1700172740000"
      ∧ updateSessionActivity "user-1" (Example.world_in_session 0) = (Return (), w').
Proof.
  assert (Hs : World.sessions (Example.world_in_session 0) !! "user-1" = Some Example.session)
    by reflexivity.
  split; [exact Hs|].
  destruct (getSession_resets_inactivity_clock (Example.world_in_session 0) "user-1"
              Example.session Hs)
    as (touched & w' & Hget & _ & Hlast & _ & _ & _ & _ & _ & Hid & _ & Htouch & _).
  exists touched, w'. split; [exact Hget|]. split; [exact Hlast|]. split; [exact Hid|exact Htouch].
Defined.

(** Run without interruption, the task is the method. *)
Lemma complete_getOrCreateSessionTask userId w :
  complete (getOrCreateSessionTask userId) w = getOrCreateSession userId w.
Proof.
  unfold getOrCreateSessionTask, getOrCreateSession. simpl. rewrite !bind_unfold.
  destruct (getSession userId w) as [[[s|]|e] w1]; simpl; try done.
  rewrite bind_unfold. by destruct (createSession userId w1) as [[s|e] w2].
Qed.




(** C8, as stated, fails.  [runWithLogin] is called for a user without a
    session when the login page cannot be reached: [createSession] throws
    inside the [try], the "failed" record is the only one written, no
    "started" record comes before it, and the action is never run. *)
Lemma runWithLogin_failed_without_started :
  ∃ w',
    LinkedInAutomationService.runWithLogin Example.campaign Example.account
      (λ _, mret 7) (Example.world_offline 0)
    = (Throw Example.navigationTimeout, w')
    ∧ Db.activity_logs (World.db w') =
        [LinkedInAutomationService.failedRecord Example.campaign Example.navigationTimeout].
Proof. eexists. split; [vm_compute; reflexivity|]. by vm_compute. Qed.

(** C8, amended.  For every invocation of [runWithLogin]: getting the
    session writes no activity record.  When it throws, the action is not
    run, one "failed" record is written and the error is rethrown as it is.
    When it returns, a "started" record is written before the action runs,
    and exactly one record after it: "completed" when the action returns,
    its result being returned as it is, "failed" when the action throws, the
    error being rethrown as it is. *)
Theorem runWithLogin_brackets_the_action {T}
    (campaign : Campaign.t) (accountData : LinkedInAccount.t)
    (runFn : LinkedInAutomationService.RunArgs → M T) (w : World.t) :
  ∃ w1,
    Db.activity_logs (World.db w1) = Db.activity_logs (World.db w)
    ∧ ((∃ error,
          LinkedInAutomationService.acquireSession (Campaign.user_id campaign) w
            = (Throw error, w1)
          ∧ LinkedInAutomationService.runWithLogin campaign accountData runFn w
            = (Throw error, emitted (LinkedInAutomationService.failedRecord campaign error) w1))
       ∨ (∃ session currentUrl,
            LinkedInAutomationService.acquireSession (Campaign.user_id campaign) w
              = (Return session, w1)
            ∧ ((∃ result w3,
                  runFn (LinkedInAutomationService.mkRunArgs
                           (BrowserSessionInfo.browser session)
                           (BrowserSessionInfo.page session) campaign accountData)
                        (emitted (LinkedInAutomationService.startedRecord campaign currentUrl) w1)
                    = (Return result, w3)
                  ∧ LinkedInAutomationService.runWithLogin campaign accountData runFn w
                    = (Return result,
                       emitted (LinkedInAutomationService.completedRecord campaign) w3))
               ∨ (∃ error w3,
                    runFn (LinkedInAutomationService.mkRunArgs
                             (BrowserSessionInfo.browser session)
                             (BrowserSessionInfo.page session) campaign accountData)
                          (emitted (LinkedInAutomationService.startedRecord campaign currentUrl) w1)
                      = (Throw error, w3)
                    ∧ LinkedInAutomationService.runWithLogin campaign accountData runFn w
                      = (Throw error,
                         emitted (LinkedInAutomationService.failedRecord campaign error) w3))))).
Proof.
  pose proof (acquireSession_beside_sessions (Campaign.user_id campaign) w) as (Hdb & _).
  unfold LinkedInAutomationService.runWithLogin.
  destruct (LinkedInAutomationService.acquireSession (Campaign.user_id campaign) w)
    as [[session|error] w1] eqn:Hacq; simpl in Hdb.
  - exists w1. split; [by rewrite Hdb|]. right.
    set (currentUrl := from_option PageState.url "" (World.pages w1 !! BrowserSessionInfo.page session)).
    exists session, currentUrl. split; [done|].
    assert (Hurl : Puppeteer.url (BrowserSessionInfo.page session) w1 = (Return currentUrl, w1))
      by reflexivity.
    destruct (runFn _ (emitted (LinkedInAutomationService.startedRecord campaign currentUrl) w1))
      as [[result|error] w3] eqn:Hrun.
    + left. exists result, w3. split; [done|]. apply try_catch_return.
      rewrite (bind_return _ _ _ _ _ Hacq), (bind_return _ _ _ _ _ Hurl).
      rewrite (bind_return _ _ _ _ _ (logActivity_emitted _ _)).
      rewrite (bind_return _ _ _ _ _ Hrun).
      by rewrite (bind_return _ _ _ _ _ (logActivity_emitted _ _)).
    + right. exists error, w3. split; [done|].
      erewrite try_catch_throw.
      * by rewrite (bind_return _ _ _ _ _ (logActivity_emitted _ _)).
      * rewrite (bind_return _ _ _ _ _ Hacq), (bind_return _ _ _ _ _ Hurl).
        rewrite (bind_return _ _ _ _ _ (logActivity_emitted _ _)).
        by rewrite (bind_throw _ _ _ _ _ Hrun).
  - exists w1. split; [by rewrite Hdb|]. left. exists error. split; [done|].
    erewrite try_catch_throw.
    + by rewrite (bind_return _ _ _ _ _ (logActivity_emitted _ _)).
    + by rewrite (bind_throw _ _ _ _ _ Hacq).
Qed.

End session_claims.
(** ** Claims on the follow-request processor *)

Section processor_claims.
Import LinkedInSettingsService.






(** The usage table is as it was after a job, however the job ended. *)
Lemma process_keeps_daily_usage job usage :
  keeps (λ v, Db.daily_usage (World.db v) = usage) (FollowRequestProcessor.process job).
Proof. by apply work_keeps_process. Qed.






End processor_claims.

(** ** Claims on the scheduler's reconciliation *)

Section scheduler_claims.
Import LinkedInSettingsService.

#[local] Instance created_before_total : Total created_before.
Proof. intros a b. unfold created_before. lia. Qed.

Lemma elem_of_selectedPendingJobs w p :
  p ∈ selectedPendingJobs w ↔
  p ∈ Db.pending_jobs (World.db w) ∧ PendingJob.retry_count p ≤ 3.
Proof.
  unfold selectedPendingJobs. rewrite merge_sort_Permutation, list_elem_of_filter.
  unfold processable. tauto.
Qed.

Lemma selectedPendingJobs_db w w' :
  World.db w' = World.db w → selectedPendingJobs w' = selectedPendingJobs w.
Proof. unfold selectedPendingJobs. by intros ->. Qed.

(** [getProcessablePendingJobs] returns the selection when the store answers,
    and nothing when it does not; it writes nothing to the store. *)
Lemma getProcessablePendingJobs_spec w :
  ∃ jobs w',
    getProcessablePendingJobs w = (Return jobs, w')
    ∧ World.db w' = World.db w
    ∧ World.queue w' = World.queue w
    ∧ (jobs = selectedPendingJobs w ∨ jobs = [])
    ∧ (calm w → calm w' ∧ jobs = selectedPendingJobs w).
Proof.
  unfold getProcessablePendingJobs, external. rewrite bind_unfold.
  destruct (World.faults w) as [|[e|] rest] eqn:Hf; exec.
  - eexists _, _. split; [reflexivity|]. split_and!; auto.
  - eexists _, _. split; [reflexivity|]. split_and!; auto.
    intros Hc. discriminate (Hc (Some e)). rewrite Hf. left.
  - eexists _, _. split; [reflexivity|]. split_and!; auto.
    intros Hc. split; [|done]. intros o Ho. apply Hc. rewrite Hf. by right.
Qed.

(** One turn of the loop of [processPendingJobs]. *)
Lemma promote_one pendingJob w :
  ∃ w' added,
    try_catch
      (_ ← QueueService.addJob JobType.processPendingJobs
             (PendingJob.user_id pendingJob) "system"
             (Some (SchedulerService.pendingPayload pendingJob));
       mret ())
      (λ _, mret ()) w = (Return (), w')
    ∧ World.db w' = World.db w
    ∧ World.queue w' = World.queue w ++ added
    ∧ (∀ job, job ∈ added → promotes pendingJob job)
    ∧ (calm w → calm w' ∧ Job.data <$> added = [reconciliationData pendingJob]).
Proof.
  unfold try_catch, QueueService.addJob, BullMQ.add, external_or_throw, external.
  rewrite !bind_unfold.
  destruct (World.faults w) as [|[e|] rest] eqn:Hf; exec.
  - eexists _, [_]. split; [reflexivity|]. simpl. split_and!; try done.
    intros job ->%list_elem_of_singleton. done.
  - exists (World.set_faults (λ _, rest) w), []. rewrite app_nil_r. split_and!; try done.
    + intros job Hjob. inversion Hjob.
    + intros Hc. discriminate (Hc (Some e)). rewrite Hf. left.
  - eexists _, [_]. split; [reflexivity|]. simpl. split_and!; try done.
    + intros job ->%list_elem_of_singleton. done.
    + intros Hc. split; [|done]. intros o Ho. apply Hc. rewrite Hf. by right.
Qed.

Lemma promote_all pendingJobs w :
  ∃ w' added,
    for_each pendingJobs (λ pendingJob,
      try_catch
        (_ ← QueueService.addJob JobType.processPendingJobs
               (PendingJob.user_id pendingJob) "system"
               (Some (SchedulerService.pendingPayload pendingJob));
         mret ())
        (λ _, mret ())) w = (Return (), w')
    ∧ World.db w' = World.db w
    ∧ World.queue w' = World.queue w ++ added
    ∧ (∀ job, job ∈ added → ∃ pendingJob, pendingJob ∈ pendingJobs ∧ promotes pendingJob job)
    ∧ (calm w → calm w' ∧ Job.data <$> added = reconciliationData <$> pendingJobs).
Proof.
  revert w. induction pendingJobs as [|p ps IH]; intros w.
  - exists w, []. rewrite app_nil_r. split_and!; try done.
    intros job Hjob. inversion Hjob.
  - destruct (promote_one p w) as (w1 & added1 & Hrun1 & Hdb1 & Hq1 & Hin1 & Hcalm1).
    destruct (IH w1) as (w2 & added2 & Hrun2 & Hdb2 & Hq2 & Hin2 & Hcalm2).
    exists w2, (added1 ++ added2). simpl. rewrite bind_unfold, Hrun1, Hrun2.
    split_and!; try done.
    + congruence.
    + by rewrite Hq2, Hq1, app_assoc.
    + intros job [Hjob|Hjob]%elem_of_app.
      * exists p. split; [left|auto].
      * destruct (Hin2 job Hjob) as (q & Hq & Hpromotes). exists q. split; [by right|done].
    + intros Hc. destruct (Hcalm1 Hc) as [Hc1 Hd1]. destruct (Hcalm2 Hc1) as [Hc2 Hd2].
      split; [done|]. by rewrite fmap_app, Hd1, Hd2.
Qed.

(** The pass writes nothing to the store; what it adds to the queue are
    real jobs for selected pending jobs, and, when Postgres and Redis answer,
    one for each of them, in order. *)
Lemma processPendingJobs_spec w :
  ∃ w' added,
    SchedulerService.processPendingJobs w = (Return (), w')
    ∧ World.db w' = World.db w
    ∧ World.queue w' = World.queue w ++ added
    ∧ (∀ job, job ∈ added →
         ∃ pendingJob, pendingJob ∈ selectedPendingJobs w ∧ promotes pendingJob job)
    ∧ (calm w → calm w' ∧ Job.data <$> added = reconciliationData <$> selectedPendingJobs w).
Proof.
  destruct (getProcessablePendingJobs_spec w) as (jobs & w1 & Hget & Hdb1 & Hq1 & Hjobs & Hcalm1).
  unfold SchedulerService.processPendingJobs. unfold try_catch at 1.
  rewrite bind_unfold, Hget.
  destruct (decide (jobs = [])) as [->|Hne].
  - rewrite bool_decide_eq_true_2 by done. exists w1, []. rewrite app_nil_r.
    split_and!; try done.
    + intros job Hjob. inversion Hjob.
    + intros Hc. destruct (Hcalm1 Hc) as [Hc1 <-]. done.
  - rewrite bool_decide_eq_false_2 by done.
    destruct (promote_all jobs w1) as (w2 & added & Hrun & Hdb2 & Hq2 & Hin & Hcalm2).
    cbv beta iota. rewrite Hrun. exists w2, added. split_and!; try done.
    + congruence.
    + by rewrite Hq2, Hq1.
    + destruct Hjobs as [->| ->]; [done|]. done.
    + intros Hc. destruct (Hcalm1 Hc) as [Hc1 <-]. auto.
Qed.

Lemma completePendingJob_calm jobId w :
  calm w →
  ∃ w', completePendingJob jobId w = (Return (), w')
        ∧ Db.pending_jobs (World.db w') =
            filter (λ j, PendingJob.id j ≠ jobId) (Db.pending_jobs (World.db w))
        ∧ calm w'.
Proof.
  intros Hc. unfold completePendingJob, external. rewrite bind_unfold.
  destruct (World.faults w) as [|o rest] eqn:Hf; exec.
  - eexists. split; [reflexivity|]. split; [done|]. intros o Ho. simpl in Ho.
    rewrite Hf in Ho. inversion Ho.
  - assert (o = None) as -> by (apply Hc; rewrite Hf; left). exec.
    eexists. split; [reflexivity|]. split; [done|]. intros o Ho. apply Hc.
    rewrite Hf. by right.
Qed.

(** C6, as stated, fails.  A pending job that has used its three retries
    (its retry count is 3, its max retries 3) is not strictly under the max,
    yet the pass selects it and enqueues a job for it. *)
Lemma reconciliation_selects_job_at_max_retries :
  ¬ PendingJob.retry_count (Example.pendingJob 3) < PendingJob.max_retries (Example.pendingJob 3)
  ∧ (∃ w', getProcessablePendingJobs (Example.world_with_pending 3)
           = (Return [Example.pendingJob 3], w'))
  ∧ ∃ w', SchedulerService.processPendingJobs (Example.world_with_pending 3) = (Return (), w')
          ∧ Job.data <$> World.queue w' = [reconciliationData (Example.pendingJob 3)].
Proof.
  split; [by vm_compute|]. split.
  - eexists. vm_compute. reflexivity.
  - eexists. split; [vm_compute; reflexivity|]. by vm_compute.
Qed.

(** C6, amended.  The hourly pass selects exactly the pending jobs whose
    retry count is at most 3, the max retries every pending job is created
    with, oldest first; so a job whose retry count equals its max retries is
    still selected, and one whose retry count exceeds 3 never is.  Every job
    the pass enqueues is made for a selected pending job and carries its id,
    its resource kind and its requested amount; when Postgres and Redis
    answer, one job is enqueued for each selected pending job, in order. *)
Theorem reconciliation_selects_retry_count_at_most_3 (w : World.t) :
  ∃ w' added,
    SchedulerService.processPendingJobs w = (Return (), w')
    ∧ World.queue w' = World.queue w ++ added
    ∧ (∀ p, p ∈ selectedPendingJobs w ↔
            p ∈ Db.pending_jobs (World.db w) ∧ PendingJob.retry_count p ≤ 3)
    ∧ Sorted created_before (selectedPendingJobs w)
    ∧ (∀ job, job ∈ added →
         ∃ p, p ∈ Db.pending_jobs (World.db w) ∧ PendingJob.retry_count p ≤ 3
              ∧ promotes p job
              ∧ JobData.data (Job.data job) ≫= Payload.pendingJobId = Some (PendingJob.id p)
              ∧ JobData.data (Job.data job) ≫= Payload.actionType = Some (PendingJob.action_type p)
              ∧ JobData.data (Job.data job) ≫= Payload.requestedCount
                = Some (PendingJob.requested_count p))
    ∧ (calm w →
         (∃ w1, getProcessablePendingJobs w = (Return (selectedPendingJobs w), w1))
         ∧ Job.data <$> added = reconciliationData <$> selectedPendingJobs w).
Proof.
  destruct (processPendingJobs_spec w) as (w' & added & Hrun & _ & Hq & Hin & Hcalm).
  exists w', added. split_and!; try done.
  - apply elem_of_selectedPendingJobs.
  - apply Sorted_merge_sort, _.
  - intros job Hjob. destruct (Hin job Hjob) as (p & Hp & Hpromotes).
    apply elem_of_selectedPendingJobs in Hp as [Hp Hretry].
    exists p. split_and!; try done; destruct Hpromotes as (_ & _ & ->); done.
  - intros Hc. split; [|by apply Hcalm].
    destruct (getProcessablePendingJobs_spec w) as (jobs & w1 & Hget & _ & _ & _ & Hjobs).
    destruct (Hjobs Hc) as [_ ->]. eauto.
Qed.

(** The pass over one pending job that has used all its retries. *)
Lemma reconciliation_selects_retry_count_at_most_3_witness :
  ∃ w' added,
    SchedulerService.processPendingJobs (Example.world_with_pending 3) = (Return (), w')
    ∧ World.queue w' = added
    ∧ Job.data <$> added = [reconciliationData (Example.pendingJob 3)].
Proof.
  destruct (reconciliation_selects_retry_count_at_most_3 (Example.world_with_pending 3))
    as (w' & added & Hrun & Hq & _ & _ & _ & Hcalm).
  exists w', added. split; [exact Hrun|]. split; [exact Hq|].
  destruct Hcalm as [_ Hdata].
  - intros o Ho. inversion Ho.
  - rewrite Hdata. vm_compute. reflexivity.
Defined.

(** C5, as stated, fails.  The pass enqueues a job for the pending job and
    leaves the pending job in the table; a second pass, nothing having
    changed in between, enqueues a second job for the same pending job. *)
Lemma reconciliation_twice_enqueues_twice :
  ∃ w1 w2,
    SchedulerService.processPendingJobs (Example.world_with_pending 0) = (Return (), w1)
    ∧ Job.data <$> World.queue w1 = [reconciliationData (Example.pendingJob 0)]
    ∧ Db.pending_jobs (World.db w1) = [Example.pendingJob 0]
    ∧ SchedulerService.processPendingJobs w1 = (Return (), w2)
    ∧ Job.data <$> World.queue w2 =
        [reconciliationData (Example.pendingJob 0); reconciliationData (Example.pendingJob 0)]
    ∧ Job.id <$> World.queue w2 = ["1"; "2"].
Proof.
  eexists _, _. split; [vm_compute; reflexivity|].
  split; [by vm_compute|]. split; [by vm_compute|].
  split; [vm_compute; reflexivity|]. by vm_compute.
Qed.

(** C5, amended.  The hourly pass deletes no pending job: it leaves the
    store as it found it.  So a second pass, nothing having changed in
    between, selects what the first selected and, when Postgres and Redis
    answer, enqueues the same work again.  A pending job is deleted by
    [completePendingJob], which the pass does not call; once it has removed
    a pending job, no pass selects that job any more. *)
Theorem reconciliation_deletes_nothing (w : World.t) :
  ∃ w1 added1 w2 added2,
    SchedulerService.processPendingJobs w = (Return (), w1)
    ∧ World.queue w1 = World.queue w ++ added1
    ∧ World.db w1 = World.db w
    ∧ SchedulerService.processPendingJobs w1 = (Return (), w2)
    ∧ World.queue w2 = World.queue w ++ added1 ++ added2
    ∧ World.db w2 = World.db w
    ∧ selectedPendingJobs w1 = selectedPendingJobs w
    ∧ (calm w →
         Job.data <$> added1 = reconciliationData <$> selectedPendingJobs w
         ∧ Job.data <$> added2 = reconciliationData <$> selectedPendingJobs w)
    ∧ (∀ jobId, calm w →
         ∃ w', completePendingJob jobId w = (Return (), w')
               ∧ ∀ p, p ∈ selectedPendingJobs w' → PendingJob.id p ≠ jobId).
Proof.
  destruct (processPendingJobs_spec w) as (w1 & added1 & Hrun1 & Hdb1 & Hq1 & _ & Hcalm1).
  destruct (processPendingJobs_spec w1) as (w2 & added2 & Hrun2 & Hdb2 & Hq2 & _ & Hcalm2).
  exists w1, added1, w2, added2. split_and!; try done.
  - by rewrite Hq2, Hq1, app_assoc.
  - congruence.
  - by apply selectedPendingJobs_db.
  - intros Hc. destruct (Hcalm1 Hc) as [Hc1 Hd1]. destruct (Hcalm2 Hc1) as [_ Hd2].
    split; [done|]. by rewrite Hd2, (selectedPendingJobs_db w w1).
  - intros jobId Hc.
    destruct (completePendingJob_calm jobId w Hc) as (w' & Hdel & Hrows & _).
    exists w'. split; [done|]. intros p [Hp _]%elem_of_selectedPendingJobs.
    rewrite Hrows in Hp. by apply list_elem_of_filter in Hp as [? _].
Qed.

(** Two passes over the pending job of the example. *)
Lemma reconciliation_deletes_nothing_witness :
  ∃ w1 w2,
    SchedulerService.processPendingJobs (Example.world_with_pending 0) = (Return (), w1)
    ∧ World.db w1 = World.db (Example.world_with_pending 0)
    ∧ SchedulerService.processPendingJobs w1 = (Return (), w2)
    ∧ Job.data <$> World.queue w2 =
        [reconciliationData (Example.pendingJob 0); reconciliationData (Example.pendingJob 0)].
Proof.
  destruct (reconciliation_deletes_nothing (Example.world_with_pending 0))
    as (w1 & added1 & w2 & added2 & Hrun1 & _ & Hdb1 & Hrun2 & Hq2 & _ & _ & Hcalm & _).
  exists w1, w2. split; [exact Hrun1|]. split; [exact Hdb1|]. split; [exact Hrun2|].
  destruct Hcalm as [Hd1 Hd2].
  - intros o Ho. inversion Ho.
  - rewrite Hq2. simpl. rewrite fmap_app, Hd1, Hd2. vm_compute. reflexivity.
Defined.

End scheduler_claims.

(** ** Claims on the worker pool *)

(** A turn of the "Follow Response Worker" on a queue whose oldest waiting
    job is of another kind: the job is completed and nothing else changes,
    whatever the processors are. *)
Lemma followResponseWorker_completes_foreign_job deps w i job :
  list_find (λ job, Job.state job = JobState.waiting) (World.queue w) = Some (i, job) →
  JobData.jobType (Job.data job) ≠ JobType.followResponse →
  BullMQ.runNext (WorkerService.followResponseWorker deps) w
  = (Return (Some (Job.id job)),
     World.set_queue <[i := Job.with_state JobState.completed job]>
       (World.set_queue <[i := Job.with_state JobState.active job]> w)).
Proof.
  intros Hfind Hkind. unfold BullMQ.runNext. exec. rewrite Hfind. exec.
  unfold try_catch, WorkerService.followResponseWorker. exec.
  destruct (decide _) as [Heq|_]; [done|]. by exec.
Qed.

(** C1, on the code.  Both workers are workers of the one queue
    [linkedin-automation], so the "Follow Response Worker" can take a waiting
    follow-request job.  Its processor function then does nothing, since the
    job is of another kind, and returns; the job is completed.  Whatever the
    two processors are, neither has run: the world is the one before but for
    the state of the job.  The job is of a registered kind and has reached
    [completed] without being processed by the processor of its kind. *)
Theorem followResponseWorker_completes_followRequest_job_unprocessed
    (deps : WorkerService.Processors) :
  JobData.jobType (Job.data Example.waitingJob) = JobType.followRequest
  ∧ BullMQ.runNext (WorkerService.followResponseWorker deps)
      (World.set_queue (λ _, [Example.waitingJob]) (Example.world 28))
    = (Return (Some "1"),
       World.set_queue (λ _, [Job.with_state JobState.completed Example.waitingJob])
         (Example.world 28)).
Proof. split; reflexivity. Qed.

(** * Further properties of the code *)

(** ** The quota manager *)

Lemma filter_keeps_all {A} (P : A → Prop) `{!∀ x, Decision (P x)} (l : list A) :
  (∀ x, x ∈ l → P x) → filter P l = l.
Proof.
  induction l as [|x l IH]; intros Hall; [done|].
  rewrite filter_cons_True by (apply Hall; left).
  f_equal. apply IH. intros y Hy. apply Hall. by right.
Qed.

Section more_on_quota.
Import LinkedInSettingsService.

(** X1.  For a user without a settings row, when the store answers,
    [loadLinkedInSettings] returns the defaults 30/50/100/0 and adds one row
    with them for the user, in two calls to the store, the read and the
    insert; the rows of the other users are untouched; a second call reads
    that row and returns the same limits in one call, without an insert.
    When the read is answered and the insert fails, the defaults are returned
    all the same and the table is left as it was. *)
Theorem loadLinkedInSettings_materialises_defaults (w : World.t) (userId : string) :
  settingsOf userId (World.db w) = [] →
  (calm w →
     ∃ w1, loadLinkedInSettings userId w = (Return defaultSettings, w1)
           ∧ Db.linkedin_settings (World.db w1) =
               Db.linkedin_settings (World.db w) ++ [(userId, defaultSettings)]
           ∧ World.faults w1 = drop 2 (World.faults w)
           ∧ ∃ w2, loadLinkedInSettings userId w1 = (Return defaultSettings, w2)
                   ∧ Db.linkedin_settings (World.db w2) = Db.linkedin_settings (World.db w1)
                   ∧ World.faults w2 = drop 1 (World.faults w1))
  ∧ (∀ e rest, World.faults w = None :: Some e :: rest →
       loadLinkedInSettings userId w =
         (Return defaultSettings, World.set_faults (λ _, rest) w)).
Proof.
  intros Hnone. split.
  - intros Hc. pose proof (calm_drop 1 w Hc) as Hc1.
    set (w1 := World.set_db (Db.set_linkedin_settings
                 (λ rows, rows ++ [(userId, defaultSettings)]))
                 (World.set_faults (drop 1) (World.set_faults (drop 1) w))).
    assert (Hc2 : calm w1).
    { apply (calm_same_faults (World.set_faults (drop 1) (World.set_faults (drop 1) w)));
        [done|by apply calm_drop]. }
    assert (Hrow : settingsOf userId (World.db w1) = [defaultSettings]).
    { unfold settingsOf in *. simpl. rewrite filter_app, fmap_app, Hnone.
      by rewrite filter_cons_True. }
    exists w1. split_and!.
    + unfold loadLinkedInSettings.
      rewrite bind_unfold, single_run, calm_head, Hnone by done. cbv beta iota.
      rewrite bind_unfold, external_calm_run by done. by exec.
    + done.
    + simpl. by rewrite drop_drop.
    + exists (World.set_faults (drop 1) w1). split; [|done].
      unfold loadLinkedInSettings.
      rewrite bind_unfold, single_run, calm_head, Hrow by done. by exec.
  - intros e rest Hf. unfold loadLinkedInSettings.
    rewrite bind_unfold, single_run, Hf, Hnone. simpl.
    rewrite bind_unfold, external_run. simpl. rewrite Hf. simpl.
    unfold mret, M_ret, World.set_faults. simpl. by rewrite Hf.
Qed.

(** A user the store has never seen. *)
Lemma loadLinkedInSettings_materialises_defaults_witness :
  settingsOf "user-2" (World.db (Example.world 0)) = []
  ∧ ∃ w1, loadLinkedInSettings "user-2" (Example.world 0) = (Return defaultSettings, w1)
          ∧ ∃ w2, loadLinkedInSettings "user-2" w1 = (Return defaultSettings, w2)
                  ∧ Db.linkedin_settings (World.db w2) = Db.linkedin_settings (World.db w1).
Proof.
  assert (Hnone : settingsOf "user-2" (World.db (Example.world 0)) = [])
    by reflexivity.
  split; [exact Hnone|].
  destruct (loadLinkedInSettings_materialises_defaults (Example.world 0) "user-2" Hnone)
    as [Hcalm _].
  destruct Hcalm as (w1 & Hfirst & _ & _ & w2 & Hsecond & Hsame & _).
  { intros o Ho. inversion Ho. }
  exists w1; split; [exact Hfirst|]. exists w2. split; [exact Hsecond|exact Hsame].
Defined.

(** X2.  The gate does not throw, never grants more than was asked for,
    never grants a negative amount to a request that is not negative, and
    grants no less to a larger request.  When the store answers, it grants no
    more than remains and is idempotent: asking again for what was granted
    grants it in full. *)
Theorem getMaxActionsForRun_bounds_and_idempotent
    (w : World.t) (userId : string) (k : ActionType.t) (n : Z) :
  ∃ granted w',
    getMaxActionsForRun userId k n w = (Return granted, w')
    ∧ granted ≤ n
    ∧ (0 ≤ n → 0 ≤ granted)
    ∧ (∀ m, n ≤ m →
         ∃ more w2, getMaxActionsForRun userId k m w = (Return more, w2) ∧ granted ≤ more)
    ∧ (calm w →
         granted ≤ remaining w userId k
         ∧ ∃ w2, getMaxActionsForRun userId k granted w' = (Return granted, w2)).
Proof.
  destruct (hasRemainingQuota_and_getMaxActionsForRun userId k n w)
    as (q & w' & Hq & _ & Hrun & Hpos).
  exists (Z.min n (remaining_of k q)), w'.
  split_and!; [done|lia|lia| |].
  - intros m Hm.
    destruct (hasRemainingQuota_and_getMaxActionsForRun userId k m w)
      as (q2 & w2 & Hq2 & _ & Hrun2 & _).
    rewrite Hq in Hq2. injection Hq2 as <- <-.
    eexists _, w'. split; [exact Hrun2|lia].
  - intros Hc.
    destruct (getMaxActionsForRun_spec userId k n w Hc) as (w1 & Hrun1 & Hs).
    rewrite Hrun in Hrun1. injection Hrun1 as Hgranted <-.
    assert (Hrem : 0 ≤ remaining w userId k) by (unfold remaining; lia).
    split; [lia|].
    destruct (getMaxActionsForRun_spec userId k (Z.min n (remaining_of k q)) w')
      as (w2 & Hrun2 & _).
    { by eapply settles_calm. }
    exists w2. rewrite Hrun2. rewrite (settles_remaining w w') by done.
    do 2 f_equal. lia.
Qed.

(** X3.  [hasRemainingQuota] with the count left out asks for one action; a
    count of zero or less is always within the quota, also for a user who has
    run over the limit; and a user who has quota for [n] actions has quota
    for every smaller count. *)
Theorem hasRemainingQuota_default_and_antitone
    (w : World.t) (userId : string) (k : ActionType.t) :
  hasRemainingQuota userId k None w = hasRemainingQuota userId k (Some 1) w
  ∧ (∀ n, n ≤ 0 → (hasRemainingQuota userId k (Some n) w).1 = Return true)
  ∧ (∀ n m, m ≤ n →
       (hasRemainingQuota userId k (Some n) w).1 = Return true →
       (hasRemainingQuota userId k (Some m) w).1 = Return true).
Proof.
  split_and!.
  - reflexivity.
  - intros n Hn.
    destruct (hasRemainingQuota_and_getMaxActionsForRun userId k n w)
      as (q & w' & _ & -> & _ & Hpos).
    simpl. f_equal. apply Z.geb_le. lia.
  - intros n m Hm.
    destruct (hasRemainingQuota_and_getMaxActionsForRun userId k n w)
      as (q & w1 & Hq & -> & _ & _).
    destruct (hasRemainingQuota_and_getMaxActionsForRun userId k m w)
      as (q2 & w2 & Hq2 & -> & _ & _).
    rewrite Hq in Hq2. injection Hq2 as <- <-.
    simpl. intros [= Hn]. f_equal. apply Z.geb_le. apply Z.geb_le in Hn. lia.
Qed.

(** X4.  Where the store is reachable, a pending job that [createPendingJob]
    records is returned by the next [getProcessablePendingJobs], with the
    fields it was created with, no retry yet and the time of its creation,
    together with every job that was selectable before. *)
Theorem createPendingJob_then_selected
    (w : World.t) (userId campaignId : string) (jobType : JobType.t)
    (actionType : ActionType.t) (requestedCount : Z) :
  calm w →
  ∃ w1 w2 selected,
    createPendingJob userId campaignId jobType actionType requestedCount w = (Return (), w1)
    ∧ getProcessablePendingJobs w1 = (Return selected, w2)
    ∧ {| PendingJob.id := pretty (Db.row_seq (World.db w));
         PendingJob.user_id := userId;
         PendingJob.campaign_id := campaignId;
         PendingJob.job_type := jobType;
         PendingJob.action_type := actionType;
         PendingJob.requested_count := requestedCount;
         PendingJob.retry_count := 0;
         PendingJob.max_retries := 3;
         PendingJob.created_at := World.clock w |} ∈ selected
    ∧ (∀ p, p ∈ selectedPendingJobs w → p ∈ selected)
    ∧ length selected = S (length (selectedPendingJobs w)).
Proof.
  intros Hc.
  destruct (createPendingJob_calm userId campaignId jobType actionType requestedCount w Hc)
    as (w0 & Hs & Hcreate).
  set (w1 := World.set_db _ w0) in Hcreate.
  assert (Hc1 : calm w1) by exact (settles_calm w w0 Hs Hc).
  destruct (getProcessablePendingJobs_spec w1) as (jobs & w2 & Hsel & _ & _ & _ & Hjobs).
  destruct (Hjobs Hc1) as [_ ->].
  exists w1, w2, (selectedPendingJobs w1). split; [done|]. split; [done|].
  assert (Hrows : Db.pending_jobs (World.db w1) =
            Db.pending_jobs (World.db w) ++
            [{| PendingJob.id := pretty (Db.row_seq (World.db w));
                PendingJob.user_id := userId;
                PendingJob.campaign_id := campaignId;
                PendingJob.job_type := jobType;
                PendingJob.action_type := actionType;
                PendingJob.requested_count := requestedCount;
                PendingJob.retry_count := 0;
                PendingJob.max_retries := 3;
                PendingJob.created_at := World.clock w |}]).
  { subst w1. simpl.
    by rewrite (settles_frame (λ v, Db.pending_jobs (World.db v)) w w0). }
  split_and!.
  - apply elem_of_selectedPendingJobs. rewrite Hrows. split.
    + apply elem_of_app. right. by apply list_elem_of_singleton.
    + unfold LinkedInSettingsService.processable. simpl. lia.
  - intros p Hp. apply elem_of_selectedPendingJobs in Hp as [Hp Hok].
    apply elem_of_selectedPendingJobs. rewrite Hrows. split; [|done].
    apply elem_of_app. by left.
  - unfold selectedPendingJobs. rewrite !merge_sort_Permutation, Hrows.
    rewrite filter_app, length_app.
    rewrite filter_cons_True by (unfold LinkedInSettingsService.processable; simpl; lia).
    simpl. lia.
Qed.

(** The store of the example, reachable: the deferred follow request is
    selected by the next reconciliation. *)
Lemma createPendingJob_then_selected_witness :
  calm (Example.world 30)
  ∧ ∃ w1 w2 selected,
      createPendingJob "user-1" "campaign-1" JobType.followRequest
        ActionType.connections 5 (Example.world 30) = (Return (), w1)
      ∧ getProcessablePendingJobs w1 = (Return selected, w2)
      ∧ length selected = 1%nat.
Proof.
  assert (Hc : calm (Example.world 30)) by (intros o Ho; inversion Ho).
  split; [exact Hc|].
  destruct (createPendingJob_then_selected (Example.world 30) "user-1" "campaign-1"
              JobType.followRequest ActionType.connections 5 Hc)
    as (w1 & w2 & selected & Hcreate & Hsel & _ & _ & Hlen).
  exists w1, w2, selected. split; [exact Hcreate|]. split; [exact Hsel|exact Hlen].
Defined.

(** X5.  [completePendingJob] never throws.  When the store accepts the
    delete, exactly the rows with the given id are gone, the others stay in
    their order, and an id that no row carries changes nothing; when the
    store refuses, the caller is told nothing and every row is still
    there. *)
Theorem completePendingJob_removes_that_id_or_nothing (w : World.t) (jobId : string) :
  ∃ w',
    completePendingJob jobId w = (Return (), w')
    ∧ (∀ rest, World.faults w = None :: rest ∨ World.faults w = [] →
         Db.pending_jobs (World.db w') =
           filter (λ j, PendingJob.id j ≠ jobId) (Db.pending_jobs (World.db w))
         ∧ (∀ p, p ∈ Db.pending_jobs (World.db w') ↔
                 p ∈ Db.pending_jobs (World.db w) ∧ PendingJob.id p ≠ jobId)
         ∧ ((∀ p, p ∈ Db.pending_jobs (World.db w) → PendingJob.id p ≠ jobId) →
            Db.pending_jobs (World.db w') = Db.pending_jobs (World.db w)))
    ∧ (∀ e rest, World.faults w = Some e :: rest →
         Db.pending_jobs (World.db w') = Db.pending_jobs (World.db w)).
Proof.
  unfold completePendingJob, external. exec.
  destruct (World.faults w) as [|[e|] rest] eqn:Hf; simpl;
    (eexists; split; [reflexivity|]); simpl.
  - split; [|by intros ? ? [=]]. intros _ _. split_and!; [done| |].
    + intros p. by rewrite list_elem_of_filter, (comm and).
    + intros Hall. by apply filter_keeps_all.
  - split; [|done]. by intros ? [[=]|[=]].
  - split; [|by intros ? ? [=]]. intros _ _. split_and!; [done| |].
    + intros p. by rewrite list_elem_of_filter, (comm and).
    + intros Hall. by apply filter_keeps_all.
Qed.

(** X6.  [cleanupOldPendingJobs] never throws.  When the store accepts the
    delete, the rows that stay are exactly those created at most three days
    (259 200 000 ms) before the clock, whatever their retry count, so a job
    over its retry limit is only ever removed by age; and a second purge at
    the same time removes nothing more. *)
Theorem cleanupOldPendingJobs_purges_by_age_only (w : World.t) :
  ∃ w',
    cleanupOldPendingJobs w = (Return (), w')
    ∧ (calm w →
         (∀ p, p ∈ Db.pending_jobs (World.db w') ↔
               p ∈ Db.pending_jobs (World.db w)
               ∧ World.clock w - purgeAgeMs ≤ PendingJob.created_at p)
         ∧ ∃ w'', cleanupOldPendingJobs w' = (Return (), w'')
                  ∧ Db.pending_jobs (World.db w'') = Db.pending_jobs (World.db w'))
    ∧ (∀ e rest, World.faults w = Some e :: rest →
         Db.pending_jobs (World.db w') = Db.pending_jobs (World.db w)).
Proof.
  assert (Hmem : ∀ p, p ∈ filter (λ j, ¬ PendingJob.created_at j <
                                      World.clock w - 3 * 24 * 60 * 60 * 1000)
                            (Db.pending_jobs (World.db w)) ↔
                 p ∈ Db.pending_jobs (World.db w)
                 ∧ World.clock w - purgeAgeMs ≤ PendingJob.created_at p).
  { intros p. rewrite list_elem_of_filter. unfold purgeAgeMs. split.
    - intros [Hage Hin]. split; [done|lia].
    - intros [Hin Hage]. split; [lia|done]. }
  assert (Hagain : ∀ rows : list PendingJob.t,
            filter (λ j, ¬ PendingJob.created_at j < World.clock w - 3 * 24 * 60 * 60 * 1000)
              (filter (λ j, ¬ PendingJob.created_at j <
                            World.clock w - 3 * 24 * 60 * 60 * 1000) rows) =
            filter (λ j, ¬ PendingJob.created_at j <
                         World.clock w - 3 * 24 * 60 * 60 * 1000) rows).
  { intros rows. apply filter_keeps_all.
    intros p Hp. by apply list_elem_of_filter in Hp as [? _]. }
  unfold cleanupOldPendingJobs at 1, external. exec.
  destruct (World.faults w) as [|[e|] rest] eqn:Hf; simpl;
    (eexists; split; [reflexivity|]); simpl.
  - split; [|by intros ? ? [=]]. intros _. split; [exact Hmem|].
    unfold cleanupOldPendingJobs, external. exec. rewrite Hf. simpl.
    eexists. split; [reflexivity|]. simpl. apply Hagain.
  - split; [|done]. intros Hc. specialize (Hc (Some e)). rewrite Hf in Hc.
    discriminate Hc. left.
  - split; [|by intros ? ? [=]]. intros Hc. split; [exact Hmem|].
    unfold cleanupOldPendingJobs, external. exec.
    destruct rest as [|[e|] rest']; simpl.
    + eexists. split; [reflexivity|]. simpl. apply Hagain.
    + specialize (Hc (Some e)). rewrite Hf in Hc. discriminate Hc. right. left.
    + eexists. split; [reflexivity|]. simpl. apply Hagain.
Qed.

End more_on_quota.

(** ** The session manager *)

Section more_on_sessions.
Import SessionService.





(** X7.  Whenever Chrome came up and the login page loaded, [createSession]
    throws: its first screenshot asks for a [png] with a [quality], which
    Puppeteer refuses before it calls Chrome.  Yet the session it had built
    is already in the map and stays there, and no cleanup timer is armed for
    it: the next [getOrCreateSession] of the user is handed that session
    without creating anything. *)
Theorem createSession_screenshot_failure_leaves_session
    (w w1 : World.t) (userId : string) (browser page : nat) :
  openLoginPage w = (Return (browser, page), w1) →
  let made :=
    {| BrowserSessionInfo.browser := browser;
       BrowserSessionInfo.page := page;
       BrowserSessionInfo.isLoggedIn := false;
       BrowserSessionInfo.createdAt := World.clock w1;
       BrowserSessionInfo.lastActivity := World.clock w1;
       BrowserSessionInfo.userId := userId;
       BrowserSessionInfo.sessionId := userId +:+ "_" +:+ pretty (World.clock w1) |} in
  ∃ w',
    createSession userId w = (Throw Puppeteer.pngQualityError, w')
    ∧ World.sessions w' = <[userId := made]> (World.sessions w1)
    ∧ World.timers w' = World.timers w1
    ∧ World.browsers w' = World.browsers w1
    ∧ World.faults w' = World.faults w1
    ∧ ∃ w'', getOrCreateSession userId w' = (Return made, w'')
             ∧ World.browsers w'' = World.browsers w1
             ∧ World.faults w'' = World.faults w1.
Proof.
  intros Hopen made.
  unfold createSession. unfold try_catch.
  rewrite (bind_return _ _ _ _ _ Hopen).
  unfold registerSession, Puppeteer.screenshot. exec.
  eexists. split; [reflexivity|]. simpl. split_and!; try done.
  unfold getOrCreateSession, getSession. exec. rewrite lookup_insert_eq. exec.
  eexists. split; [reflexivity|done].
Qed.

(** Chrome comes up and the page loads. *)
Lemma createSession_screenshot_failure_leaves_session_witness :
  ∃ w',
    createSession "user-1" (Example.world 0) = (Throw Puppeteer.pngQualityError, w')
    ∧ World.timers w' = []
    ∧ is_Some (World.sessions w' !! "user-1").
Proof.
  destruct (createSession_screenshot_failure_leaves_session (Example.world 0)
              (openLoginPage (Example.world 0)).2 "user-1"
              0%nat 0%nat ltac:(vm_compute; reflexivity))
    as (w' & Hthrow & Hs & Ht & _).
  exists w'. split; [exact Hthrow|]. split; [exact Ht|].
  rewrite Hs. rewrite lookup_insert_eq. eexists. reflexivity.
Defined.

(** X8.  When Chrome was started, a page opened and given its user agent,
    but the login page does not load, [createSession] throws the navigation
    error and registers no session, and the browser it started is left
    running: [PuppeteerService] remembers it, until the next launch, but no
    entry of the session map refers to it, so no later [closeSession] closes
    it. *)
Theorem createSession_navigation_failure_leaks_browser
    (w : World.t) (userId : string) (config : BrowserConfig.t) (e : Error.t)
    (rest : list (option Error.t)) :
  World.browserConfig w = Some config →
  World.faults w = None :: None :: None :: Some e :: rest →
  (∀ k s, World.sessions w !! k = Some s →
          (BrowserSessionInfo.browser s < length (World.browsers w))%nat) →
  let browser := length (World.browsers w) in
  ∃ w',
    createSession userId w = (Throw e, w')
    ∧ World.sessions w' = World.sessions w
    ∧ World.browsers w' = World.browsers w ++ [true]
    ∧ World.pages w' = World.pages w ++ [PageState.mk browser false "about:blank"]
    ∧ World.puppeteerBrowser w' = Some browser
    ∧ (∀ k s, World.sessions w' !! k = Some s → BrowserSessionInfo.browser s ≠ browser)
    ∧ ∀ k w'', closeSession k w' = (Return (), w'') →
               World.browsers w'' !! browser = Some true.
Proof.
  intros Hconfig Hf Hold browser.
  unfold createSession, try_catch, openLoginPage, launchBrowser, createPage,
    puppeteerService, Browser.PuppeteerService.launchBrowser,
    Browser.PuppeteerService.createPage, Browser.PuppeteerService.launch,
    Browser.PuppeteerService.newPage, Browser.PuppeteerService.setUserAgent,
    Puppeteer.goto, try_catch, external_or_throw, external.
  exec. rewrite Hconfig. exec. rewrite Hf. exec.
  eexists. split; [reflexivity|]. simpl.
  assert (Hlive : (World.browsers w ++ [true]) !! browser = Some true).
  { by apply list_lookup_middle. }
  assert (Hnot : ∀ k s, World.sessions w !! k = Some s →
                        BrowserSessionInfo.browser s ≠ browser).
  { intros k s Hk. specialize (Hold k s Hk). subst browser. lia. }
  split_and!; try done.
  intros k w''. unfold closeSession, try_catch, Puppeteer.close, external_or_throw, external.
  exec. destruct (World.sessions w !! k) as [s|] eqn:Hk; simpl.
  - pose proof (Hnot k s Hk) as Hne.
    destruct rest as [|[?|] ?]; simpl; intros [= <-]; simpl; try done;
      by rewrite list_lookup_insert_ne.
  - intros [= <-]. done.
Qed.

(** The world of the example with user-1 in session, when a second user
    asks for a session and the login page times out. *)
Lemma createSession_navigation_failure_leaks_browser_witness :
  ∃ w',
    createSession "user-2"
      (World.set_faults (λ _, [None; None; None; Some Example.navigationTimeout])
         (Example.world_in_session 0)) = (Throw Example.navigationTimeout, w')
    ∧ World.sessions w' !! "user-2" = None
    ∧ World.browsers w' = [true; true].
Proof.
  pose (w := World.set_faults (λ _, [None; None; None; Some Example.navigationTimeout])
               (Example.world_in_session 0)).
  destruct (createSession_navigation_failure_leaks_browser w "user-2" Example.browserConfig
              Example.navigationTimeout [] eq_refl eq_refl)
    as (w' & Hthrow & Hs & Hb & _).
  { intros k s Hk. simpl in Hk. apply lookup_singleton_Some in Hk as [_ <-]. simpl. lia. }
  exists w'. split; [exact Hthrow|]. split; [|exact Hb].
  rewrite Hs. reflexivity.
Defined.

(** X9.  For a user with a session, [closeSession] never throws.  When the
    browser closes, the user's entry is removed from the map, the browser is
    marked gone and each of its pages closed, and the sessions of the other
    users are as before.  When closing the browser throws, the error is
    swallowed and the entry stays in the map, so the user still counts as
    having a session. *)
Theorem closeSession_removes_entry_unless_close_fails
    (w : World.t) (userId : string) (session : BrowserSessionInfo.t) :
  World.sessions w !! userId = Some session →
  ∃ w',
    closeSession userId w = (Return (), w')
    ∧ (World.faults w = [] ∨ (∃ rest, World.faults w = None :: rest) →
         World.sessions w' = delete userId (World.sessions w)
         ∧ World.browsers w' = <[BrowserSessionInfo.browser session := false]> (World.browsers w)
         ∧ (∀ i p, World.pages w !! i = Some p →
                   PageState.browser p = BrowserSessionInfo.browser session →
                   World.pages w' !! i = Some (PageState.close p))
         ∧ (∀ i p, World.pages w !! i = Some p →
                   PageState.browser p ≠ BrowserSessionInfo.browser session →
                   World.pages w' !! i = Some p)
         ∧ (LinkedInAutomationService.hasActiveSession userId w').1 = Return false)
    ∧ (∀ e rest, World.faults w = Some e :: rest →
         World.sessions w' = World.sessions w
         ∧ World.browsers w' = World.browsers w
         ∧ World.pages w' = World.pages w
         ∧ (LinkedInAutomationService.hasActiveSession userId w').1 = Return true).
Proof.
  intros Hs.
  unfold closeSession, try_catch, Puppeteer.close. exec.
  rewrite Hs. unfold external_or_throw, external. exec.
  assert (Hpages : ∀ (b : nat) (pages : list PageState.t),
            (∀ i p, pages !! i = Some p → PageState.browser p = b →
               ((λ p, if decide (PageState.browser p = b) then PageState.close p else p)
                  <$> pages) !! i = Some (PageState.close p))
            ∧ (∀ i p, pages !! i = Some p → PageState.browser p ≠ b →
               ((λ p, if decide (PageState.browser p = b) then PageState.close p else p)
                  <$> pages) !! i = Some p)).
  { intros b pages. split; intros i p Hp Hb; rewrite list_lookup_fmap, Hp; simpl.
    - by rewrite decide_True.
    - by rewrite decide_False. }
  destruct (World.faults w) as [|[e|] rest] eqn:Hf; simpl;
    (eexists; split; [reflexivity|]); simpl.
  - split; [|by intros ? ? [=]]. intros _. split_and!; try done; try apply Hpages.
    unfold LinkedInAutomationService.hasActiveSession, getSession. exec.
    by rewrite lookup_delete_eq.
  - split; [by intros [[=]|[? [=]]]|]. intros _ _ _. split_and!; try done.
    unfold LinkedInAutomationService.hasActiveSession, getSession. exec.
    by rewrite Hs.
  - split; [|by intros ? ? [=]]. intros _. split_and!; try done; try apply Hpages.
    unfold LinkedInAutomationService.hasActiveSession, getSession. exec.
    by rewrite lookup_delete_eq.
Qed.

(** The session of the example, closed. *)
Lemma closeSession_removes_entry_unless_close_fails_witness :
  ∃ w',
    closeSession "user-1" (Example.world_in_session 0) = (Return (), w')
    ∧ World.sessions w' = delete "user-1" (World.sessions (Example.world_in_session 0))
    ∧ World.pages w' !! 0%nat =
        Some (PageState.close (PageState.mk 0 false "https://www.linkedin.com/feed/")).
Proof.
  destruct (closeSession_removes_entry_unless_close_fails (Example.world_in_session 0)
              "user-1" Example.session eq_refl)
    as (w' & Hclose & Hok & _).
  destruct Hok as (Hs & _ & Hp & _); [by left|].
  exists w'. split; [exact Hclose|]. split; [exact Hs|].
  apply Hp; reflexivity.
Defined.

(** X10.  For a user without a session, every method of the session manager
    that does not create one returns at once and changes nothing: no read
    refreshes anything, no screenshot is taken, no event forwarded, no Chrome
    call made and no timer armed. *)
Theorem session_methods_without_session_do_nothing (w : World.t) (userId : string) :
  World.sessions w !! userId = None →
  getSession userId w = (Return None, w)
  ∧ updateSessionActivity userId w = (Return (), w)
  ∧ captureScreenshot userId w = (Return false, w)
  ∧ (∀ known, handleInputEvent userId known w = (Return (), w))
  ∧ closeSession userId w = (Return (), w)
  ∧ cleanupSession userId w = (Return (), w)
  ∧ LinkedInAutomationService.hasActiveSession userId w = (Return false, w)
  ∧ LinkedInAutomationService.getSessionInfo userId w = (Return None, w).
Proof.
  intros Hs.
  unfold getSession, updateSessionActivity, captureScreenshot, handleInputEvent,
    closeSession, cleanupSession, LinkedInAutomationService.hasActiveSession,
    LinkedInAutomationService.getSessionInfo, getSession.
  split_and!; intros; exec; by rewrite Hs.
Qed.

(** A user who never opened a session, beside one who did. *)
Lemma session_methods_without_session_do_nothing_witness :
  captureScreenshot "user-2" (Example.world_in_session 0) =
    (Return false, Example.world_in_session 0)
  ∧ cleanupSession "user-2" (Example.world_in_session 0) =
    (Return (), Example.world_in_session 0).
Proof.
  destruct (session_methods_without_session_do_nothing (Example.world_in_session 0)
              "user-2" eq_refl)
    as (_ & _ & Hshot & _ & _ & Hclean & _).
  split; [exact Hshot|exact Hclean].
Defined.

(** X11.  For a user with a session, [captureScreenshot] and the two input
    handlers never throw and always set the session's [lastActivity] to the
    current time.  [captureScreenshot] never returns an image: it asks for a
    [png] with a [quality], Puppeteer refuses, the error is swallowed and the
    answer is [null], with no call made on Chrome.  An input event whose
    type the handler does not know makes no call on the page either. *)
Theorem captureScreenshot_and_input_touch_and_never_throw
    (w : World.t) (userId : string) (session : BrowserSessionInfo.t) :
  World.sessions w !! userId = Some session →
  let touched := BrowserSessionInfo.touch (World.clock w) session in
  captureScreenshot userId w =
    (Return false, World.set_sessions <[userId := touched]> w)
  ∧ (∀ known, ∃ w',
       handleInputEvent userId known w = (Return (), w')
       ∧ World.sessions w' = <[userId := touched]> (World.sessions w)
       ∧ (known = false → World.faults w' = World.faults w)).
Proof.
  intros Hs touched. split.
  - unfold captureScreenshot, try_catch, updateSessionActivity, Puppeteer.screenshot.
    exec. rewrite Hs. exec. by rewrite Hs.
  - intros known.
    unfold handleInputEvent, try_catch, updateSessionActivity.
    exec. rewrite Hs. exec. rewrite Hs. unfold external_or_throw, external. exec.
    destruct known; exec.
    + destruct (World.faults w) as [|[e|] rest] eqn:Hf; simpl;
        (eexists; split; [reflexivity|]); simpl; done.
    + eexists; split; [reflexivity|]. done.
Qed.

(** The session of the example, asked for a screenshot a minute after it
    was opened. *)
Lemma captureScreenshot_and_input_touch_and_never_throw_witness :
  ∃ w',
    captureScreenshot "user-1" (Example.world_in_session 0) = (Return false, w')
    ∧ World.sessions w' !! "user-1" =
        Some (BrowserSessionInfo.touch Example.now Example.session)
    ∧ World.faults w' = [].
Proof.
  destruct (captureScreenshot_and_input_touch_and_never_throw (Example.world_in_session 0)
              "user-1" Example.session eq_refl) as [Hshot _].
  eexists. split; [exact Hshot|]. split; [apply lookup_insert_eq|reflexivity].
Defined.

(** X12.  When its timer fires on a session that has been used within the
    last twenty minutes, [cleanupSession] leaves the session alone, makes no
    call on Chrome and arms one new timer twenty minutes ahead.  When the
    session has been idle for longer and closing its browser throws, the
    session stays in the map and no timer is armed: no later timer will
    expire it. *)
Theorem cleanupSession_rearms_or_gives_up
    (w : World.t) (userId : string) (session : BrowserSessionInfo.t) :
  World.sessions w !! userId = Some session →
  (World.clock w - BrowserSessionInfo.lastActivity session ≤ timeoutMs →
     cleanupSession userId w =
       (Return (), World.set_timers (λ l, l ++ [(World.clock w + timeoutMs, userId)]) w))
  ∧ (timeoutMs < World.clock w - BrowserSessionInfo.lastActivity session →
     ∀ e rest, World.faults w = Some e :: rest →
       ∃ w', cleanupSession userId w = (Return (), w')
             ∧ World.sessions w' = World.sessions w
             ∧ World.timers w' = World.timers w).
Proof.
  intros Hs. split.
  - intros Hidle. unfold cleanupSession. exec. rewrite Hs. exec.
    by rewrite bool_decide_eq_false_2 by lia.
  - intros Hidle e rest Hf. unfold cleanupSession. exec. rewrite Hs. exec.
    rewrite bool_decide_eq_true_2 by lia.
    unfold closeSession, try_catch, Puppeteer.close. exec.
    rewrite Hs. unfold external_or_throw, external. exec. rewrite Hf. simpl. eexists. split; [reflexivity|]. done.
Qed.

(** The timer of the example's session fires a minute after the session
    was opened. *)
Lemma cleanupSession_rearms_or_gives_up_witness :
  cleanupSession "user-1" (Example.world_in_session 0) =
    (Return (),
     World.set_timers (λ l, l ++ [(Example.now + timeoutMs, "user-1")])
       (Example.world_in_session 0)).
Proof.
  destruct (cleanupSession_rearms_or_gives_up (Example.world_in_session 0) "user-1"
              Example.session eq_refl) as [Hrearm _].
  apply Hrearm. vm_compute. discriminate.
Defined.




Lemma all_logged_out_insert userId s w :
  BrowserSessionInfo.isLoggedIn s = false →
  all_logged_out w → all_logged_out (World.set_sessions <[userId := s]> w).
Proof.
  intros Hs Hout k s'. simpl. destruct (decide (userId = k)) as [->|Hne].
  - rewrite lookup_insert_eq. by intros [= <-].
  - rewrite lookup_insert_ne by done. apply Hout.
Qed.

Lemma all_logged_out_delete userId w :
  all_logged_out w → all_logged_out (World.set_sessions (delete userId) w).
Proof.
  intros Hout k s'. simpl. destruct (decide (userId = k)) as [->|Hne].
  - by rewrite lookup_delete_eq.
  - rewrite lookup_delete_ne by done. apply Hout.
Qed.

Lemma all_logged_out_Puppeteer page url browser type quality :
  keeps all_logged_out (Puppeteer.goto page url)
  ∧ keeps all_logged_out (Puppeteer.screenshot page type quality)
  ∧ keeps all_logged_out (Puppeteer.close browser).
Proof.
  unfold Puppeteer.goto, Puppeteer.screenshot, Puppeteer.close.
  split_and!; keeps_split; done.
Qed.

Lemma all_logged_out_getSession userId : keeps all_logged_out (getSession userId).
Proof.
  intros w Hw. unfold getSession. exec.
  destruct (World.sessions w !! userId) as [s|] eqn:Hs; simpl; [|done].
  apply all_logged_out_insert; [|done]. simpl. by eapply Hw.
Qed.

Lemma all_logged_out_updateSessionActivity userId :
  keeps all_logged_out (updateSessionActivity userId).
Proof.
  intros w Hw. unfold updateSessionActivity. exec.
  destruct (World.sessions w !! userId) as [s|] eqn:Hs; simpl; [|done].
  apply all_logged_out_insert; [|done]. simpl. by eapply Hw.
Qed.

Lemma all_logged_out_openLoginPage : keeps all_logged_out openLoginPage.
Proof.
  unfold openLoginPage, launchBrowser, createPage, puppeteerService,
    Browser.PuppeteerService.launchBrowser, Browser.PuppeteerService.createPage,
    Browser.PuppeteerService.launch, Browser.PuppeteerService.newPage,
    Browser.PuppeteerService.setUserAgent.
  keeps_split; try done. apply (all_logged_out_Puppeteer _ _ 0%nat None None).
Qed.

Lemma all_logged_out_registerSession userId browser page :
  keeps all_logged_out (registerSession userId browser page).
Proof.
  unfold registerSession. keeps_split; try done.
  - by apply all_logged_out_insert.
  - apply (all_logged_out_Puppeteer page "" 0%nat).
Qed.

Lemma all_logged_out_createSession userId : keeps all_logged_out (createSession userId).
Proof.
  unfold createSession. keeps_split.
  - apply all_logged_out_openLoginPage.
  - apply all_logged_out_registerSession.
Qed.

Lemma all_logged_out_closeSession userId : keeps all_logged_out (closeSession userId).
Proof.
  unfold closeSession. keeps_split.
  - apply (all_logged_out_Puppeteer 0%nat "" _ None None).
  - by apply all_logged_out_delete.
Qed.

Lemma all_logged_out_methods userId known :
  keeps all_logged_out (getOrCreateSession userId)
  ∧ keeps all_logged_out (captureScreenshot userId)
  ∧ keeps all_logged_out (handleInputEvent userId known)
  ∧ keeps all_logged_out (cleanupSession userId)
  ∧ keeps all_logged_out (LinkedInAutomationService.acquireSession userId).
Proof.
  split_and!.
  - unfold getOrCreateSession. keeps_split.
    + apply all_logged_out_getSession.
    + apply all_logged_out_createSession.
  - unfold captureScreenshot. keeps_split.
    + apply all_logged_out_updateSessionActivity.
    + apply (all_logged_out_Puppeteer _ "" 0%nat).
  - unfold handleInputEvent. keeps_split; try done.
    apply all_logged_out_updateSessionActivity.
  - unfold cleanupSession. keeps_split; try done.
    apply all_logged_out_closeSession.
  - unfold LinkedInAutomationService.acquireSession, Puppeteer.isClosed. keeps_split.
    + apply all_logged_out_getSession.
    + apply all_logged_out_updateSessionActivity.
    + apply all_logged_out_createSession.
    + apply all_logged_out_closeSession.
    + apply all_logged_out_createSession.
Qed.

Lemma all_logged_out_happen event w : all_logged_out w → all_logged_out (happen event w).
Proof.
  destruct event; simpl; try done.
  - apply all_logged_out_createSession.
  - apply all_logged_out_openLoginPage.
  - apply all_logged_out_registerSession.
  - apply all_logged_out_getSession.
  - apply (all_logged_out_methods userId true).
  - apply all_logged_out_updateSessionActivity.
  - apply (all_logged_out_methods userId true).
  - apply (all_logged_out_methods userId known).
  - apply all_logged_out_closeSession.
  - apply (all_logged_out_methods userId true).
  - apply (all_logged_out_methods userId true).
Qed.

(** X22.  Nothing ever marks a session as logged in.  Sessions are created
    with [isLoggedIn] false, and no method of the session manager or of the
    automation service sets it: after any sequence of their calls, with time
    passing, calls failing and pages closing in between, and then a call of
    [handlePageNavigation], every session still has [isLoggedIn] false, also
    when [handlePageNavigation] has just reported a successful login.  It
    reports one exactly when the user has a session and the address contains
    "/feed", "/mynetwork" or "/jobs". *)
Theorem isLoggedIn_is_never_set
    (events : list SessionEvent) (userId url : string) (w : World.t) :
  all_logged_out w →
  ∃ success w',
    LinkedInAutomationService.handlePageNavigation userId url (history events w)
      = (Return success, w')
    ∧ all_logged_out w'
    ∧ (success = true ↔
         is_Some (World.sessions (history events w) !! userId)
         ∧ (LinkedInAutomationService.includes url "/feed" = true
            ∨ LinkedInAutomationService.includes url "/mynetwork" = true
            ∨ LinkedInAutomationService.includes url "/jobs" = true)).
Proof.
  intros Hout.
  assert (Hhist : all_logged_out (history events w)).
  { revert w Hout. induction events as [|event events IH]; intros w Hout; simpl; [done|].
    apply IH. by apply all_logged_out_happen. }
  set (w1 := history events w) in *.
  pose proof (all_logged_out_getSession userId w1 Hhist) as Hget.
  unfold LinkedInAutomationService.handlePageNavigation. rewrite bind_unfold.
  destruct (getSession userId w1) as [[[touched|]|e] w2] eqn:Hrun; simpl in Hget.
  - assert (Hsome : is_Some (World.sessions w1 !! userId)).
    { revert Hrun. unfold getSession. exec.
      destruct (World.sessions w1 !! userId); [by eauto|by intros [=]]. }
    destruct (LinkedInAutomationService.includes url "/feed");
      [|destruct (LinkedInAutomationService.includes url "/mynetwork");
        [|destruct (LinkedInAutomationService.includes url "/jobs")]];
      simpl; eexists _, w2; (split; [reflexivity|]); (split; [done|]).
    + split; [|done]. intros _. split; [done|]. by left.
    + split; [|done]. intros _. split; [done|]. right. by left.
    + split; [|done]. intros _. split; [done|]. right. by right.
    + split; [done|]. by intros [_ [|[|]]].
  - exists false, w2. split; [done|]. split; [done|]. split; [done|].
    intros [[s Hs] _]. revert Hrun. unfold getSession. exec. rewrite Hs. by exec.
  - revert Hrun. unfold getSession. exec. by destruct (World.sessions w1 !! userId).
Qed.

(** The user of the example opens a session, the page closes under it, the
    session is acquired again, and LinkedIn shows the feed. *)
Lemma isLoggedIn_is_never_set_witness :
  ∃ w',
    LinkedInAutomationService.handlePageNavigation "user-1" "https://www.linkedin.com/feed/"
      (history [CreateSession "user-1"; PageCloses 0; AcquireSession "user-1"]
         (Example.world 0))
    = (Return true, w')
    ∧ all_logged_out w'.
Proof.
  destruct (isLoggedIn_is_never_set
              [CreateSession "user-1"; PageCloses 0; AcquireSession "user-1"]
              "user-1" "https://www.linkedin.com/feed/" (Example.world 0))
    as (success & w' & Hrun & Hout & Hsuccess).
  { intros k s Hk. simpl in Hk. rewrite lookup_empty in Hk. discriminate Hk. }
  exists w'. split; [|exact Hout].
  rewrite Hrun. destruct success; [reflexivity|].
  assert (Htrue : false = true); [|discriminate Htrue].
  apply Hsuccess. split; [|left; vm_compute; reflexivity].
  eexists. vm_compute. reflexivity.
Defined.

End more_on_sessions.
(** ** The follow-request processor *)

Section more_on_processor.
Import LinkedInSettingsService.

Lemma handleJobError_emitted job error w :
  BaseProcessor.handleJobError job error w = (Return (), emitted (jobFailedRecord job error) w).
Proof.
  unfold BaseProcessor.handleJobError, BaseProcessor.logActivity.
  erewrite try_catch_return; [reflexivity|]. apply logActivity_emitted.
Qed.


(** X14.  A follow-request job is dropped without a trace when the read of
    the user's profile fails, when the user has no profile row, when the
    profile is more than seven days old, or when the campaign is there but
    not active: [process] returns normally and leaves the store, the
    sessions and the queue exactly as they were, with no activity record and
    no pending job; only the reads it made have been answered. *)
Theorem process_skips_without_trace (job : Job.t) (w : World.t) :
  let userId := JobData.userId (Job.data job) in
  let campaignId := JobData.campaignId (Job.data job) in
  (∀ e rest, World.faults w = Some e :: rest →
     FollowRequestProcessor.process job w = (Return (), World.set_faults (λ _, rest) w))
  ∧ (calm w →
     Db.profiles (World.db w) !! userId = None →
     FollowRequestProcessor.process job w = (Return (), World.set_faults (drop 1) w))
  ∧ (∀ createdAt,
       calm w →
       Db.profiles (World.db w) !! userId = Some createdAt →
       7 * (1000 * 60 * 60 * 24) < World.clock w - createdAt →
       FollowRequestProcessor.process job w = (Return (), World.set_faults (drop 1) w))
  ∧ (∀ createdAt campaign,
       calm w →
       Db.profiles (World.db w) !! userId = Some createdAt →
       World.clock w - createdAt ≤ 7 * (1000 * 60 * 60 * 24) →
       Db.linkedin_campaigns (World.db w) !! campaignId = Some campaign →
       Campaign.status campaign ≠ Some CampaignStatus.active →
       FollowRequestProcessor.process job w = (Return (), World.set_faults (drop 2) w)).
Proof.
  intros userId campaignId. split_and!.
  - intros e rest Hf. unfold FollowRequestProcessor.process, try_catch,
      BaseProcessor.checkTrialStatus, try_catch. fold userId.
    rewrite !bind_unfold, single_run, Hf. simpl.
    unfold mret, M_ret, World.set_faults. simpl. by rewrite Hf.
  - intros Hc Hprof. unfold FollowRequestProcessor.process, try_catch,
      BaseProcessor.checkTrialStatus, try_catch. fold userId.
    by rewrite !bind_unfold, single_run, calm_head, Hprof.
  - intros createdAt Hc Hprof Hold. unfold FollowRequestProcessor.process, try_catch,
      BaseProcessor.checkTrialStatus, try_catch. fold userId.
    rewrite !bind_unfold, single_run, calm_head, Hprof by done. exec.
    by rewrite bool_decide_eq_false_2 by lia.
  - intros createdAt campaign Hc Hprof Htrial Hcamp Hstatus.
    unfold FollowRequestProcessor.process, try_catch. fold userId campaignId.
    rewrite (bind_return _ _ _ _ _
      (checkTrialStatus_in_trial _ _ _ (calm_head w Hc) Hprof Htrial)).
    cbn [negb].
    rewrite (bind_return _ _ _ _ _
      (getCampaign_found _ _ _ (calm_head _ (calm_drop 1 w Hc)) Hcamp)).
    unfold BaseProcessor.isCampaignActive. rewrite bool_decide_eq_false_2 by done.
    simpl. by rewrite set_faults_drop.
Qed.

(** X15.  When the user is in the trial and the store answers, but the
    campaign row is missing, or the campaign is active but the user has no
    LinkedIn account row, [process] throws the error of the read as it got
    it, after offering one "Job failed" record for it to the activity log;
    nothing else is written.  The same happens with the store's error when
    the read of the campaign fails. *)
Theorem process_missing_row_is_logged_and_rethrown
    (job : Job.t) (w : World.t) (createdAt : Z) :
  let userId := JobData.userId (Job.data job) in
  let campaignId := JobData.campaignId (Job.data job) in
  Db.profiles (World.db w) !! userId = Some createdAt →
  World.clock w - createdAt ≤ 7 * (1000 * 60 * 60 * 24) →
  (calm w →
   Db.linkedin_campaigns (World.db w) !! campaignId = None →
   FollowRequestProcessor.process job w =
     (Throw Postgrest.notOneRow,
      emitted (jobFailedRecord job Postgrest.notOneRow) (World.set_faults (drop 2) w)))
  ∧ (∀ campaign,
       calm w →
       Db.linkedin_campaigns (World.db w) !! campaignId = Some campaign →
       Campaign.status campaign = Some CampaignStatus.active →
       Db.linkedin_accounts (World.db w) !! userId = None →
       FollowRequestProcessor.process job w =
         (Throw Postgrest.notOneRow,
          emitted (jobFailedRecord job Postgrest.notOneRow) (World.set_faults (drop 3) w)))
  ∧ (∀ e rest,
       World.faults w = None :: Some e :: rest →
       FollowRequestProcessor.process job w =
         (Throw e, emitted (jobFailedRecord job e) (World.set_faults (λ _, rest) w))).
Proof.
  intros userId campaignId Hprof Htrial. split_and!.
  - intros Hc Hcamp.
    unfold FollowRequestProcessor.process. fold userId campaignId.
    erewrite try_catch_throw.
    + by rewrite (bind_return _ _ _ _ _ (handleJobError_emitted _ _ _)).
    + rewrite (bind_return _ _ _ _ _
        (checkTrialStatus_in_trial _ _ _ (calm_head w Hc) Hprof Htrial)).
      cbn [negb]. rewrite <- (set_faults_drop 1 1). apply bind_throw.
      unfold BaseProcessor.getCampaign, SupabaseService.getCampaign, try_catch.
      rewrite !bind_unfold, single_run, calm_head by (by apply calm_drop).
      simpl. by rewrite Hcamp.
  - intros campaign Hc Hcamp Hstatus Hacc.
    unfold FollowRequestProcessor.process. fold userId campaignId.
    erewrite try_catch_throw.
    + by rewrite (bind_return _ _ _ _ _ (handleJobError_emitted _ _ _)).
    + rewrite (bind_return _ _ _ _ _
        (checkTrialStatus_in_trial _ _ _ (calm_head w Hc) Hprof Htrial)).
      cbn [negb].
      rewrite (bind_return _ _ _ _ _
        (getCampaign_found _ _ _ (calm_head _ (calm_drop 1 w Hc)) Hcamp)).
      unfold BaseProcessor.isCampaignActive. rewrite bool_decide_eq_true_2 by done.
      cbn [negb]. rewrite <- (set_faults_drop 1 2), <- (set_faults_drop 1 1).
      apply bind_throw.
      unfold BaseProcessor.getLinkedInAccount, SupabaseService.getLinkedInAccount, try_catch.
      rewrite !bind_unfold, single_run, calm_head
        by (by apply calm_drop, calm_drop).
      simpl. by rewrite Hacc.
  - intros e rest Hf.
    assert (Hhead : head (World.faults w) ≫= id = None) by (by rewrite Hf).
    assert (Hrest : World.set_faults (drop 1) (World.set_faults (drop 1) w)
                    = World.set_faults (λ _, rest) w).
    { unfold World.set_faults. simpl. by rewrite Hf. }
    unfold FollowRequestProcessor.process. fold userId campaignId.
    erewrite try_catch_throw.
    + by rewrite (bind_return _ _ _ _ _ (handleJobError_emitted _ _ _)).
    + rewrite (bind_return _ _ _ _ _
        (checkTrialStatus_in_trial _ _ _ Hhead Hprof Htrial)).
      cbn [negb]. rewrite <- Hrest. apply bind_throw.
      unfold BaseProcessor.getCampaign, SupabaseService.getCampaign, try_catch.
      rewrite !bind_unfold, single_run. simpl. by rewrite Hf.
Qed.

(** The job of the example, for a campaign the store does not hold. *)
Lemma process_missing_row_is_logged_and_rethrown_witness :
  ∃ w',
    FollowRequestProcessor.process Example.job
      (World.set_db (Db.set_linkedin_campaigns (λ _, ∅)) (Example.world 0))
    = (Throw Postgrest.notOneRow, w')
    ∧ Db.activity_logs (World.db w') =
        [jobFailedRecord Example.job Postgrest.notOneRow].
Proof.
  pose (w := World.set_db (Db.set_linkedin_campaigns (λ _, ∅)) (Example.world 0)).
  destruct (process_missing_row_is_logged_and_rethrown Example.job w
              Example.profile_created eq_refl) as [Hmissing _].
  { vm_compute. discriminate. }
  eexists. split; [apply Hmissing; [intros o Ho; inversion Ho|reflexivity]|].
  reflexivity.
Defined.



(** With the user's settings on file, the checks and the gate make eleven
    reads and write nothing. *)
Lemma process_reaches_gate_settled job campaign settings w :
  answered 11 w →
  reaches_gate w job campaign →
  settingsOf (JobData.userId (Job.data job)) (World.db w) = [settings] →
  ∃ accountData,
    FollowRequestProcessor.process job w =
      try_catch
        (afterGate job campaign accountData
           (Z.min (requestedConnections job)
                  (remaining w (JobData.userId (Job.data job)) ActionType.connections)))
        (λ error, BaseProcessor.handleJobError job error;; throw error)
        (World.set_faults (drop 11) w).
Proof.
  intros Ha ((createdAt & Hprof & Htrial) & Hcamp & Hactive & [accountData Hacc]) Hset.
  set (userId := JobData.userId (Job.data job)) in *.
  assert (Hread : ∀ n v,
    answered (S (S n)) v →
    World.db v = World.db w → World.clock v = World.clock w →
    ∃ q, getRemainingQuotas userId v =
           (Return q, World.set_faults (drop 1) (World.set_faults (drop 1) v))
         ∧ (∀ k, remaining_of k q = remaining w userId k)
         ∧ answered n (World.set_faults (drop 1) (World.set_faults (drop 1) v))).
  { intros n v Hv Hdb Hclock.
    destruct (answered_step _ _ Hv) as [H0 Hv1].
    destruct (answered_step _ _ Hv1) as [H1 Hv2].
    eexists. split; [|split; [|exact Hv2]].
    - unfold getRemainingQuotas.
      rewrite (bind_return _ _ _ _ _ (loadLinkedInSettings_found userId settings v H0
                 ltac:(by rewrite Hdb))).
      rewrite (bind_return _ _ _ _ _ (getDailyUsage_answered userId _ H1)).
      reflexivity.
    - intros k. unfold remaining, limits, usageToday. simpl.
      rewrite Hdb, Hclock, Hset. by destruct k. }
  destruct (answered_step _ _ Ha) as [H0 A1].
  destruct (answered_step _ _ A1) as [H1 A2].
  destruct (answered_step _ _ A2) as [H2 A3].
  set (v3 := World.set_faults (drop 1) (World.set_faults (drop 1)
               (World.set_faults (drop 1) w))) in *.
  destruct (answered_step _ _ A3) as [H3 A4].
  destruct (answered_step _ _ A4) as [H4 A5].
  destruct (Hread _ _ A5 eq_refl eq_refl) as (q1 & Hq1 & _ & A7).
  destruct (Hread _ _ A7 eq_refl eq_refl) as (q2 & Hq2 & Hrem2 & A9).
  destruct (Hread _ _ A9 eq_refl eq_refl) as (q3 & Hq3 & _ & _).
  exists accountData.
  unfold FollowRequestProcessor.process, try_catch. fold userId.
  rewrite (bind_return _ _ _ _ _ (checkTrialStatus_in_trial _ _ _ H0 Hprof Htrial)).
  cbn [negb].
  rewrite (bind_return _ _ _ _ _ (getCampaign_found _ _ _ H1 Hcamp)).
  unfold BaseProcessor.isCampaignActive. rewrite bool_decide_eq_true_2 by done.
  cbn [negb].
  rewrite (bind_return _ _ _ _ _ (getLinkedInAccount_found _ _ _ H2 Hacc)).
  fold v3.
  eassert (Hlog : logUsageAndLimits userId v3 = (Return (), _)).
  { unfold logUsageAndLimits.
    rewrite (bind_return _ _ _ _ _ (loadLinkedInSettings_found userId settings v3 H3 Hset)).
    rewrite (bind_return _ _ _ _ _ (getDailyUsage_answered userId _ H4)).
    rewrite (bind_return _ _ _ _ _ Hq1). reflexivity. }
  rewrite (bind_return _ _ _ _ _ Hlog).
  fold (requestedConnections job).
  eassert (Hmax : getMaxActionsForRun userId ActionType.connections
                    (requestedConnections job) _
                  = (Return (Z.min (requestedConnections job)
                               (remaining w userId ActionType.connections)), _)).
  { unfold getMaxActionsForRun. rewrite (bind_return _ _ _ _ _ Hq2).
    by rewrite <- (Hrem2 ActionType.connections). }
  rewrite (bind_return _ _ _ _ _ Hmax).
  rewrite (bind_return _ _ _ _ _ Hq3).
  subst v3. by rewrite !set_faults_drop.
Qed.

(** X17.  When the quota is exhausted and the store refuses the insert of
    the pending job, the job is neither run nor deferred: [process] throws
    the error "Failed to create pending job" in place of the store's own,
    after offering a "Job failed" record for it to the activity log; no
    pending job is recorded and no session is touched.  The insert is the
    twelfth call of the job to the store, after the eleven reads of the
    checks and of the gate. *)
Theorem process_deferral_refused_throws
    (job : Job.t) (campaign : Campaign.t)
    (settings : LinkedInSettings.t) (w : World.t) (e : Error.t)
    (rest : list (option Error.t)) :
  reaches_gate w job campaign →
  settingsOf (JobData.userId (Job.data job)) (World.db w) = [settings] →
  Z.min (requestedConnections job)
        (remaining w (JobData.userId (Job.data job)) ActionType.connections) ≤ 0 →
  World.faults w = replicate 11 None ++ Some e :: rest →
  let error := Error.mk "Error" "Failed to create pending job" "" in
  ∃ w',
    FollowRequestProcessor.process job w = (Throw error, w')
    ∧ w' = emitted (jobFailedRecord job error) (World.set_faults (λ _, rest) w)
    ∧ Db.pending_jobs (World.db w') = Db.pending_jobs (World.db w)
    ∧ World.sessions w' = World.sessions w
    ∧ World.browsers w' = World.browsers w.
Proof.
  intros Hgate Hset Hzero Hf error.
  assert (Ha : answered 11 w).
  { intros o. rewrite Hf. simpl. intros Ho.
    repeat (apply elem_of_cons in Ho as [->|Ho]; [done|]). inversion Ho. }
  destruct (process_reaches_gate_settled job campaign settings w Ha Hgate Hset)
    as (accountData & ->).
  unfold afterGate. rewrite bool_decide_eq_true_2 by done.
  assert (Hcreate : createPendingJob (JobData.userId (Job.data job))
                      (JobData.campaignId (Job.data job)) JobType.followRequest
                      ActionType.connections (requestedConnections job)
                      (World.set_faults (drop 11) w)
                    = (Throw error, World.set_faults (λ _, rest) w)).
  { unfold createPendingJob. rewrite bind_unfold, external_run. simpl. rewrite Hf. simpl.
    unfold throw, World.set_faults. simpl. by rewrite Hf. }
  eexists. split.
  { erewrite try_catch_throw; [|by apply bind_throw].
    by rewrite (bind_return _ _ _ _ _ (handleJobError_emitted _ _ _)). }
  split; [done|].
  unfold emitted, SupabaseService.logActivity, external. exec.
  by destruct rest as [|[?|] ?].
Qed.

(** The exhausted user of the example when the store goes down after the
    reads. *)
Lemma process_deferral_refused_throws_witness :
  ∃ w',
    FollowRequestProcessor.process Example.job
      (World.set_faults (λ _, replicate 11 None ++ [Some Example.fetchFailed])
         (Example.world 30))
    = (Throw (Error.mk "Error" "Failed to create pending job" ""), w')
    ∧ Db.pending_jobs (World.db w') = [].
Proof.
  pose (w := World.set_faults (λ _, replicate 11 None ++ [Some Example.fetchFailed])
               (Example.world 30)).
  assert (Hgate : reaches_gate w Example.job Example.campaign).
  { split; [exists Example.profile_created; split; [reflexivity|vm_compute; discriminate]|].
    split; [reflexivity|]. split; [reflexivity|]. exists Example.account. reflexivity. }
  destruct (process_deferral_refused_throws Example.job
              Example.campaign (LinkedInSettings.mk 30 50 100 0) w
              Example.fetchFailed [] Hgate eq_refl)
    as (w' & Hprocess & _ & Hpending & _).
  { vm_compute. discriminate. }
  { reflexivity. }
  exists w'. split; [exact Hprocess|exact Hpending].
Defined.

(** A job that reaches the gate and is granted nothing is deferred, when
    the store answers. *)
Lemma process_defers job campaign w :
  reaches_gate w job campaign →
  calm w →
  Z.min (requestedConnections job)
        (remaining w (JobData.userId (Job.data job)) ActionType.connections) ≤ 0 →
  ∃ w',
    FollowRequestProcessor.process job w = (Return (), w')
    ∧ Db.pending_jobs (World.db w') = Db.pending_jobs (World.db w) ++ [deferredRow w job]
    ∧ Db.activity_logs (World.db w') = Db.activity_logs (World.db w) ++ [deferredRecord job]
    ∧ World.sessions w' = World.sessions w
    ∧ World.browsers w' = World.browsers w.
Proof.
  intros Hgate Hcalm Hzero.
  destruct (process_reaches_gate job campaign w Hcalm Hgate)
    as (accountData & w1 & _ & Hs1 & ->).
  unfold afterGate, try_catch.
  rewrite bool_decide_eq_true_2 by done.
  destruct (createPendingJob_calm (JobData.userId (Job.data job))
              (JobData.campaignId (Job.data job)) JobType.followRequest
              ActionType.connections (requestedConnections job) w1)
    as (w2 & Hs2 & Hcreate).
  { by eapply settles_calm. }
  rewrite (bind_return _ _ _ _ _ Hcreate).
  assert (Hs : settles w w2) by (by eapply settles_trans).
  unfold BaseProcessor.logActivity, try_catch.
  match goal with
  | |- context [SupabaseService.logActivity ?record ?v] =>
      destruct (logActivity_calm record v) as (rest & -> & _)
  end.
  { exact (settles_calm w w2 Hs Hcalm). }
  eexists. split; [reflexivity|]. simpl.
  rewrite (settles_frame World.clock w w1) by done.
  rewrite (settles_frame (λ v, Db.row_seq (World.db v)) w w1) by done.
  rewrite (settles_frame (λ v, Db.pending_jobs (World.db v)) w w2) by done.
  rewrite (settles_frame (λ v, Db.activity_logs (World.db v)) w w2) by done.
  rewrite (settles_frame World.sessions w w2) by done.
  rewrite (settles_frame World.browsers w w2) by done.
  by split_and!.
Qed.

(** X21.  The processor takes a grant of zero or less for an exhausted
    quota, so a job whose [importLimit] is negative is deferred whatever
    quota remains: no session is opened, "Daily connection limit reached"
    is logged, and a pending job carrying the negative count is recorded.
    An [importLimit] of 0 never gets that far: it is read as 10. *)
Theorem process_defers_negative_request
    (job : Job.t) (campaign : Campaign.t) (w : World.t) :
  reaches_gate w job campaign →
  calm w →
  requestedConnections job < 0 →
  (∃ w',
     FollowRequestProcessor.process job w = (Return (), w')
     ∧ Db.pending_jobs (World.db w') = Db.pending_jobs (World.db w) ++ [deferredRow w job]
     ∧ PendingJob.requested_count (deferredRow w job) < 0
     ∧ Db.activity_logs (World.db w') = Db.activity_logs (World.db w) ++ [deferredRecord job]
     ∧ World.sessions w' = World.sessions w
     ∧ World.browsers w' = World.browsers w)
  ∧ ∀ other : Job.t,
      JobData.data (Job.data other) ≫= Payload.importLimit = Some 0 →
      requestedConnections other = 10.
Proof.
  intros Hgate Hcalm Hneg. split.
  - destruct (process_defers job campaign w Hgate Hcalm)
      as (w' & Hprocess & Hpending & Hlogs & Hsessions & Hbrowsers).
    { assert (0 ≤ remaining w (JobData.userId (Job.data job)) ActionType.connections)
        by (unfold remaining; lia). lia. }
    exists w'. by split_and!.
  - intros other Hzero. unfold requestedConnections. by rewrite Hzero.
Qed.

(** A request for minus five connections by a user who has made none of
    the thirty of the day. *)
Lemma process_defers_negative_request_witness :
  ∃ w',
    FollowRequestProcessor.process
      (Job.mk "1" JobType.followRequest
         (JobData.mk "user-1" "campaign-1" JobType.followRequest
            (Some (Payload.mk (Some (-5)) None None None None)))
         JobState.active 0)
      (Example.world 0) = (Return (), w')
    ∧ PendingJob.requested_count <$> Db.pending_jobs (World.db w') = [-5].
Proof.
  pose (job := Job.mk "1" JobType.followRequest
                 (JobData.mk "user-1" "campaign-1" JobType.followRequest
                    (Some (Payload.mk (Some (-5)) None None None None)))
                 JobState.active 0).
  assert (Hgate : reaches_gate (Example.world 0) job Example.campaign).
  { split; [exists Example.profile_created; split; [reflexivity|vm_compute; discriminate]|].
    split; [reflexivity|]. split; [reflexivity|]. exists Example.account. reflexivity. }
  destruct (process_defers_negative_request job Example.campaign
              (Example.world 0) Hgate) as [(w' & Hprocess & Hpending & _) _].
  { intros o Ho. inversion Ho. }
  { reflexivity. }
  exists w'. split; [exact Hprocess|]. rewrite Hpending. reflexivity.
Defined.


End more_on_processor.

(** ** The scheduler's passes *)

Section more_on_scheduler.

Lemma accepted_calm {A} (items : list A) faults :
  (∀ o, o ∈ faults → o = None) → accepted items faults = items.
Proof.
  revert faults. induction items as [|x xs IH]; intros faults Hc; [done|]. simpl.
  destruct faults as [|[e|] faults]; [done| |].
  - discriminate (Hc (Some e)). left.
  - f_equal. apply IH. intros o Ho. apply Hc. by right.
Qed.

Lemma accepted_sublist {A} (items : list A) faults : sublist (accepted items faults) items.
Proof.
  revert faults. induction items as [|x xs IH]; intros faults; [done|]. simpl.
  destruct faults as [|[e|] faults]; [done| |].
  - by apply sublist_cons.
  - by apply sublist_skip.
Qed.

Lemma from_set_elem_of `{EqDecision A} (xs : list A) x : x ∈ from_set xs ↔ x ∈ xs.
Proof.
  induction xs as [|y xs IH]; [done|]. simpl.
  rewrite !elem_of_cons, list_elem_of_filter, IH.
  destruct (decide (x = y)) as [->|Hne].
  - split; intros _; by left.
  - split.
    + intros [->|[_ H]]; [done|by right].
    + intros [->|H]; [done|by right].
Qed.

Lemma from_set_NoDup `{EqDecision A} (xs : list A) : NoDup (from_set xs).
Proof.
  induction xs as [|y xs IH]; simpl; [constructor|].
  constructor.
  - rewrite list_elem_of_filter. by intros [? _].
  - by apply NoDup_filter.
Qed.

(** A loop that adds one job per item, each add in a [try] of its own. *)
Lemma enqueue_each {A} (name : JobType.t) (dataOf : A → JobData.t) (add : A → M Job.t) :
  (∀ x, add x = BullMQ.add name (dataOf x)) →
  ∀ items w,
    ∃ w' added,
      for_each items (λ x, try_catch (_ ← add x; mret ()) (λ _, mret ())) w = (Return (), w')
      ∧ World.db w' = World.db w
      ∧ World.queue w' = World.queue w ++ added
      ∧ Forall (fresh name) added
      ∧ Job.data <$> added = dataOf <$> accepted items (World.faults w).
Proof.
  intros Hadd items. induction items as [|x xs IH]; intros w.
  - exists w, []. rewrite app_nil_r. by split_and!.
  - assert (Hone : ∃ w1 added1,
              try_catch (_ ← add x; mret ()) (λ _, mret ()) w = (Return (), w1)
              ∧ World.db w1 = World.db w
              ∧ World.queue w1 = World.queue w ++ added1
              ∧ Forall (fresh name) added1
              ∧ ∀ xs, (Job.data <$> added1) ++ (dataOf <$> accepted xs (World.faults w1))
                      = dataOf <$> accepted (x :: xs) (World.faults w)).
    { rewrite Hadd. unfold try_catch, BullMQ.add, external_or_throw, external.
      rewrite !bind_unfold.
      destruct (World.faults w) as [|[e|] rest] eqn:Hf; exec.
      - eexists _, [_]. split; [reflexivity|]. simpl. split_and!; try done.
        + by repeat constructor.
        + intros ys. rewrite Hf. destruct ys; [done|]. simpl. done.
      - exists (World.set_faults (λ _, rest) w), []. rewrite app_nil_r. by split_and!.
      - eexists _, [_]. split; [reflexivity|]. simpl. split_and!; try done.
        by repeat constructor. }
    destruct Hone as (w1 & added1 & Hrun1 & Hdb1 & Hq1 & Hfresh1 & Hdata1).
    destruct (IH w1) as (w2 & added2 & Hrun2 & Hdb2 & Hq2 & Hfresh2 & Hdata2).
    exists w2, (added1 ++ added2). simpl. rewrite bind_unfold, Hrun1, Hrun2.
    split_and!; try done.
    + congruence.
    + by rewrite Hq2, Hq1, app_assoc.
    + by apply Forall_app.
    + rewrite fmap_app, Hdata2. apply Hdata1.
Qed.

Lemma elem_of_activeRows d campaign :
  campaign ∈ SchedulerService.activeRows d ↔
  (∃ key, Db.linkedin_campaigns d !! key = Some campaign)
  ∧ Campaign.status campaign = Some CampaignStatus.active.
Proof.
  unfold SchedulerService.activeRows. rewrite list_elem_of_filter, list_elem_of_fmap.
  split.
  - intros [Hactive ([key c] & -> & Hin)]. split; [|done].
    exists key. by apply elem_of_map_to_list in Hin.
  - intros [[key Hkey] Hactive]. split; [done|].
    exists (key, campaign). split; [done|]. by apply elem_of_map_to_list.
Qed.

Lemma elem_of_data {A} (dataOf : A → JobData.t) (items : list A) added job :
  Job.data <$> added = dataOf <$> items →
  job ∈ added → ∃ x, x ∈ items ∧ Job.data job = dataOf x.
Proof.
  intros Hdata Hjob.
  assert (Hin : Job.data job ∈ Job.data <$> added) by (by apply list_elem_of_fmap_2).
  rewrite Hdata in Hin. apply list_elem_of_fmap in Hin as (x & -> & Hx). eauto.
Qed.

(** What the passes read: nothing when the read fails, the active rows
    when it is answered. *)
Lemma getActiveCampaigns_spec w :
  ∃ campaigns,
    SchedulerService.getActiveCampaigns w =
      (Return campaigns, World.set_faults (drop 1) w)
    ∧ campaigns = match World.faults w with
                  | Some _ :: _ => []
                  | _ => SchedulerService.activeRows (World.db w)
                  end.
Proof.
  unfold SchedulerService.getActiveCampaigns, external. exec.
  unfold World.set_faults.
  destruct (World.faults w) as [|[e|] rest] eqn:Hf; simpl; eexists;
    (split; [|reflexivity]); [|done|done].
  f_equal. destruct w; simpl in *; by subst.
Qed.

(** X18.  The quarter-hourly pass [processFollowRequests] never throws and
    writes nothing to the store.  Every job it adds is a waiting
    follow-request job for a campaign whose status is [active], asking for 10
    connections within three minutes.  When Postgres and Redis answer, one
    job is added for each active campaign; when the read of the campaigns
    fails, none is; and when adding the job of one campaign fails, the jobs
    of the others are added all the same. *)
Theorem processFollowRequests_enqueues_active_campaigns (w : World.t) :
  ∃ w' added,
    SchedulerService.processFollowRequests w = (Return (), w')
    ∧ World.db w' = World.db w
    ∧ World.queue w' = World.queue w ++ added
    ∧ (∀ job, job ∈ added →
         fresh JobType.followRequest job
         ∧ requestedConnections job = 10
         ∧ ∃ key campaign,
             Db.linkedin_campaigns (World.db w) !! key = Some campaign
             ∧ Campaign.status campaign = Some CampaignStatus.active
             ∧ Job.data job = followRequestData campaign)
    ∧ (calm w →
         Job.data <$> added = followRequestData <$> SchedulerService.activeRows (World.db w)
         ∧ ∀ key campaign,
             Db.linkedin_campaigns (World.db w) !! key = Some campaign →
             Campaign.status campaign = Some CampaignStatus.active →
             ∃ job, job ∈ added ∧ Job.data job = followRequestData campaign)
    ∧ (∀ e rest, World.faults w = Some e :: rest → added = [])
    ∧ (∀ rest, World.faults w = None :: rest →
         Job.data <$> added =
           followRequestData <$> accepted (SchedulerService.activeRows (World.db w)) rest).
Proof.
  destruct (getActiveCampaigns_spec w) as (campaigns & Hget & Hcampaigns).
  destruct (enqueue_each JobType.followRequest followRequestData
              (λ campaign, QueueService.addFollowRequestJob (Campaign.user_id campaign)
                             (Campaign.id campaign) (Some SchedulerService.followRequestPayload))
              (λ _, eq_refl) campaigns (World.set_faults (drop 1) w))
    as (w' & added & Hrun & Hdb & Hq & Hfresh & Hdata).
  assert (Hpass : ∃ w'', SchedulerService.processFollowRequests w = (Return (), w'')
                         ∧ World.db w'' = World.db w
                         ∧ World.queue w'' = World.queue w ++ added).
  { unfold SchedulerService.processFollowRequests. unfold try_catch at 1.
    rewrite (bind_return _ _ _ _ _ Hget).
    destruct (decide (campaigns = [])) as [Hnil|Hne].
    - rewrite bool_decide_eq_true_2 by done. eexists. split; [reflexivity|].
      split; [done|]. rewrite Hnil in Hdata. simpl in Hdata.
      apply fmap_nil_inv in Hdata as ->. by rewrite app_nil_r.
    - rewrite bool_decide_eq_false_2 by done. cbv beta in Hrun. rewrite Hrun.
      exists w'. by split_and!. }
  destruct Hpass as (w'' & Hpass & Hdb'' & Hq'').
  exists w'', added. split_and!; try done.
  - intros job Hjob.
    destruct (elem_of_data _ _ _ _ Hdata Hjob) as (campaign & Hin & Hjobdata).
    apply elem_of_sublist with (l2 := campaigns) in Hin; [|apply accepted_sublist].
    split; [by eapply Forall_forall in Hfresh|].
    split; [unfold requestedConnections; by rewrite Hjobdata|].
    assert (Hrow : campaign ∈ SchedulerService.activeRows (World.db w)).
    { rewrite Hcampaigns in Hin. destruct (World.faults w) as [|[?|] ?]; try done.
      inversion Hin. }
    apply elem_of_activeRows in Hrow as [[key Hkey] Hactive]. eauto.
  - intros Hc.
    assert (Hall : Job.data <$> added =
                   followRequestData <$> SchedulerService.activeRows (World.db w)).
    { rewrite Hdata, accepted_calm.
      - rewrite Hcampaigns. destruct (World.faults w) as [|[e|] rest] eqn:Hf; try done.
        discriminate (Hc (Some e)). rewrite Hf. left.
      - simpl. intros o Ho. apply Hc. eapply elem_of_sublist; [done|apply sublist_drop]. }
    split; [done|]. intros key campaign Hkey Hactive.
    assert (Hin : followRequestData campaign ∈ Job.data <$> added).
    { rewrite Hall. apply list_elem_of_fmap_2, elem_of_activeRows. eauto. }
    apply list_elem_of_fmap in Hin as (job & Hjobdata & Hjob). eauto.
  - intros e rest Hf. rewrite Hf in Hcampaigns. subst campaigns.
    simpl in Hdata. by apply fmap_nil_inv in Hdata.
  - intros rest Hf. rewrite Hdata, Hcampaigns. simpl. by rewrite Hf.
Qed.

(** X19.  The follow-response pass [processFollowResponses] never throws and
    writes nothing to the store.  Every job it adds is a waiting
    follow-response job filed under the campaign id "system", without
    payload, for a user who has an active campaign; no two jobs of a pass are
    for the same user, however many active campaigns the user has; and when
    Postgres and Redis answer, every user with an active campaign gets a
    job. *)
Theorem processFollowResponses_enqueues_one_job_per_user (w : World.t) :
  ∃ w' added,
    SchedulerService.processFollowResponses w = (Return (), w')
    ∧ World.db w' = World.db w
    ∧ World.queue w' = World.queue w ++ added
    ∧ (∀ job, job ∈ added →
         fresh JobType.followResponse job
         ∧ Job.data job = followResponseData (JobData.userId (Job.data job))
         ∧ ∃ key campaign,
             Db.linkedin_campaigns (World.db w) !! key = Some campaign
             ∧ Campaign.status campaign = Some CampaignStatus.active
             ∧ Campaign.user_id campaign = JobData.userId (Job.data job))
    ∧ NoDup (JobData.userId ∘ Job.data <$> added)
    ∧ (calm w →
         ∀ key campaign,
           Db.linkedin_campaigns (World.db w) !! key = Some campaign →
           Campaign.status campaign = Some CampaignStatus.active →
           ∃ job, job ∈ added ∧ JobData.userId (Job.data job) = Campaign.user_id campaign)
    ∧ (∀ e rest, World.faults w = Some e :: rest → added = []).
Proof.
  assert (Hget : ∃ users,
            SchedulerService.getActiveUsers w = (Return users, World.set_faults (drop 1) w)
            ∧ users = match World.faults w with
                      | Some _ :: _ => []
                      | _ => from_set (Campaign.user_id <$>
                                         SchedulerService.activeRows (World.db w))
                      end).
  { unfold SchedulerService.getActiveUsers, external. exec.
    unfold World.set_faults.
    destruct (World.faults w) as [|[e|] rest] eqn:Hf; simpl; eexists;
      (split; [|reflexivity]); [|done|done].
    f_equal. destruct w; simpl in *; by subst. }
  destruct Hget as (users & Hget & Husers).
  destruct (enqueue_each JobType.followResponse followResponseData
              (λ user_id, QueueService.addFollowResponseJob user_id "system" None)
              (λ _, eq_refl) users (World.set_faults (drop 1) w))
    as (w' & added & Hrun & Hdb & Hq & Hfresh & Hdata).
  assert (Hpass : ∃ w'', SchedulerService.processFollowResponses w = (Return (), w'')
                         ∧ World.db w'' = World.db w
                         ∧ World.queue w'' = World.queue w ++ added).
  { unfold SchedulerService.processFollowResponses. unfold try_catch at 1.
    rewrite (bind_return _ _ _ _ _ Hget).
    destruct (decide (users = [])) as [Hnil|Hne].
    - rewrite bool_decide_eq_true_2 by done. eexists. split; [reflexivity|].
      split; [done|]. rewrite Hnil in Hdata. simpl in Hdata.
      apply fmap_nil_inv in Hdata as ->. by rewrite app_nil_r.
    - rewrite bool_decide_eq_false_2 by done. cbv beta in Hrun. rewrite Hrun.
      exists w'. by split_and!. }
  destruct Hpass as (w'' & Hpass & Hdb'' & Hq'').
  assert (Hnodup : NoDup users).
  { rewrite Husers. destruct (World.faults w) as [|[?|] ?];
      try apply from_set_NoDup. constructor. }
  exists w'', added. split_and!; try done.
  - intros job Hjob.
    destruct (elem_of_data _ _ _ _ Hdata Hjob) as (user & Hin & Hjobdata).
    apply elem_of_sublist with (l2 := users) in Hin; [|apply accepted_sublist].
    split; [by eapply Forall_forall in Hfresh|].
    rewrite Hjobdata. split; [done|]. simpl.
    assert (Hrow : user ∈ Campaign.user_id <$> SchedulerService.activeRows (World.db w)).
    { rewrite Husers in Hin. destruct (World.faults w) as [|[?|] ?];
        [|inversion Hin|]; by apply from_set_elem_of. }
    apply list_elem_of_fmap in Hrow as (campaign & -> & Hrow).
    apply elem_of_activeRows in Hrow as [[key Hkey] Hactive]. eauto.
  - rewrite list_fmap_compose, Hdata, <- list_fmap_compose.
    change (JobData.userId ∘ followResponseData) with (@id string).
    rewrite list_fmap_id. eapply sublist_NoDup; [done|apply accepted_sublist].
  - intros Hc key campaign Hkey Hactive.
    assert (Hin : followResponseData (Campaign.user_id campaign) ∈ Job.data <$> added).
    { rewrite Hdata, accepted_calm.
      - apply list_elem_of_fmap_2. rewrite Husers.
        assert (Campaign.user_id campaign ∈
                from_set (Campaign.user_id <$> SchedulerService.activeRows (World.db w))).
        { apply from_set_elem_of, list_elem_of_fmap_2, elem_of_activeRows. eauto. }
        destruct (World.faults w) as [|[e|] rest] eqn:Hf; try done.
        discriminate (Hc (Some e)). rewrite Hf. left.
      - simpl. intros o Ho. apply Hc. eapply elem_of_sublist; [done|apply sublist_drop]. }
    apply list_elem_of_fmap in Hin as (job & Hjobdata & Hjob).
    exists job. split; [done|]. by rewrite <- Hjobdata.
  - intros e rest Hf. rewrite Hf in Husers. subst users.
    simpl in Hdata. by apply fmap_nil_inv in Hdata.
Qed.

(** X20.  No worker has a processor for the job types [sendMessages],
    [processPendingJobs] and [processSingleCampaign]: whichever of the two
    workers takes such a job from the queue completes it without calling a
    processor, and nothing changes but the state of the job.  The jobs the
    hourly reconciliation makes are of type [processPendingJobs], so the
    pending job a reconciled job stands for is neither run nor deleted, and
    the next pass selects it again. *)
Theorem unhandled_job_types_complete_unprocessed
    (deps : WorkerService.Processors) (w : World.t) (i : nat) (job : Job.t) :
  list_find (λ job, Job.state job = JobState.waiting) (World.queue w) = Some (i, job) →
  JobData.jobType (Job.data job) = JobType.sendMessages
  ∨ JobData.jobType (Job.data job) = JobType.processPendingJobs
  ∨ JobData.jobType (Job.data job) = JobType.processSingleCampaign →
  BullMQ.runNext (WorkerService.followRequestWorker deps) w
    = (Return (Some (Job.id job)), completedAt i job w)
  ∧ BullMQ.runNext (WorkerService.followResponseWorker deps) w
    = (Return (Some (Job.id job)), completedAt i job w)
  ∧ World.queue (completedAt i job w) !! i = Some (Job.with_state JobState.completed job)
  ∧ World.db (completedAt i job w) = World.db w
  ∧ selectedPendingJobs (completedAt i job w) = selectedPendingJobs w
  ∧ ∀ pendingJob, promotes pendingJob job →
      JobData.jobType (Job.data job) = JobType.processPendingJobs.
Proof.
  intros Hfind Hkind.
  assert (Hi : (i < length (World.queue w))%nat).
  { apply list_find_Some in Hfind as (Hi & _). by eapply lookup_lt_Some. }
  split_and!.
  - unfold BullMQ.runNext. exec. rewrite Hfind. exec.
    unfold try_catch, WorkerService.followRequestWorker. exec.
    destruct (decide _) as [Heq|_]; [|by exec].
    rewrite Heq in Hkind. by destruct Hkind as [|[|]].
  - unfold BullMQ.runNext. exec. rewrite Hfind. exec.
    unfold try_catch, WorkerService.followResponseWorker. exec.
    destruct (decide _) as [Heq|_]; [|by exec].
    rewrite Heq in Hkind. by destruct Hkind as [|[|]].
  - simpl. apply list_lookup_insert_eq. by rewrite length_insert.
  - done.
  - done.
  - by intros pendingJob (_ & _ & ->).
Qed.

(** The job the reconciliation makes for the pending job of the example,
    taken by the "Follow Request Worker". *)
Lemma unhandled_job_types_complete_unprocessed_witness :
  ∃ w1 job,
    SchedulerService.processPendingJobs (Example.world_with_pending 0) = (Return (), w1)
    ∧ World.queue w1 = [job]
    ∧ BullMQ.runNext
        (WorkerService.followRequestWorker
           (WorkerService.mkProcessors
              (FollowRequestProcessor.process) (λ _, mret ()))) w1
      = (Return (Some "1"), completedAt 0 job w1)
    ∧ Db.pending_jobs (World.db (completedAt 0 job w1)) = [Example.pendingJob 0].
Proof.
  pose (w1 := (SchedulerService.processPendingJobs (Example.world_with_pending 0)).2).
  pose (job := {| Job.id := "1"; Job.name := JobType.processPendingJobs;
                  Job.data := reconciliationData (Example.pendingJob 0);
                  Job.state := JobState.waiting; Job.attemptsMade := 0 |}).
  destruct (unhandled_job_types_complete_unprocessed
              (WorkerService.mkProcessors
                 (FollowRequestProcessor.process) (λ _, mret ()))
              w1 0%nat job eq_refl (or_intror (or_introl eq_refl)))
    as (Hrequest & _ & _ & Hdb & _).
  exists w1, job. split; [reflexivity|]. split; [reflexivity|].
  split; [exact Hrequest|]. rewrite Hdb. reflexivity.
Defined.

End more_on_scheduler.

(** ** The browser launcher *)

Section more_on_browser.

(** X23.  Without a browser configuration no session is made: for a user
    without a session, [createSession], [getOrCreateSession] and
    [acquireSession] throw "Browser configuration not found" before any call
    on Chrome and leave the world as it is, and [runWithLogin] for a campaign
    of that user throws the same error without running the action, having
    offered its "failed" record to the activity log and done nothing else. *)
Theorem createSession_needs_browser_configuration
    (w : World.t) (userId : string) :
  World.browserConfig w = None →
  let error := Error.mk "Error" "Browser configuration not found" "" in
  SessionService.createSession userId w = (Throw error, w)
  ∧ (World.sessions w !! userId = None →
       SessionService.getOrCreateSession userId w = (Throw error, w)
       ∧ LinkedInAutomationService.acquireSession userId w = (Throw error, w)
       ∧ ∀ (T : Type) (campaign : Campaign.t) (accountData : LinkedInAccount.t)
           (runFn : LinkedInAutomationService.RunArgs → M T),
           Campaign.user_id campaign = userId →
           LinkedInAutomationService.runWithLogin campaign accountData runFn w =
             (Throw error,
              emitted (LinkedInAutomationService.failedRecord campaign error) w)).
Proof.
  intros Hconfig error.
  assert (Hcreate : SessionService.createSession userId w = (Throw error, w)).
  { unfold SessionService.createSession, try_catch, SessionService.openLoginPage,
      SessionService.launchBrowser, SessionService.puppeteerService,
      Browser.PuppeteerService.launchBrowser, try_catch.
    exec. by rewrite Hconfig. }
  split; [done|]. intros Hnone.
  assert (Hacquire : LinkedInAutomationService.acquireSession userId w = (Throw error, w)).
  { unfold LinkedInAutomationService.acquireSession, SessionService.getSession.
    exec. rewrite Hnone. exec. by rewrite Hcreate. }
  split_and!.
  - unfold SessionService.getOrCreateSession, SessionService.getSession.
    exec. rewrite Hnone. by exec.
  - done.
  - intros T campaign accountData runFn Huser.
    unfold LinkedInAutomationService.runWithLogin. rewrite Huser.
    erewrite try_catch_throw.
    + by rewrite (bind_return _ _ _ _ _ (logActivity_emitted _ _)).
    + by rewrite (bind_throw _ _ _ _ _ Hacquire).
Qed.

(** The world of the example without its browser configuration. *)
Lemma createSession_needs_browser_configuration_witness :
  SessionService.createSession "user-1"
    (World.set_browserConfig (λ _, None) (Example.world 0))
  = (Throw (Error.mk "Error" "Browser configuration not found" ""),
     World.set_browserConfig (λ _, None) (Example.world 0)).
Proof.
  destruct (createSession_needs_browser_configuration
              (World.set_browserConfig (λ _, None) (Example.world 0)) "user-1" eq_refl)
    as [Hcreate _].
  exact Hcreate.
Defined.

(** X24.  [PuppeteerService] remembers one browser, the last it launched:
    after two launches [getBrowser] answers the second, and [closeBrowser]
    closes that one and forgets it, or leaves everything as it is when the
    close fails; either way the browser launched first keeps running, and
    once [this.browser] is empty [closeBrowser] does nothing and
    [createPage] without a browser throws "No browser instance available". *)
Theorem closeBrowser_closes_only_the_last_launched
    (self self1 self2 : Browser.PuppeteerService.t) (w w1 w2 : World.t) (first second : nat) :
  Browser.PuppeteerService.launchBrowser self w = (Return (first, self1), w1) →
  Browser.PuppeteerService.launchBrowser self1 w1 = (Return (second, self2), w2) →
  Browser.PuppeteerService.getBrowser self2 = Some second
  ∧ first ≠ second
  ∧ ∃ self3 w3,
      Browser.PuppeteerService.closeBrowser self2 w2 = (Return self3, w3)
      ∧ World.browsers w3 !! first = Some true
      ∧ ((Browser.PuppeteerService.getBrowser self3 = None
          ∧ World.browsers w3 !! second = Some false)
         ∨ (self3 = self2 ∧ World.browsers w3 = World.browsers w2))
      ∧ (Browser.PuppeteerService.getBrowser self3 = None →
         Browser.PuppeteerService.closeBrowser self3 w3 = (Return self3, w3)
         ∧ Browser.PuppeteerService.createPage self3 None w3 =
             (Throw (Error.mk "Error" "No browser instance available" ""), w3)).
Proof.
  assert (Hlaunch : ∀ s v b s' v',
            Browser.PuppeteerService.launchBrowser s v = (Return (b, s'), v') →
            b = length (World.browsers v)
            ∧ World.browsers v' = World.browsers v ++ [true]
            ∧ Browser.PuppeteerService.browser s' = Some b).
  { intros s v b s' v'.
    unfold Browser.PuppeteerService.launchBrowser, try_catch, Browser.PuppeteerService.launch,
      external_or_throw, external.
    destruct (Browser.PuppeteerService.config s) as [config|]; [|by intros [=]]. exec.
    destruct (World.faults v) as [|[e|] rest]; simpl; intros [= <- <- <-]; done. }
  intros H1 H2.
  destruct (Hlaunch _ _ _ _ _ H1) as (Hfirst & Hb1 & _).
  destruct (Hlaunch _ _ _ _ _ H2) as (Hsecond & Hb2 & Hself2).
  assert (Hne : first ≠ second).
  { rewrite Hfirst, Hsecond, Hb1, length_app. simpl. lia. }
  assert (Hrunning : World.browsers w2 !! first = Some true).
  { rewrite Hb2, Hb1, Hfirst, <- app_assoc. by apply list_lookup_middle. }
  assert (Hlast : World.browsers w2 !! second = Some true).
  { rewrite Hb2, Hsecond. by apply list_lookup_middle. }
  split; [done|]. split; [done|].
  unfold Browser.PuppeteerService.closeBrowser at 1, try_catch, Puppeteer.close,
    external_or_throw, external.
  rewrite Hself2. exec.
  assert (Hempty : ∀ s v, Browser.PuppeteerService.getBrowser s = None →
            Browser.PuppeteerService.closeBrowser s v = (Return s, v)
            ∧ Browser.PuppeteerService.createPage s None v =
                (Throw (Error.mk "Error" "No browser instance available" ""), v)).
  { intros s v Hs. unfold Browser.PuppeteerService.getBrowser in Hs.
    unfold Browser.PuppeteerService.closeBrowser, Browser.PuppeteerService.createPage,
      try_catch. by rewrite Hs. }
  destruct (World.faults w2) as [|[e|] rest]; simpl;
    (eexists _, _; split; [reflexivity|]); simpl.
  - split; [by rewrite list_lookup_insert_ne|]. split; [|intros _; by apply Hempty].
    left. split; [done|]. apply list_lookup_insert_eq. by eapply lookup_lt_Some.
  - split; [done|]. split; [by right|apply Hempty].
  - split; [by rewrite list_lookup_insert_ne|]. split; [|intros _; by apply Hempty].
    left. split; [done|]. apply list_lookup_insert_eq. by eapply lookup_lt_Some.
Qed.

(** Two launches with the configuration of the defaults, then a close. *)
Lemma closeBrowser_closes_only_the_last_launched_witness :
  ∃ self3 w3,
    Browser.PuppeteerService.closeBrowser
      (Browser.PuppeteerService.mk (Some (BrowserConfig.mk None None None None)) (Some 1%nat))
      (World.set_browsers (λ _, [true; true]) (Example.world 0)) = (Return self3, w3)
    ∧ World.browsers w3 !! 0%nat = Some true.
Proof.
  pose (self := Browser.PuppeteerService.mk (Some (BrowserConfig.mk None None None None)) None).
  destruct (closeBrowser_closes_only_the_last_launched self
              (Browser.PuppeteerService.mk (Some (BrowserConfig.mk None None None None))
                 (Some 0%nat))
              (Browser.PuppeteerService.mk (Some (BrowserConfig.mk None None None None))
                 (Some 1%nat))
              (Example.world 0)
              (World.set_browsers (λ _, [true]) (Example.world 0))
              (World.set_browsers (λ _, [true; true]) (Example.world 0))
              0%nat 1%nat eq_refl eq_refl)
    as (_ & _ & self3 & w3 & Hclose & Hfirst & _).
  exists self3, w3. split; [exact Hclose|exact Hfirst].
Defined.

(** X25.  [createPage] opens the page in the browser it is given, and in
    [this.browser] when it is given none.  It makes two calls on Chrome: when
    both are answered it returns the new page, blank, in that browser; when
    the page opens but setting its user agent fails, the error is thrown
    and the page stays open in the browser, with no handle returned to close
    it. *)
Theorem createPage_falls_back_and_can_leak_a_page
    (self : Browser.PuppeteerService.t) (browser : nat) (w : World.t) :
  let blank := PageState.mk browser false "about:blank" in
  (Browser.PuppeteerService.browser self = Some browser →
     Browser.PuppeteerService.createPage self None w =
     Browser.PuppeteerService.createPage self (Some browser) w)
  ∧ (calm w →
       Browser.PuppeteerService.createPage self (Some browser) w
         = (Return (length (World.pages w)),
            World.set_faults (drop 1)
              (World.set_pages (λ l, l ++ [blank]) (World.set_faults (drop 1) w))))
  ∧ (∀ e rest, World.faults w = None :: Some e :: rest →
       ∃ w',
         Browser.PuppeteerService.createPage self (Some browser) w = (Throw e, w')
         ∧ World.pages w' = World.pages w ++ [blank]
         ∧ World.browsers w' = World.browsers w).
Proof.
  intros blank. split_and!.
  - intros Hself. unfold Browser.PuppeteerService.createPage. by rewrite Hself.
  - intros Hc.
    unfold Browser.PuppeteerService.createPage, try_catch,
      Browser.PuppeteerService.newPage, Browser.PuppeteerService.setUserAgent.
    rewrite !bind_unfold, external_or_throw_calm_run by done. exec.
    rewrite external_or_throw_calm_run; [done|].
    apply (calm_same_faults (World.set_faults (drop 1) w)); [done|by apply calm_drop].
  - intros e rest Hf.
    unfold Browser.PuppeteerService.createPage, try_catch, Browser.PuppeteerService.newPage,
      Browser.PuppeteerService.setUserAgent, external_or_throw, external.
    exec. rewrite Hf. simpl. eexists. by split.
Qed.

End more_on_browser.

(** ** The jobs API and the websocket gateway *)

Section more_on_api.

(** X26.  [POST api/jobs/follow-request] never lets an error of the queue
    through as it is.  When Redis takes the job, one waiting follow-request
    job is added for the user and campaign of the body and its id is
    answered; a body without [importLimit] is answered with 10 and the job
    asks for 10; a body with [importLimit] 0 is answered with 0, yet the
    job asks for 10 connections.  When Redis refuses, nothing is queued
    and the answer is a 500 "Failed to create follow request job" that
    carries the message of the error. *)
Theorem createFollowRequestJob_defaults_and_wraps_errors
    (body : JobsController.FollowRequestBody) (w : World.t) :
  ∃ answer w',
    JobsController.createFollowRequestJob body w = (Return answer, w')
    ∧ (World.faults w = [] ∨ (∃ rest, World.faults w = None :: rest) →
         ∃ created job,
           answer = inr created
           ∧ World.queue w' = World.queue w ++ [job]
           ∧ fresh JobType.followRequest job
           ∧ JobsController.followRequestJobId created = Job.id job
           ∧ JobData.userId (Job.data job) = JobsController.bodyUserId body
           ∧ JobData.campaignId (Job.data job) = JobsController.bodyCampaignId body
           ∧ JobsController.followRequestData created =
               (JobsController.bodyUserId body, JobsController.bodyCampaignId body,
                default 10 (JobsController.importLimit body))
           ∧ requestedConnections job =
               match JobsController.importLimit body with
               | None => 10
               | Some n => if decide (n = 0) then 10 else n
               end)
    ∧ (∀ e rest, World.faults w = Some e :: rest →
         answer = inl (HttpException.mk 500 "Failed to create follow request job"
                         (Some (Error.message e)))
         ∧ World.queue w' = World.queue w).
Proof.
  unfold JobsController.createFollowRequestJob, try_catch, QueueService.addFollowRequestJob,
    QueueService.addJob, BullMQ.add, external_or_throw, external.
  exec.
  destruct (World.faults w) as [|[e|] rest] eqn:Hf; simpl;
    (eexists _, _; split; [reflexivity|]); simpl.
  - split; [|by intros ? ? [=]]. intros _. eexists _, _. split_and!; try done.
    unfold requestedConnections. simpl. by destruct (JobsController.importLimit body).
  - split; [by intros [[=]|[? [=]]]|]. by intros ? ? [= <- _].
  - split; [|by intros ? ? [=]]. intros _. eexists _, _. split_and!; try done.
    unfold requestedConnections. simpl. by destruct (JobsController.importLimit body).
Qed.

(** X27.  A job made with [POST api/jobs] can be read back with
    [GET api/jobs/:jobId] under the id that was answered, when Redis answers
    and the id is not already taken: the job found is the waiting job with
    the user, campaign, type and data of the request.  An id that no job of
    the queue carries is answered with the 404 "Job not found", which the
    handler's own [catch] lets through instead of turning it into a 500. *)
Theorem createJob_then_getJob
    (createJobDto : JobsController.CreateJobDto) (w : World.t) :
  calm w →
  (∀ job, job ∈ World.queue w → Job.id job ≠ pretty (S (World.queue_seq w))) →
  ∃ created w1,
    JobsController.createJob createJobDto w = (Return (inr created), w1)
    ∧ (∃ job w2,
         JobsController.getJob (JobsController.jobId created) w1 = (Return (inr job), w2)
         ∧ fresh (JobsController.jobType createJobDto) job
         ∧ Job.data job =
             {| JobData.userId := JobsController.userId createJobDto;
                JobData.campaignId := JobsController.campaignId createJobDto;
                JobData.jobType := JobsController.jobType createJobDto;
                JobData.data := JobsController.data createJobDto |})
    ∧ ∀ other,
        (∀ job, job ∈ World.queue w1 → Job.id job ≠ other) →
        ∃ w2, JobsController.getJob other w1 =
                (Return (inl (HttpException.mk 404 "Job not found" None)), w2).
Proof.
  intros Hc Hfresh.
  unfold JobsController.createJob, try_catch, QueueService.addJob, BullMQ.add.
  calm_call Hc. exec.
  set (w1 := World.set_queue_seq S _).
  assert (Hc1 : calm w1) by done.
  assert (Hq1 : World.queue w1 = World.queue w ++
            [{| Job.id := pretty (S (World.queue_seq w));
                Job.name := JobsController.jobType createJobDto;
                Job.data :=
                  {| JobData.userId := JobsController.userId createJobDto;
                     JobData.campaignId := JobsController.campaignId createJobDto;
                     JobData.jobType := JobsController.jobType createJobDto;
                     JobData.data := JobsController.data createJobDto |};
                Job.state := JobState.waiting;
                Job.attemptsMade := 0 |}]) by done.
  clearbody w1.
  eexists _, w1. split; [reflexivity|]. split.
  - unfold JobsController.getJob, try_catch, JobsController.getJobOfQueue.
    calm_call Hc1. exec. rewrite Hq1.
    rewrite list_find_app_r.
    2:{ apply list_find_None, Forall_forall. intros job Hjob. by apply Hfresh. }
    simpl. rewrite decide_True by done. simpl.
    eexists _, _. split; [reflexivity|]. done.
  - intros other Hother.
    unfold JobsController.getJob, try_catch, JobsController.getJobOfQueue.
    calm_call Hc1. exec.
    match goal with |- context [list_find ?P ?l] =>
      assert (Hnone : list_find P l = None)
    end.
    { apply list_find_None, Forall_forall. intros job Hjob. by apply Hother. }
    rewrite Hnone. simpl. eexists. reflexivity.
Qed.

(** A request for a job of a type no worker handles, and the job read
    back. *)
Lemma createJob_then_getJob_witness :
  ∃ created w1 job w2,
    JobsController.createJob
      (JobsController.mkCreateJobDto "user-1" "campaign-1" JobType.sendMessages None)
      (Example.world 0)
    = (Return (inr created), w1)
    ∧ JobsController.getJob (JobsController.jobId created) w1 = (Return (inr job), w2)
    ∧ Job.name job = JobType.sendMessages
    ∧ Job.state job = JobState.waiting.
Proof.
  destruct (createJob_then_getJob
              (JobsController.mkCreateJobDto "user-1" "campaign-1" JobType.sendMessages None)
              (Example.world 0))
    as (created & w1 & Hcreate & (job & w2 & Hget & Hfresh & _) & _).
  { intros o Ho. inversion Ho. }
  { intros job Hjob. inversion Hjob. }
  exists created, w1, job, w2.
  split; [exact Hcreate|]. split; [exact Hget|].
  split; [apply Hfresh|apply Hfresh].
Defined.

(** X28.  The gateway's [userSockets] holds one socket per user, the last
    that connected, and [handleDisconnect] removes the user's entry
    whichever socket of the user disconnects.  So when a user connects, then
    connects again from a second socket, and the first socket disconnects,
    the user is no longer among the connected users although the second
    socket was never disconnected and is in the user's room.  A client
    without a user id, or with an empty one, is disconnected and never
    registered. *)
Theorem handleDisconnect_of_earlier_socket_unregisters_user
    (earlier later : Socket.t) (userId : string) (self : SimpleWebsocketGateway.t) :
  SimpleWebsocketGateway.userIdOf earlier = Some userId →
  SimpleWebsocketGateway.userIdOf later = Some userId →
  SimpleWebsocketGateway.userSockets
    (SimpleWebsocketGateway.handleConnection later
       (SimpleWebsocketGateway.handleConnection earlier self)) !! userId = Some later
  ∧ SimpleWebsocketGateway.userSockets
      (SimpleWebsocketGateway.handleDisconnect earlier
         (SimpleWebsocketGateway.handleConnection later
            (SimpleWebsocketGateway.handleConnection earlier self))) !! userId = None
  ∧ SimpleWebsocketGateway.effects
      (SimpleWebsocketGateway.handleDisconnect earlier
         (SimpleWebsocketGateway.handleConnection later
            (SimpleWebsocketGateway.handleConnection earlier self))) =
      [ SimpleWebsocketGateway.Emit (Socket.id later) "connected";
        SimpleWebsocketGateway.Join (Socket.id later) ("user_" +:+ userId);
        SimpleWebsocketGateway.Emit (Socket.id earlier) "connected";
        SimpleWebsocketGateway.Join (Socket.id earlier) ("user_" +:+ userId) ]
      ++ SimpleWebsocketGateway.effects self
  ∧ SimpleWebsocketGateway.getConnectedUsersCount
      (SimpleWebsocketGateway.handleDisconnect earlier
         (SimpleWebsocketGateway.handleConnection later
            (SimpleWebsocketGateway.handleConnection earlier self))) =
      size (delete userId (SimpleWebsocketGateway.userSockets self))
  ∧ ∀ anonymous,
      SimpleWebsocketGateway.userIdOf anonymous = None →
      SimpleWebsocketGateway.handleConnection anonymous self =
        SimpleWebsocketGateway.mk (SimpleWebsocketGateway.userSockets self)
          (SimpleWebsocketGateway.Disconnect (Socket.id anonymous)
           :: SimpleWebsocketGateway.effects self).
Proof.
  intros Hearlier Hlater.
  unfold SimpleWebsocketGateway.handleDisconnect, SimpleWebsocketGateway.handleConnection,
    SimpleWebsocketGateway.getConnectedUsersCount.
  rewrite Hearlier, Hlater. simpl. split_and!.
  - apply lookup_insert_eq.
  - apply lookup_delete_eq.
  - done.
  - by rewrite !delete_insert_eq.
  - intros anonymous Hnone. by rewrite Hnone.
Qed.

(** Two tabs of user-1; the first is closed. *)
Lemma handleDisconnect_of_earlier_socket_unregisters_user_witness :
  SimpleWebsocketGateway.getConnectedUsersCount
    (SimpleWebsocketGateway.handleDisconnect (Socket.mk "socket-a" (Some "user-1"))
       (SimpleWebsocketGateway.handleConnection (Socket.mk "socket-b" (Some "user-1"))
          (SimpleWebsocketGateway.handleConnection (Socket.mk "socket-a" (Some "user-1"))
             SimpleWebsocketGateway.empty))) = 0%nat.
Proof.
  destruct (handleDisconnect_of_earlier_socket_unregisters_user
              (Socket.mk "socket-a" (Some "user-1")) (Socket.mk "socket-b" (Some "user-1"))
              "user-1" SimpleWebsocketGateway.empty eq_refl eq_refl)
    as (_ & _ & _ & Hcount & _).
  rewrite Hcount. reflexivity.
Defined.

(** The scheduler's passes leave the clock alone. *)
Lemma passes_keep_clock now :
  keeps (λ w, World.clock w = now) SchedulerService.processFollowRequests
  ∧ keeps (λ w, World.clock w = now) SchedulerService.processFollowResponses
  ∧ keeps (λ w, World.clock w = now) SchedulerService.processPendingJobs.
Proof.
  unfold SchedulerService.processFollowRequests, SchedulerService.processFollowResponses,
    SchedulerService.processPendingJobs, SchedulerService.getActiveCampaigns,
    SchedulerService.getActiveUsers, LinkedInSettingsService.getProcessablePendingJobs,
    QueueService.addFollowRequestJob, QueueService.addFollowResponseJob,
    QueueService.addJob, BullMQ.add.
  split_and!; keeps_split; done.
Qed.

(** A [try] whose [catch] only logs never throws. *)
Lemma try_catch_swallows (m : M unit) w :
  ∃ w', try_catch m (λ _, mret ()) w = (Return (), w').
Proof. unfold try_catch. destruct (m w) as [[[]|e] w']; eauto. Qed.

(** A pass that finds the store down returns at once. *)
Lemma passes_store_down w e rest :
  World.faults w = Some e :: rest →
  SchedulerService.processFollowRequests w = (Return (), World.set_faults (λ _, rest) w)
  ∧ SchedulerService.processFollowResponses w = (Return (), World.set_faults (λ _, rest) w)
  ∧ SchedulerService.processPendingJobs w = (Return (), World.set_faults (λ _, rest) w).
Proof.
  intros Hf.
  unfold SchedulerService.processFollowRequests, SchedulerService.processFollowResponses,
    SchedulerService.processPendingJobs, SchedulerService.getActiveCampaigns,
    SchedulerService.getActiveUsers, LinkedInSettingsService.getProcessablePendingJobs,
    try_catch, external.
  exec. rewrite Hf. by split_and!.
Qed.

(** X29.  The three trigger endpoints of the scheduler always answer with
    success and the time of the call: the passes they run swallow every
    error, so the 500 the handlers are written to answer with is never
    sent.  In particular a trigger answers success when the store is down
    and the pass has queued nothing. *)
Theorem scheduler_triggers_always_answer_success (w : World.t) :
  (∃ w',
     SchedulerController.triggerFollowRequests w =
       (Return (inr (SchedulerController.mkTriggered
                       "Follow requests processing triggered successfully"
                       (World.clock w))), w')
     ∧ ∀ e rest, World.faults w = Some e :: rest → World.queue w' = World.queue w)
  ∧ (∃ w',
       SchedulerController.triggerFollowResponses w =
         (Return (inr (SchedulerController.mkTriggered
                         "Follow responses processing triggered successfully"
                         (World.clock w))), w')
       ∧ ∀ e rest, World.faults w = Some e :: rest → World.queue w' = World.queue w)
  ∧ (∃ w',
       SchedulerController.triggerPendingJobs w =
         (Return (inr (SchedulerController.mkTriggered
                         "Pending jobs processing triggered successfully"
                         (World.clock w))), w')
       ∧ ∀ e rest, World.faults w = Some e :: rest → World.queue w' = World.queue w).
Proof.
  destruct (passes_keep_clock (World.clock w)) as (Hclock1 & Hclock2 & Hclock3).
  specialize (Hclock1 w eq_refl). specialize (Hclock2 w eq_refl).
  specialize (Hclock3 w eq_refl).
  destruct (try_catch_swallows _ w : ∃ w', SchedulerService.processFollowRequests w = _)
    as (w1 & Hrun1).
  destruct (try_catch_swallows _ w : ∃ w', SchedulerService.processFollowResponses w = _)
    as (w2 & Hrun2).
  destruct (try_catch_swallows _ w : ∃ w', SchedulerService.processPendingJobs w = _)
    as (w3 & Hrun3).
  rewrite Hrun1 in Hclock1. rewrite Hrun2 in Hclock2. rewrite Hrun3 in Hclock3.
  simpl in Hclock1, Hclock2, Hclock3.
  split_and!.
  - exists w1. split.
    + unfold SchedulerController.triggerFollowRequests, try_catch.
      rewrite (bind_return _ _ _ _ _ Hrun1). exec. by rewrite Hclock1.
    + intros e rest Hf. destruct (passes_store_down w e rest Hf) as (Hdown & _).
      rewrite Hdown in Hrun1. by injection Hrun1 as <-.
  - exists w2. split.
    + unfold SchedulerController.triggerFollowResponses, try_catch.
      rewrite (bind_return _ _ _ _ _ Hrun2). exec. by rewrite Hclock2.
    + intros e rest Hf. destruct (passes_store_down w e rest Hf) as (_ & Hdown & _).
      rewrite Hdown in Hrun2. by injection Hrun2 as <-.
  - exists w3. split.
    + unfold SchedulerController.triggerPendingJobs, try_catch.
      rewrite (bind_return _ _ _ _ _ Hrun3). exec. by rewrite Hclock3.
    + intros e rest Hf. destruct (passes_store_down w e rest Hf) as (_ & _ & Hdown).
      rewrite Hdown in Hrun3. by injection Hrun3 as <-.
Qed.

End more_on_api.
